(** * War transcript validator: line classifier, protocol machine, deck
      tracker, trick comparer and the validation loop.

    Shallow embedding of [project_types.py], [parser.py] and
    [validator.py].  Python [int] is [Z]; [str] is [string], one [ascii]
    per code point (code points below 256); [set[Card]] is [gset Card];
    a [dict] keyed by cards is a [gmap]; a [dict] keyed by player ids,
    whose iteration order the code relies on, is an association list in
    insertion order; a raised Python exception is the [Raise] outcome. *)

From Stdlib Require Import ZArith NArith String Ascii List Bool Lia.
From stdpp Require Import base decidable option list gmap strings pretty.

Open Scope Z_scope.

(* ===================================================================== *)
(** ** project_types.py                                                   *)
(* ===================================================================== *)

(** [PlayerId = NewType('PlayerId', int)]: a player id is an [int]. *)
Abbreviation PlayerId := Z (only parsing).

Inductive Rank :=
  ACE | TWO | THREE | FOUR | FIVE | SIX | SEVEN
| EIGHT | NINE | TEN | JACK | QUEEN | KING.

Inductive Suit := CLUBS | DIAMONDS | HEARTS | SPADES.

(** The enumeration order of the members, [for rank in Rank]. *)
Definition all_ranks : list Rank :=
  [ACE; TWO; THREE; FOUR; FIVE; SIX; SEVEN; EIGHT; NINE; TEN; JACK; QUEEN; KING].

Definition all_suits : list Suit := [CLUBS; DIAMONDS; HEARTS; SPADES].

(** The [value] of each [StrEnum] member. *)
Definition Rank_value (r : Rank) : string :=
  match r with
  | ACE => "Ace" | TWO => "Two" | THREE => "Three" | FOUR => "Four"
  | FIVE => "Five" | SIX => "Six" | SEVEN => "Seven" | EIGHT => "Eight"
  | NINE => "Nine" | TEN => "Ten" | JACK => "Jack" | QUEEN => "Queen"
  | KING => "King"
  end.

Definition Suit_value (s : Suit) : string :=
  match s with
  | CLUBS => "Clubs" | DIAMONDS => "Diamonds"
  | HEARTS => "Hearts" | SPADES => "Spades"
  end.

(** [Rank.from_str]: the first member whose value is [s]. *)
Definition Rank_from_str (s : string) : option Rank :=
  List.find (fun r => String.eqb (Rank_value r) s) all_ranks.

Definition Suit_from_str (s : string) : option Suit :=
  List.find (fun x => String.eqb (Suit_value x) s) all_suits.

Record Card := mkCard { rank : Rank; suit : Suit }.

(** [Card.standard_cards]: [[Card(rank, suit) for rank in Rank for suit in Suit]]. *)
Definition standard_cards : list Card :=
  List.flat_map (fun r => List.map (fun s => mkCard r s) all_suits) all_ranks.

#[global] Instance Rank_eq_dec : EqDecision Rank.
Proof. solve_decision. Defined.

#[global] Instance Suit_eq_dec : EqDecision Suit.
Proof. solve_decision. Defined.

#[global] Instance Card_eq_dec : EqDecision Card.
Proof. solve_decision. Defined.

(** [rank_order.index(r)] for [rank_order = [rank for rank in Rank]]. *)
Definition rank_index (r : Rank) : Z :=
  match r with
  | ACE => 0 | TWO => 1 | THREE => 2 | FOUR => 3 | FIVE => 4 | SIX => 5
  | SEVEN => 6 | EIGHT => 7 | NINE => 8 | TEN => 9 | JACK => 10
  | QUEEN => 11 | KING => 12
  end.

Definition suit_index (s : Suit) : Z :=
  match s with CLUBS => 0 | DIAMONDS => 1 | HEARTS => 2 | SPADES => 3 end.

(** Cards are hashable (frozen dataclass); here they are countable through
    their position in [standard_cards]. *)
Definition card_code (c : Card) : Z := 4 * rank_index (rank c) + suit_index (suit c).

Definition card_of_code (z : Z) : Card :=
  List.nth (Z.to_nat z) standard_cards (mkCard ACE CLUBS).

Lemma card_of_code_code (c : Card) : card_of_code (card_code c) = c.
Proof. destruct c as [[] []]; reflexivity. Qed.

#[global] Instance Card_countable : Countable Card :=
  inj_countable' card_code card_of_code card_of_code_code.

Inductive ParseState :=
| REGULAR_ROUND
| REGULAR_PLAYER_1_LABEL
| REGULAR_PLAYER_1_CARD
| REGULAR_PLAYER_2_LABEL
| REGULAR_PLAYER_2_CARD
| ROUND_WINNER
| COMMENCING_WAR
| WAR_ROUND
| WAR_PLAYER_1_LABEL
| WAR_PLAYER_1_CARD_UP
| WAR_PLAYER_1_CARD_DOWN
| WAR_PLAYER_2_LABEL
| WAR_PLAYER_2_CARD_UP
| WAR_PLAYER_2_CARD_DOWN
| CONTINUING_WAR
| WINNER_PLAYER_1
| WINNER_PLAYER_2
| DRAW
| NO_MORE_LINES.

Inductive WarState := NO_WAR | WAR_START | WAR_ONGOING | WAR_END.

Inductive GameEndState := PLAYER_1_WIN | PLAYER_2_WIN | GAME_DRAW.

(** The [Line] class hierarchy, one constructor per dataclass. *)
Inductive Line :=
| RoundLine (round_number : Z)
| PlayerLabelLine (player_number : Z)
| FaceUpCardLine (r : Rank) (s : Suit)
| FaceDownCardLine (r : Rank) (s : Suit)
| RoundWinnerLine (player_number : Z) (r : Rank) (s : Suit)
| CommencingWarLine
| WarRoundLine (round_number war_round_number : Z)
| ContinuingWarLine
| GameWinnerLine (winner card_count : Z)
| DrawLine
| EmptyLine
| MalformedLine (text : string).

#[global] Instance ParseState_eq_dec : EqDecision ParseState.
Proof. solve_decision. Defined.

#[global] Instance WarState_eq_dec : EqDecision WarState.
Proof. solve_decision. Defined.

#[global] Instance GameEndState_eq_dec : EqDecision GameEndState.
Proof. solve_decision. Defined.

#[global] Instance Line_eq_dec : EqDecision Line.
Proof. solve_decision. Defined.

(** [isinstance(line, EmptyLine)]. *)
Definition is_EmptyLine (l : Line) : bool :=
  match l with EmptyLine => true | _ => false end.

(* ===================================================================== *)
(** ** parser.py: ParseStateMachine                                       *)
(* ===================================================================== *)

(** [ParseStateMachine._next_state_game_end]; falling out of the [match]
    returns [None]. *)
Definition _next_state_game_end (state : ParseState) (line_type : Line)
    (game_end_state : GameEndState) : option ParseState :=
  match state, line_type, game_end_state with
  | REGULAR_ROUND, RoundLine _, PLAYER_1_WIN => Some WINNER_PLAYER_1
  | REGULAR_ROUND, RoundLine _, PLAYER_2_WIN => Some WINNER_PLAYER_2
  | REGULAR_ROUND, RoundLine _, GAME_DRAW => Some DRAW
  | WAR_ROUND, WarRoundLine _ _, PLAYER_1_WIN => Some WINNER_PLAYER_1
  | WAR_ROUND, WarRoundLine _ _, PLAYER_2_WIN => Some WINNER_PLAYER_2
  | WAR_ROUND, WarRoundLine _ _, GAME_DRAW => Some DRAW
  | WINNER_PLAYER_1, GameWinnerLine winner _, _ =>
      if decide (winner = 1) then Some NO_MORE_LINES else None
  | WINNER_PLAYER_2, GameWinnerLine winner _, _ =>
      if decide (winner = 2) then Some NO_MORE_LINES else None
  | DRAW, DrawLine, _ => Some NO_MORE_LINES
  | _, _, _ => None
  end.

(** [ParseStateMachine._next_state_game_ongoing]. *)
Definition _next_state_game_ongoing (state : ParseState) (line_type : Line)
    (war_state : WarState) : option ParseState :=
  match state, line_type, war_state with
  | REGULAR_ROUND, RoundLine _, NO_WAR => Some REGULAR_PLAYER_1_LABEL
  | REGULAR_PLAYER_1_LABEL, PlayerLabelLine player_number, NO_WAR =>
      if decide (player_number = 1) then Some REGULAR_PLAYER_1_CARD else None
  | REGULAR_PLAYER_1_CARD, FaceUpCardLine _ _, NO_WAR => Some REGULAR_PLAYER_2_LABEL
  | REGULAR_PLAYER_2_LABEL, PlayerLabelLine player_number, NO_WAR =>
      if decide (player_number = 2) then Some REGULAR_PLAYER_2_CARD else None
  | REGULAR_PLAYER_2_CARD, FaceUpCardLine _ _, NO_WAR => Some ROUND_WINNER
  | REGULAR_PLAYER_2_CARD, FaceUpCardLine _ _, WAR_START => Some COMMENCING_WAR
  | REGULAR_PLAYER_2_CARD, FaceUpCardLine _ _, WAR_ONGOING => Some CONTINUING_WAR
  | REGULAR_PLAYER_2_CARD, FaceUpCardLine _ _, WAR_END => Some ROUND_WINNER
  | ROUND_WINNER, RoundWinnerLine player_number _ _, NO_WAR =>
      if decide (player_number = 1 ∨ player_number = 2)
      then Some REGULAR_ROUND else None
  | COMMENCING_WAR, CommencingWarLine, WAR_ONGOING => Some WAR_ROUND
  | WAR_ROUND, WarRoundLine _ _, WAR_ONGOING => Some WAR_PLAYER_1_LABEL
  | WAR_PLAYER_1_LABEL, PlayerLabelLine player_number, WAR_ONGOING =>
      if decide (player_number = 1) then Some WAR_PLAYER_1_CARD_UP else None
  | WAR_PLAYER_1_CARD_UP, FaceUpCardLine _ _, WAR_ONGOING => Some WAR_PLAYER_1_CARD_DOWN
  | WAR_PLAYER_1_CARD_DOWN, FaceDownCardLine _ _, WAR_ONGOING => Some WAR_PLAYER_2_LABEL
  | WAR_PLAYER_2_LABEL, PlayerLabelLine player_number, WAR_ONGOING =>
      if decide (player_number = 2) then Some WAR_PLAYER_2_CARD_UP else None
  | WAR_PLAYER_2_CARD_UP, FaceUpCardLine _ _, WAR_ONGOING => Some WAR_PLAYER_2_CARD_DOWN
  | WAR_PLAYER_2_CARD_DOWN, FaceDownCardLine _ _, WAR_ONGOING => Some CONTINUING_WAR
  | WAR_PLAYER_2_CARD_DOWN, FaceDownCardLine _ _, WAR_END => Some ROUND_WINNER
  | CONTINUING_WAR, ContinuingWarLine, WAR_ONGOING => Some WAR_ROUND
  | _, _, _ => None
  end.

(** [ParseStateMachine.next_state]. *)
Definition next_state (state : ParseState) (line_type : Line)
    (war_state : WarState) (game_end_state : option GameEndState)
    : option ParseState :=
  if is_EmptyLine line_type then Some state
  else match game_end_state with
       | Some g => _next_state_game_end state line_type g
       | None => _next_state_game_ongoing state line_type war_state
       end.

(* ===================================================================== *)
(** ** parser.py: LineParser                                              *)
(* ===================================================================== *)

Definition char_code (c : ascii) : N := N_of_ascii c.

(** [\d] on code points below 256: the decimal digits [0-9]. *)
Definition is_digit (c : ascii) : bool :=
  ((48 <=? char_code c) && (char_code c <=? 57))%N.

(** [[A-Za-z]]. *)
Definition is_alpha (c : ascii) : bool :=
  (((65 <=? char_code c) && (char_code c <=? 90))
   || ((97 <=? char_code c) && (char_code c <=? 122)))%N.

(** [str.isspace] on code points below 256: tab, line feed, vertical tab,
    form feed, carriage return, the four separators 28..31, space, NEL (133)
    and the no-break space (160). *)
Definition is_space (c : ascii) : bool :=
  (((9 <=? char_code c) && (char_code c <=? 13))
   || ((28 <=? char_code c) && (char_code c <=? 32))
   || (char_code c =? 133) || (char_code c =? 160))%N.

Definition newline : ascii := ascii_of_N 10.

(** ['\n' in line]. *)
Fixpoint contains_newline (s : string) : bool :=
  match s with
  | EmptyString => false
  | String c s' => Ascii.eqb c newline || contains_newline s'
  end.

Fixpoint lstrip (s : string) : string :=
  match s with
  | EmptyString => EmptyString
  | String c s' => if is_space c then lstrip s' else s
  end.

(** Drops the trailing white space: a character is kept when it is not
    white space or when something kept follows it. *)
Fixpoint rstrip (s : string) : string :=
  match s with
  | EmptyString => EmptyString
  | String c s' =>
      match rstrip s' with
      | EmptyString => if is_space c then EmptyString else String c EmptyString
      | r => String c r
      end
  end.

(** [str.strip()]. *)
Definition strip (s : string) : string := rstrip (lstrip s).

(** The patterns are anchored at both ends and every repetition is followed
    by a character outside its class (or by the end of the line), so the
    greedy match is the only candidate and no backtracking can succeed where
    it fails: each pattern is a deterministic left-to-right scan. *)

(** Matches the literal [p] at the start of [s]; the rest of [s]. *)
Fixpoint strip_prefix (p s : string) : option string :=
  match p with
  | EmptyString => Some s
  | String a p' =>
      match s with
      | String b s' => if Ascii.eqb a b then strip_prefix p' s' else None
      | EmptyString => None
      end
  end.

(** The longest prefix of [s] made of characters in the class [f], and the
    rest. *)
Fixpoint span (f : ascii → bool) (s : string) : string * string :=
  match s with
  | EmptyString => (EmptyString, EmptyString)
  | String c s' =>
      if f c then (String c (span f s').1, (span f s').2)
      else (EmptyString, s)
  end.

(** A greedy [+] repetition of the class [f]: at least one character. *)
Definition many1 (f : ascii → bool) (s : string) : option (string * string) :=
  match span f s with
  | (EmptyString, _) => None
  | (a, r) => Some (a, r)
  end.

(** [$]: the end of the string, or just before a line feed that ends the
    string. *)
Definition at_end (s : string) : bool :=
  match s with
  | EmptyString => true
  | String c EmptyString => Ascii.eqb c newline
  | String _ (String _ _) => false
  end.

(** A pattern that is one literal between [^] and [$]. *)
Definition literal_pattern (p s : string) : bool :=
  match strip_prefix p s with
  | Some r => at_end r
  | None => false
  end.

(** [^Round (?P<round_number>\d+)$] *)
Definition _round_line_pattern (s : string) : option string :=
  r ← strip_prefix "Round " s;
  '(round_number, r) ← many1 is_digit r;
  if at_end r then Some round_number else None.

(** [^Player (?P<player_number>\d+):$] *)
Definition _player_label_line_pattern (s : string) : option string :=
  r ← strip_prefix "Player " s;
  '(player_number, r) ← many1 is_digit r;
  r ← strip_prefix ":" r;
  if at_end r then Some player_number else None.

(** [^- (?P<rank>[A-Za-z]+) of (?P<suit>[A-Za-z]+)$] *)
Definition _face_up_card_line_pattern (s : string) : option (string * string) :=
  r ← strip_prefix "- " s;
  '(rank_s, r) ← many1 is_alpha r;
  r ← strip_prefix " of " r;
  '(suit_s, r) ← many1 is_alpha r;
  if at_end r then Some (rank_s, suit_s) else None.

(** [^- (?P<rank>[A-Za-z]+) of (?P<suit>[A-Za-z]+) \(face down\)$] *)
Definition _face_down_card_line_pattern (s : string) : option (string * string) :=
  r ← strip_prefix "- " s;
  '(rank_s, r) ← many1 is_alpha r;
  r ← strip_prefix " of " r;
  '(suit_s, r) ← many1 is_alpha r;
  r ← strip_prefix " (face down)" r;
  if at_end r then Some (rank_s, suit_s) else None.

(** [^Round winner: Player (?P<player_number>\d+) \((?P<rank>[A-Za-z]+) of (?P<suit>[A-Za-z]+)\)$] *)
Definition _round_winner_pattern (s : string) : option (string * string * string) :=
  r ← strip_prefix "Round winner: Player " s;
  '(player_number, r) ← many1 is_digit r;
  r ← strip_prefix " (" r;
  '(rank_s, r) ← many1 is_alpha r;
  r ← strip_prefix " of " r;
  '(suit_s, r) ← many1 is_alpha r;
  r ← strip_prefix ")" r;
  if at_end r then Some (player_number, rank_s, suit_s) else None.

(** [^Commencing war\.\.\.$] *)
Definition _commencing_war_pattern (s : string) : bool :=
  literal_pattern "Commencing war..." s.

(** [^Round (?P<round_number>\d+), War (?P<war_number>\d+)$] *)
Definition _war_round_line_pattern (s : string) : option (string * string) :=
  r ← strip_prefix "Round " s;
  '(round_number, r) ← many1 is_digit r;
  r ← strip_prefix ", War " r;
  '(war_number, r) ← many1 is_digit r;
  if at_end r then Some (round_number, war_number) else None.

(** [^Continuing war\.\.\.$] *)
Definition _continuing_war_pattern (s : string) : bool :=
  literal_pattern "Continuing war..." s.

(** [^Player (?P<player_number>\d+) wins with (?P<card_count>\d+) cards in their deck$] *)
Definition _game_winner_line_pattern (s : string) : option (string * string) :=
  r ← strip_prefix "Player " s;
  '(player_number, r) ← many1 is_digit r;
  r ← strip_prefix " wins with " r;
  '(card_count, r) ← many1 is_digit r;
  r ← strip_prefix " cards in their deck" r;
  if at_end r then Some (player_number, card_count) else None.

(** [^The game ended in a draw$] *)
Definition _draw_line_pattern (s : string) : bool :=
  literal_pattern "The game ended in a draw" s.

Definition digit_value (c : ascii) : Z := Z.of_N (char_code c) - 48.

Fixpoint decimal_value (acc : Z) (s : string) : Z :=
  match s with
  | EmptyString => acc
  | String c s' => decimal_value (10 * acc + digit_value c) s'
  end.

(** The interpreter's default limit on the digits of an integer string. *)
Definition int_max_str_digits : nat := 4300.

(** [int(s)] for a capture of [\d+]: the decimal value, or [None] for the
    [ValueError] raised when [s] has more digits than the limit. *)
Definition int_of_digits (s : string) : option Z :=
  if (String.length s <=? int_max_str_digits)%nat
  then Some (decimal_value 0 s) else None.

Record LineParser := mkLineParser {
  _valid_player_numbers : list Z;
  _max_cards : Z
}.

(** [LineParser.default]. *)
Definition LineParser_default : LineParser := mkLineParser [1; 2] 52.

(** The [if]/[elif] chain of [parse_line] on the stripped, non-empty line:
    [Some] for a [return] inside the chain, [None] when control leaves the
    chain without returning (no pattern matched, or the branch of the first
    matching pattern did not return). *)
Definition parse_line_chain (self : LineParser) (line : string) : option Line :=
  match _round_line_pattern line with
  | Some m =>
      match int_of_digits m with
      | None => None
      | Some round_number => Some (RoundLine round_number)
      end
  | None =>
  match _player_label_line_pattern line with
  | Some m =>
      match int_of_digits m with
      | None => None
      | Some player_number =>
          if bool_decide (player_number ∈ _valid_player_numbers self)
          then Some (PlayerLabelLine player_number) else None
      end
  | None =>
  match _face_up_card_line_pattern line with
  | Some (m_rank, m_suit) =>
      match Rank_from_str m_rank, Suit_from_str m_suit with
      | Some rank, Some suit => Some (FaceUpCardLine rank suit)
      | _, _ => None
      end
  | None =>
  match _face_down_card_line_pattern line with
  | Some (m_rank, m_suit) =>
      match Rank_from_str m_rank, Suit_from_str m_suit with
      | Some rank, Some suit => Some (FaceDownCardLine rank suit)
      | _, _ => None
      end
  | None =>
  match _round_winner_pattern line with
  | Some (m_player, m_rank, m_suit) =>
      match int_of_digits m_player with
      | None => None
      | Some player_number =>
          match Rank_from_str m_rank, Suit_from_str m_suit with
          | Some rank, Some suit =>
              if bool_decide (player_number ∈ _valid_player_numbers self)
              then Some (RoundWinnerLine player_number rank suit) else None
          | _, _ => None
          end
      end
  | None =>
  if _commencing_war_pattern line then Some CommencingWarLine
  else
  match _war_round_line_pattern line with
  | Some (m_round, m_war) =>
      match int_of_digits m_round, int_of_digits m_war with
      | Some round_number, Some war_number =>
          Some (WarRoundLine round_number war_number)
      | _, _ => None
      end
  | None =>
  if _continuing_war_pattern line then Some ContinuingWarLine
  else
  match _game_winner_line_pattern line with
  | Some (m_player, m_count) =>
      match int_of_digits m_player, int_of_digits m_count with
      | Some player_number, Some card_count =>
          if bool_decide (player_number ∈ _valid_player_numbers self)
             && bool_decide (0 ≤ card_count ≤ _max_cards self)
          then Some (GameWinnerLine player_number card_count) else None
      | _, _ => None
      end
  | None =>
  if _draw_line_pattern line then Some DrawLine else None
  end end end end end end end.

(** [LineParser.parse_line]. *)
Definition parse_line (self : LineParser) (line : string) : Line :=
  if contains_newline line then MalformedLine line
  else
    let line := strip line in
    if String.eqb line "" then EmptyLine
    else default (MalformedLine line) (parse_line_chain self line).

(* ===================================================================== *)
(** ** Python exceptions and dictionaries keyed by player id              *)
(* ===================================================================== *)

(** The exceptions the validator's code can raise. *)
Inductive exn := KeyError | IndexError.

(** The outcome of a call: a returned value or a raised exception. *)
Inductive outcome (A : Type) :=
| Ret (a : A)
| Raise (e : exn).
Arguments Ret {A} a.
Arguments Raise {A} e.

#[global] Instance outcome_bind : MBind outcome := fun A B f m =>
  match m with
  | Ret a => f a
  | Raise e => Raise e
  end.

(** A [dict[PlayerId, V]] in insertion order. *)
Definition pdict (V : Type) := list (PlayerId * V).

(** [d.get(k)]. *)
Fixpoint pdict_get {V} (k : PlayerId) (d : pdict V) : option V :=
  match d with
  | [] => None
  | (k', v) :: d' => if decide (k' = k) then Some v else pdict_get k d'
  end.

(** [d[k]]: raises [KeyError] for a missing key. *)
Definition pdict_item {V} (k : PlayerId) (d : pdict V) : outcome V :=
  match pdict_get k d with
  | Some v => Ret v
  | None => Raise KeyError
  end.

(** [d[k] = v]: an existing key keeps its position, a new one goes last. *)
Fixpoint pdict_set {V} (k : PlayerId) (v : V) (d : pdict V) : pdict V :=
  match d with
  | [] => [(k, v)]
  | (k', v') :: d' =>
      if decide (k' = k) then (k, v) :: d' else (k', v') :: pdict_set k v d'
  end.

(* ===================================================================== *)
(** ** validator.py: errors and results                                   *)
(* ===================================================================== *)

(** [ValidationError]: one constructor per message of the source, carrying
    the values the message interpolates. *)
Inductive ValidationError :=
| ErrNotInPlay (card : Card) (player_id : PlayerId)
| ErrNotInDeck (card : Card) (player_id : PlayerId)
| ErrNotInTopmostGroup (card : Card) (player_id : PlayerId)
| ErrAlreadyInPlay (card : Card)
| ErrAlreadyFaceUp (player_id : PlayerId) (card card_in_play : Card)
| ErrNoFaceUpCard (player_id : PlayerId)
| ErrGameDidNotEnd (state : ParseState) (war_state : WarState)
    (game_end_state : option GameEndState) (cards_left : pdict Z)
| ErrRoundNumber (expected found : Z)
| ErrWarRoundNumber (expected found : Z)
| ErrCannotPlayYet (card : Card)
| ErrMultipleWinners (result : list PlayerId) (player_number : Z)
| ErrWrongWinner (winning_player : PlayerId) (player_number : Z)
| ErrWrongWinningCard (winning_player : PlayerId)
    (correct_card : option Card) (card : Card)
| ErrSingleWinner (result : list PlayerId) (commence : bool)
| ErrMalformedLine (text : string)
| ErrUnexpectedLine (line : Line) (state : ParseState) (war_state : WarState)
    (game_end_state : option GameEndState) (cards_left : pdict Z).

Record ValidationResult := mkValidationResult {
  res_line_number : Z;
  res_state : ParseState;
  res_error : option ValidationError
}.

(** Sequencing of checks of the form [if (ret := check): return ret]. *)
Definition or_check (e : option ValidationError)
    (k : option ValidationError) : option ValidationError :=
  match e with
  | Some err => Some err
  | None => k
  end.

(* ===================================================================== *)
(** ** validator.py: CardGroupDeck                                        *)
(* ===================================================================== *)

(** [_card_groups]: an ordered sequence of unordered sets of cards. *)
Definition CardGroupDeck := list (gset Card).

(** [CardGroupDeck.__init__]. *)
Definition CardGroupDeck_init (initial : list Card) : CardGroupDeck :=
  match initial with
  | [] => []
  | _ => [list_to_set initial]
  end.

(** [__len__]. *)
Definition CardGroupDeck_len (deck : CardGroupDeck) : Z :=
  foldr (fun group acc => Z.of_nat (size group) + acc) 0 deck.

(** [can_draw]: the deck has a group and the card is in the first one. *)
Definition can_draw (card : Card) (deck : CardGroupDeck) : bool :=
  match deck with
  | [] => false
  | group :: _ => bool_decide (card ∈ group)
  end.

(** [remove_if_present]: the card leaves the first group that holds it, and
    a group emptied that way is popped. *)
Fixpoint remove_if_present (card : Card) (deck : CardGroupDeck) : CardGroupDeck :=
  match deck with
  | [] => []
  | card_set :: rest =>
      if bool_decide (card ∈ card_set) then
        let card_set' := card_set ∖ {[card]} in
        if bool_decide (card_set' = ∅) then rest else card_set' :: rest
      else card_set :: remove_if_present card rest
  end.

(** [add_set_to_bottom]: appends a copy of the collection as a set. *)
Definition add_set_to_bottom (cards : gset Card) (deck : CardGroupDeck) : CardGroupDeck :=
  deck ++ [cards].

(* ===================================================================== *)
(** ** validator.py: CardConsistencyValidator                             *)
(* ===================================================================== *)

Record CardConsistencyValidator := mkCardConsistencyValidator {
  _owner : gmap Card PlayerId;
  _cards_in_play : gset Card;
  _card_group_decks : pdict CardGroupDeck;
  _actual_card_counts : pdict Z
}.

(** [CardConsistencyValidator.__init__]. *)
Definition CardConsistencyValidator_init
    (initial : list (PlayerId * (Z * list Card))) : CardConsistencyValidator :=
  {| _owner := ∅;
     _cards_in_play := ∅;
     _card_group_decks :=
       foldl (fun d '(player_id, (_, possible_draws)) =>
                pdict_set player_id (CardGroupDeck_init possible_draws) d) [] initial;
     _actual_card_counts :=
       foldl (fun d '(player_id, (count, _)) => pdict_set player_id count d) [] initial |}.

(** [CardConsistencyValidator.default]. *)
Definition CardConsistencyValidator_default : CardConsistencyValidator :=
  CardConsistencyValidator_init
    [(1, (26, standard_cards)); (2, (26, standard_cards))].

(** [get_player_cards_left]. *)
Definition get_player_cards_left (self : CardConsistencyValidator) : pdict Z :=
  _actual_card_counts self.

Definition _ensure_card_not_duplicated (self : CardConsistencyValidator)
    (card : Card) (player_id : PlayerId) : option ValidationError :=
  match _owner self !! card with
  | Some owner =>
      if decide (owner ≠ player_id) then Some (ErrNotInDeck card player_id) else None
  | None => None
  end.

Definition _ensure_card_in_deck (self : CardConsistencyValidator)
    (card : Card) (player_id : PlayerId) : outcome (option ValidationError) :=
  deck ← pdict_item player_id (_card_group_decks self);
  Ret (if can_draw card deck then None
        else Some (ErrNotInTopmostGroup card player_id)).

Definition _ensure_card_not_in_play (self : CardConsistencyValidator)
    (card : Card) : option ValidationError :=
  if bool_decide (card ∈ _cards_in_play self)
  then Some (ErrAlreadyInPlay card) else None.

Definition _validate_played_card_rules (self : CardConsistencyValidator)
    (card : Card) (player_id : PlayerId) : outcome (option ValidationError) :=
  match _ensure_card_not_duplicated self card player_id with
  | Some err => Ret (Some err)
  | None =>
      ret ← _ensure_card_in_deck self card player_id;
      Ret (or_check ret (_ensure_card_not_in_play self card))
  end.

(** [card_played_by]: the returned error (if any) and the tracker after the
    call. *)
Definition card_played_by (self : CardConsistencyValidator)
    (card : Card) (player_id : PlayerId)
    : outcome (option ValidationError * CardConsistencyValidator) :=
  ret ← _validate_played_card_rules self card player_id;
  match ret with
  | Some err => Ret (Some err, self)
  | None =>
      count ← pdict_item player_id (_actual_card_counts self);
      Ret (None,
            {| _owner := delete card (_owner self);
               _cards_in_play := {[card]} ∪ _cards_in_play self;
               _card_group_decks :=
                 List.map (fun '(p, deck) => (p, remove_if_present card deck))
                          (_card_group_decks self);
               _actual_card_counts :=
                 pdict_set player_id (count - 1) (_actual_card_counts self) |})
  end.

Definition _ensure_card_in_play (self : CardConsistencyValidator)
    (card : Card) (player_id : PlayerId) : option ValidationError :=
  if bool_decide (_owner self !! card = None)
     && negb (bool_decide (card ∈ _cards_in_play self))
  then Some (ErrNotInPlay card player_id) else None.

(** [_validate_cards_added_rules]: the first failing card in iteration order.
    Python leaves the iteration order of a set unspecified; the order of
    [elements] stands for it. *)
Definition _validate_cards_added_rules (self : CardConsistencyValidator)
    (cards : gset Card) (player_id : PlayerId) : option ValidationError :=
  foldr (fun card k => or_check (_ensure_card_in_play self card player_id) k)
        None (elements cards).

(** [_cards_added_to_deck_bottom]: the returned error and the decks after
    the call. *)
Definition _cards_added_to_deck_bottom (self : CardConsistencyValidator)
    (cards : gset Card) (player_id : PlayerId)
    : outcome (option ValidationError * pdict CardGroupDeck) :=
  match _validate_cards_added_rules self cards player_id with
  | Some err => Ret (Some err, _card_group_decks self)
  | None =>
      deck ← pdict_item player_id (_card_group_decks self);
      Ret (None, pdict_set player_id (add_set_to_bottom cards deck)
                            (_card_group_decks self))
  end.

(** [cards_in_play_taken_by]. *)
Definition cards_in_play_taken_by (self : CardConsistencyValidator)
    (player_id : PlayerId)
    : outcome (option ValidationError * CardConsistencyValidator) :=
  '(ret, decks) ← _cards_added_to_deck_bottom self (_cards_in_play self) player_id;
  count ← pdict_item player_id (_actual_card_counts self);
  Ret (ret,
        {| _owner := _owner self;
           _cards_in_play := ∅;
           _card_group_decks := decks;
           _actual_card_counts :=
             pdict_set player_id (count + Z.of_nat (size (_cards_in_play self)))
                       (_actual_card_counts self) |}).

(* ===================================================================== *)
(** ** validator.py: CardComparer                                         *)
(* ===================================================================== *)

Record CardComparer := mkCardComparer {
  _player_ids : list PlayerId;
  _played_cards : gmap PlayerId Card
}.

(** [CardComparer.default]. *)
Definition CardComparer_default : CardComparer := mkCardComparer [1; 2] ∅.

Definition reset_played_cards (self : CardComparer) : CardComparer :=
  mkCardComparer (_player_ids self) ∅.

Definition face_up_card_played_by (self : CardComparer) (card : Card)
    (player_id : PlayerId) : option ValidationError * CardComparer :=
  match _played_cards self !! player_id with
  | Some card_in_play => (Some (ErrAlreadyFaceUp player_id card card_in_play), self)
  | None =>
      (None, mkCardComparer (_player_ids self)
                            (<[player_id := card]> (_played_cards self)))
  end.

Definition get_current_face_up_card (self : CardComparer)
    (player_id : PlayerId) : option Card :=
  _played_cards self !! player_id.

(** The [for player_id in self._player_ids] loop of [determine_winners],
    from the ids still to visit and the current [ret] and [best_so_far]. *)
Fixpoint determine_winners_loop (played : gmap PlayerId Card)
    (player_ids : list PlayerId) (ret : list PlayerId)
    (best_so_far : option Card) : ValidationError + list PlayerId :=
  match player_ids with
  | [] => inr ret
  | player_id :: rest =>
      match played !! player_id with
      | None => inl (ErrNoFaceUpCard player_id)
      | Some card =>
          match best_so_far with
          | None => determine_winners_loop played rest (ret ++ [player_id]) (Some card)
          | Some best =>
              let self_rank := rank_index (rank card) in
              let best_rank := rank_index (rank best) in
              let ret := if self_rank >? best_rank then [] else ret in
              let ret := if self_rank >=? best_rank then ret ++ [player_id] else ret in
              determine_winners_loop played rest ret best_so_far
          end
      end
  end.

(** [CardComparer.determine_winners]. *)
Definition determine_winners (self : CardComparer) : ValidationError + list PlayerId :=
  determine_winners_loop (_played_cards self) (_player_ids self) [] None.

(* ===================================================================== *)
(** ** validator.py: WarOutputValidator                                   *)
(* ===================================================================== *)

(** [ParseStateMachine]: the object holding the current protocol state. *)
Record ParseStateMachine := mkParseStateMachine { _state : ParseState }.

(** [ParseStateMachine.default]. *)
Definition ParseStateMachine_default : ParseStateMachine :=
  mkParseStateMachine REGULAR_ROUND.

(** [ParseStateMachine.update_state]: the state moves only on a legal line. *)
Definition update_state (self : ParseStateMachine) (line_type : Line)
    (war_state : WarState) (game_end_state : option GameEndState)
    : option ParseState * ParseStateMachine :=
  match next_state (_state self) line_type war_state game_end_state with
  | Some s => (Some s, mkParseStateMachine s)
  | None => (None, self)
  end.

Record WarOutputValidator := mkWarOutputValidator {
  _parser : LineParser;
  _parse_manager : ParseStateMachine;
  _card_validator : CardConsistencyValidator;
  _card_comparer : CardComparer;
  _round_number : Z;
  _line_number : Z;
  _war_round_number : Z;
  _war_state : WarState;
  _game_end_state : option GameEndState;
  (** [None] or [True] in the source. *)
  _encountered_game_done_line : bool
}.

(** [WarOutputValidator.default]. *)
Definition WarOutputValidator_default : WarOutputValidator :=
  {| _parser := LineParser_default;
     _parse_manager := ParseStateMachine_default;
     _card_validator := CardConsistencyValidator_default;
     _card_comparer := CardComparer_default;
     _round_number := 1;
     _line_number := 1;
     _war_round_number := 0;
     _war_state := NO_WAR;
     _game_end_state := None;
     _encountered_game_done_line := false |}.

(** Attribute assignments [self._x = v]. *)
Definition set_parse_manager (v : ParseStateMachine) (self : WarOutputValidator) :=
  mkWarOutputValidator (_parser self) v (_card_validator self)
    (_card_comparer self) (_round_number self) (_line_number self)
    (_war_round_number self) (_war_state self) (_game_end_state self)
    (_encountered_game_done_line self).

Definition set_card_validator (v : CardConsistencyValidator) (self : WarOutputValidator) :=
  mkWarOutputValidator (_parser self) (_parse_manager self) v
    (_card_comparer self) (_round_number self) (_line_number self)
    (_war_round_number self) (_war_state self) (_game_end_state self)
    (_encountered_game_done_line self).

Definition set_card_comparer (v : CardComparer) (self : WarOutputValidator) :=
  mkWarOutputValidator (_parser self) (_parse_manager self)
    (_card_validator self) v (_round_number self) (_line_number self)
    (_war_round_number self) (_war_state self) (_game_end_state self)
    (_encountered_game_done_line self).

Definition set_round_number (v : Z) (self : WarOutputValidator) :=
  mkWarOutputValidator (_parser self) (_parse_manager self)
    (_card_validator self) (_card_comparer self) v (_line_number self)
    (_war_round_number self) (_war_state self) (_game_end_state self)
    (_encountered_game_done_line self).

Definition set_line_number (v : Z) (self : WarOutputValidator) :=
  mkWarOutputValidator (_parser self) (_parse_manager self)
    (_card_validator self) (_card_comparer self) (_round_number self) v
    (_war_round_number self) (_war_state self) (_game_end_state self)
    (_encountered_game_done_line self).

Definition set_war_round_number (v : Z) (self : WarOutputValidator) :=
  mkWarOutputValidator (_parser self) (_parse_manager self)
    (_card_validator self) (_card_comparer self) (_round_number self)
    (_line_number self) v (_war_state self) (_game_end_state self)
    (_encountered_game_done_line self).

Definition set_war_state (v : WarState) (self : WarOutputValidator) :=
  mkWarOutputValidator (_parser self) (_parse_manager self)
    (_card_validator self) (_card_comparer self) (_round_number self)
    (_line_number self) (_war_round_number self) v (_game_end_state self)
    (_encountered_game_done_line self).

Definition set_game_end_state (v : option GameEndState) (self : WarOutputValidator) :=
  mkWarOutputValidator (_parser self) (_parse_manager self)
    (_card_validator self) (_card_comparer self) (_round_number self)
    (_line_number self) (_war_round_number self) (_war_state self) v
    (_encountered_game_done_line self).

Definition set_encountered_game_done_line (v : bool) (self : WarOutputValidator) :=
  mkWarOutputValidator (_parser self) (_parse_manager self)
    (_card_validator self) (_card_comparer self) (_round_number self)
    (_line_number self) (_war_round_number self) (_war_state self)
    (_game_end_state self) v.

(** The [_state] property. *)
Definition validator_state (self : WarOutputValidator) : ParseState :=
  _state (_parse_manager self).

(** [_get_players_left_after_n_draws]. *)
Definition _get_players_left_after_n_draws (self : WarOutputValidator) (n : Z)
    : list PlayerId :=
  let cards_left := get_player_cards_left (_card_validator self) in
  List.map fst (List.filter (fun '(_, count) => count >? n) cards_left).

(** [_update_game_end_state_after_n_draws]; the test for player 2 sits
    inside the branch taken for player 1, as in the source. *)
Definition _update_game_end_state_after_n_draws (self : WarOutputValidator) (n : Z)
    : WarOutputValidator :=
  let players_left := _get_players_left_after_n_draws self n in
  match players_left with
  | [] => set_game_end_state (Some GAME_DRAW) self
  | [p0] =>
      if decide (p0 = 1) then
        let self := set_game_end_state (Some PLAYER_1_WIN) self in
        if decide (p0 = 2) then set_game_end_state (Some PLAYER_2_WIN) self
        else self
      else self
  | _ => self
  end.

(** [_get_player_to_play]. *)
Definition _get_player_to_play (self : WarOutputValidator) : option PlayerId :=
  match validator_state self with
  | REGULAR_PLAYER_1_CARD | WAR_PLAYER_1_CARD_UP | WAR_PLAYER_1_CARD_DOWN => Some 1
  | REGULAR_PLAYER_2_CARD | WAR_PLAYER_2_CARD_UP | WAR_PLAYER_2_CARD_DOWN => Some 2
  | _ => None
  end.

(** The war-state update after a play that completes a trick slot: the
    inner [match (self._war_state, line)] of the card-line case. *)
Definition update_war_state_after_play (self : WarOutputValidator)
    (face_up : bool) : WarOutputValidator :=
  match _war_state self, face_up with
  | NO_WAR, true | WAR_ONGOING, false =>
      match determine_winners (_card_comparer self) with
      | inl _ => self
      | inr result =>
          if (1 <? length result)%nat then
            if decide (_war_state self = NO_WAR)
            then set_war_state WAR_START self
            else set_war_state WAR_ONGOING self
          else
            if decide (_war_state self = WAR_ONGOING)
            then set_war_state WAR_END self
            else set_war_state NO_WAR self
      end
  | _, _ => self
  end.

(** The case of [_validate_line] shared by face-up and face-down card
    lines. *)
Definition validate_card_line (self : WarOutputValidator) (rank : Rank)
    (suit : Suit) (face_up : bool)
    : outcome (option ValidationError * WarOutputValidator) :=
  let card := mkCard rank suit in
  match _get_player_to_play self with
  | None => Ret (Some (ErrCannotPlayYet card), self)
  | Some current_player =>
      '(error, cv) ← card_played_by (_card_validator self) card current_player;
      let self := set_card_validator cv self in
      match error with
      | Some err => Ret (Some err, self)
      | None =>
          if face_up then
            let '(error, cc) :=
              face_up_card_played_by (_card_comparer self) card current_player in
            let self := set_card_comparer cc self in
            match error with
            | Some err => Ret (Some err, self)
            | None => Ret (None, update_war_state_after_play self face_up)
            end
          else Ret (None, update_war_state_after_play self face_up)
      end
  end.

(** The [RoundWinnerLine] case of [_validate_line]. *)
Definition validate_round_winner_line (self : WarOutputValidator)
    (player_number : Z) (rank : Rank) (suit : Suit)
    : outcome (option ValidationError * WarOutputValidator) :=
  let self := set_round_number (_round_number self + 1) self in
  match determine_winners (_card_comparer self) with
  | inl err => Ret (Some err, self)
  | inr result =>
      if (1 <? length result)%nat
      then Ret (Some (ErrMultipleWinners result player_number), self)
      else
        match result with
        | [] => Raise IndexError
        | winning_player :: _ =>
            if decide (winning_player ≠ player_number)
            then Ret (Some (ErrWrongWinner winning_player player_number), self)
            else
              let correct_card :=
                get_current_face_up_card (_card_comparer self) winning_player in
              let card := mkCard rank suit in
              if decide (Some card ≠ correct_card)
              then Ret (Some (ErrWrongWinningCard winning_player correct_card card), self)
              else
                '(error, cv) ← cards_in_play_taken_by (_card_validator self) player_number;
                let self := set_card_validator cv self in
                match error with
                | Some err => Ret (Some err, self)
                | None =>
                    let self :=
                      set_card_comparer (reset_played_cards (_card_comparer self)) self in
                    Ret (None, set_war_state NO_WAR self)
                end
        end
  end.

(** The [CommencingWarLine() | ContinuingWarLine()] case. *)
Definition validate_war_line (self : WarOutputValidator) (commence : bool)
    : option ValidationError * WarOutputValidator :=
  match determine_winners (_card_comparer self) with
  | inl err => (Some err, self)
  | inr result =>
      if (length result =? 1)%nat
      then (Some (ErrSingleWinner result commence), self)
      else
        let self :=
          if commence then set_war_round_number 1 self
          else set_war_round_number (_war_round_number self + 1) self in
        let self := set_war_state WAR_ONGOING self in
        (None, set_card_comparer (reset_played_cards (_card_comparer self)) self)
  end.

(** The [match line:] statement of [_validate_line]: an error returned
    from inside a case, or [None] when control reaches the end of the
    statement; and the validator after it. *)
Definition validate_line_match (self : WarOutputValidator) (line : Line)
    : outcome (option ValidationError * WarOutputValidator) :=
  match line with
  | RoundLine round_number =>
      if decide (_round_number self ≠ round_number)
      then Ret (Some (ErrRoundNumber (_round_number self) round_number), self)
      else Ret (None, _update_game_end_state_after_n_draws self 0)
  | WarRoundLine round_number war_round_number =>
      if decide (_round_number self ≠ round_number)
      then Ret (Some (ErrRoundNumber (_round_number self) round_number), self)
      else if decide (_war_round_number self ≠ war_round_number)
      then Ret (Some (ErrWarRoundNumber (_war_round_number self) war_round_number), self)
      else Ret (None, _update_game_end_state_after_n_draws self 2)
  | FaceUpCardLine rank suit => validate_card_line self rank suit true
  | FaceDownCardLine rank suit => validate_card_line self rank suit false
  | RoundWinnerLine player_number rank suit =>
      validate_round_winner_line self player_number rank suit
  | CommencingWarLine => Ret (validate_war_line self true)
  | ContinuingWarLine => Ret (validate_war_line self false)
  | GameWinnerLine _ _ | DrawLine =>
      Ret (None, set_encountered_game_done_line true self)
  | MalformedLine line_str => Ret (Some (ErrMalformedLine line_str), self)
  | PlayerLabelLine _ | EmptyLine => Ret (None, self)
  end.

(** [WarOutputValidator._validate_line]. *)
Definition _validate_line (self : WarOutputValidator) (line_str : string)
    : outcome (option ValidationError * WarOutputValidator) :=
  let line := parse_line (_parser self) line_str in
  '(error, self) ← validate_line_match self line;
  match error with
  | Some err => Ret (Some err, self)
  | None =>
      let '(next, pm) :=
        update_state (_parse_manager self) line (_war_state self)
                     (_game_end_state self) in
      let self := set_parse_manager pm self in
      match next with
      | None =>
          let cards_left := get_player_cards_left (_card_validator self) in
          Ret (Some (ErrUnexpectedLine line (validator_state self)
                        (_war_state self) (_game_end_state self) cards_left),
                self)
      | Some _ => Ret (None, self)
      end
  end.

(** [WarOutputValidator.validate_lines]: the result and the validator
    after the call. *)
Fixpoint validate_lines (self : WarOutputValidator) (lines : list string)
    : outcome (ValidationResult * WarOutputValidator) :=
  match lines with
  | line :: rest =>
      '(error, self) ← _validate_line self line;
      match error with
      | Some err =>
          Ret (mkValidationResult (_line_number self) (validator_state self)
                                   (Some err), self)
      | None =>
          validate_lines (set_line_number (_line_number self + 1) self) rest
      end
  | [] =>
      if negb (_encountered_game_done_line self) then
        let cards_left := get_player_cards_left (_card_validator self) in
        Ret (mkValidationResult (_line_number self) (validator_state self)
                (Some (ErrGameDidNotEnd (validator_state self) (_war_state self)
                         (_game_end_state self) cards_left)), self)
      else
        Ret (mkValidationResult (_line_number self) (validator_state self) None,
              self)
  end.

(** [validate(lines)] on a freshly constructed validator. *)
Definition validate (lines : list string) : outcome ValidationResult :=
  '(res, _) ← validate_lines WarOutputValidator_default lines;
  Ret res.

(* ===================================================================== *)
(** ** Runs of the protocol machine, the tracker and the validator        *)
(* ===================================================================== *)

(** The protocol machine driven over a sequence of line records, each with
    the war state and game-end outcome presented with it; [None] as soon as
    a record is illegal. *)
Fixpoint run_machine (self : ParseStateMachine)
    (inputs : list (Line * WarState * option GameEndState))
    : option ParseStateMachine :=
  match inputs with
  | [] => Some self
  | (line, war_state, game_end_state) :: rest =>
      match update_state self line war_state game_end_state with
      | (Some _, self') => run_machine self' rest
      | (None, _) => None
      end
  end.

(** The two operations on the deck tracker. *)
Inductive TrackerOp :=
| PlayCard (card : Card) (player_id : PlayerId)
| CollectTrick (player_id : PlayerId).

Definition is_PlayCard (op : TrackerOp) : bool :=
  match op with PlayCard _ _ => true | CollectTrick _ => false end.

(** One successful operation: the tracker after it, or [None] when the call
    returns an error or raises. *)
Definition apply_op (self : CardConsistencyValidator) (op : TrackerOp)
    : option CardConsistencyValidator :=
  match op with
  | PlayCard card player_id =>
      match card_played_by self card player_id with
      | Ret (None, self') => Some self'
      | _ => None
      end
  | CollectTrick player_id =>
      match cards_in_play_taken_by self player_id with
      | Ret (None, self') => Some self'
      | _ => None
      end
  end.

(** A sequence of successful operations. *)
Fixpoint run_ops (self : CardConsistencyValidator) (ops : list TrackerOp)
    : option CardConsistencyValidator :=
  match ops with
  | [] => Some self
  | op :: rest =>
      match apply_op self op with
      | Some self' => run_ops self' rest
      | None => None
      end
  end.

(** [sum(remainingCounts().values())]. *)
Definition sum_counts (d : pdict Z) : Z :=
  foldr (fun '(_, count) acc => count + acc) 0 d.

(** The loop of [validate_lines] over lines that are all accepted: the
    validator after them, or [None] when a line fails or raises. *)
Fixpoint run_lines (self : WarOutputValidator) (lines : list string)
    : option WarOutputValidator :=
  match lines with
  | [] => Some self
  | line :: rest =>
      match _validate_line self line with
      | Ret (None, self') =>
          run_lines (set_line_number (_line_number self' + 1) self') rest
      | _ => None
      end
  end.

Definition is_game_did_not_end (e : ValidationError) : bool :=
  match e with ErrGameDidNotEnd _ _ _ _ => true | _ => false end.

(* ===================================================================== *)
(** ** The classifier as the specification words it                       *)
(* ===================================================================== *)

(** The grammar rules, in the priority order of [parse_line]. *)
Inductive Rule :=
| RuleRound | RulePlayerLabel | RuleFaceUpCard | RuleFaceDownCard
| RuleRoundWinner | RuleCommencingWar | RuleWarRound | RuleContinuingWar
| RuleGameWinner | RuleDraw.

#[global] Instance Rule_eq_dec : EqDecision Rule.
Proof. solve_decision. Defined.

Definition rules_in_priority_order : list Rule :=
  [RuleRound; RulePlayerLabel; RuleFaceUpCard; RuleFaceDownCard;
   RuleRoundWinner; RuleCommencingWar; RuleWarRound; RuleContinuingWar;
   RuleGameWinner; RuleDraw].

(** The rules tried after [r]. *)
Fixpoint rules_after_in (r : Rule) (rules : list Rule) : list Rule :=
  match rules with
  | [] => []
  | r' :: rest =>
      if bool_decide (r' = r) then rest else rules_after_in r rest
  end.

Definition rules_after (r : Rule) : list Rule :=
  rules_after_in r rules_in_priority_order.

(** The line matches the pattern of the rule. *)
Definition structurally_matches (r : Rule) (s : string) : bool :=
  match r with
  | RuleRound => bool_decide (is_Some (_round_line_pattern s))
  | RulePlayerLabel => bool_decide (is_Some (_player_label_line_pattern s))
  | RuleFaceUpCard => bool_decide (is_Some (_face_up_card_line_pattern s))
  | RuleFaceDownCard => bool_decide (is_Some (_face_down_card_line_pattern s))
  | RuleRoundWinner => bool_decide (is_Some (_round_winner_pattern s))
  | RuleCommencingWar => _commencing_war_pattern s
  | RuleWarRound => bool_decide (is_Some (_war_round_line_pattern s))
  | RuleContinuingWar => _continuing_war_pattern s
  | RuleGameWinner => bool_decide (is_Some (_game_winner_line_pattern s))
  | RuleDraw => _draw_line_pattern s
  end.

(** The rule fully succeeds: the pattern matches and the captured fields
    pass the secondary validation; the record it yields. *)
Definition rule_result (self : LineParser) (r : Rule) (s : string) : option Line :=
  match r with
  | RuleRound =>
      m ← _round_line_pattern s;
      round_number ← int_of_digits m;
      Some (RoundLine round_number)
  | RulePlayerLabel =>
      m ← _player_label_line_pattern s;
      player_number ← int_of_digits m;
      if bool_decide (player_number ∈ _valid_player_numbers self)
      then Some (PlayerLabelLine player_number) else None
  | RuleFaceUpCard =>
      '(m_rank, m_suit) ← _face_up_card_line_pattern s;
      rank ← Rank_from_str m_rank;
      suit ← Suit_from_str m_suit;
      Some (FaceUpCardLine rank suit)
  | RuleFaceDownCard =>
      '(m_rank, m_suit) ← _face_down_card_line_pattern s;
      rank ← Rank_from_str m_rank;
      suit ← Suit_from_str m_suit;
      Some (FaceDownCardLine rank suit)
  | RuleRoundWinner =>
      '(m_player, m_rank, m_suit) ← _round_winner_pattern s;
      player_number ← int_of_digits m_player;
      rank ← Rank_from_str m_rank;
      suit ← Suit_from_str m_suit;
      if bool_decide (player_number ∈ _valid_player_numbers self)
      then Some (RoundWinnerLine player_number rank suit) else None
  | RuleCommencingWar =>
      if _commencing_war_pattern s then Some CommencingWarLine else None
  | RuleWarRound =>
      '(m_round, m_war) ← _war_round_line_pattern s;
      round_number ← int_of_digits m_round;
      war_number ← int_of_digits m_war;
      Some (WarRoundLine round_number war_number)
  | RuleContinuingWar =>
      if _continuing_war_pattern s then Some ContinuingWarLine else None
  | RuleGameWinner =>
      '(m_player, m_count) ← _game_winner_line_pattern s;
      player_number ← int_of_digits m_player;
      card_count ← int_of_digits m_count;
      if bool_decide (player_number ∈ _valid_player_numbers self)
         && bool_decide (0 ≤ card_count ≤ _max_cards self)
      then Some (GameWinnerLine player_number card_count) else None
  | RuleDraw =>
      if _draw_line_pattern s then Some DrawLine else None
  end.

(** Trying rules in order: the record of the first rule that fully
    succeeds. *)
Fixpoint first_success (self : LineParser) (rules : list Rule) (s : string)
    : option Line :=
  match rules with
  | [] => None
  | r :: rest =>
      match rule_result self r s with
      | Some l => Some l
      | None => first_success self rest s
      end
  end.

(** Classification by fall-through: a line break makes the line malformed;
    otherwise the trimmed line is empty, or the first rule that fully
    succeeds decides, or the line is malformed. *)
Definition classify_fallthrough (self : LineParser) (line : string) : Line :=
  if contains_newline line then MalformedLine line
  else
    let s := strip line in
    if String.eqb s "" then EmptyLine
    else default (MalformedLine s) (first_success self rules_in_priority_order s).

(* ===================================================================== *)
(** ** Transcripts used as concrete inputs                                *)
(* ===================================================================== *)

Definition card_text (c : Card) : string :=
  (Rank_value (rank c) ++ " of " ++ Suit_value (suit c))%string.

(** The six lines of a round without war in which player 1 plays [c1],
    player 2 plays [c2] and [winner] is declared with its card. *)
Definition round_text (n : Z) (c1 c2 : Card) (winner : Z) : list string :=
  [("Round " ++ pretty n)%string;
   "Player 1:"%string;
   ("- " ++ card_text c1)%string;
   "Player 2:"%string;
   ("- " ++ card_text c2)%string;
   ("Round winner: Player " ++ pretty winner ++ " ("
      ++ card_text (if decide (winner = 1) then c1 else c2) ++ ")")%string].

(** The 52 cards split into 26 pairs, the first card of each pair of
    strictly higher rank than the second. *)
Definition winning_pairs : list (Card * Card) :=
  flat_map (fun s => [(mkCard KING s, mkCard ACE s);
                      (mkCard THREE s, mkCard TWO s);
                      (mkCard FIVE s, mkCard FOUR s);
                      (mkCard SEVEN s, mkCard SIX s);
                      (mkCard NINE s, mkCard EIGHT s)]) all_suits
  ++ [(mkCard JACK CLUBS, mkCard TEN CLUBS);
      (mkCard JACK DIAMONDS, mkCard TEN DIAMONDS);
      (mkCard QUEEN CLUBS, mkCard TEN HEARTS);
      (mkCard QUEEN DIAMONDS, mkCard TEN SPADES);
      (mkCard QUEEN HEARTS, mkCard JACK HEARTS);
      (mkCard QUEEN SPADES, mkCard JACK SPADES)].

(** Rounds [n], [n+1], ... in which [winner] plays the higher card of each
    pair and wins the round. *)
Fixpoint sweep (winner : Z) (n : Z) (pairs : list (Card * Card)) : list string :=
  match pairs with
  | [] => []
  | (hi, lo) :: rest =>
      (if decide (winner = 1) then round_text n hi lo 1
       else round_text n lo hi 2) ++ sweep winner (n + 1) rest
  end.

(** Player 1 wins all 26 rounds, round 27 is announced, and the final line
    declares player 1 the winner with 7 cards. *)
Definition transcript_p1_sweep_wrong_count : list string :=
  sweep 1 1 winning_pairs
  ++ ["Round 27"%string; "Player 1 wins with 7 cards in their deck"%string].

(** Player 2 wins all 26 rounds and round 27 is announced. *)
Definition transcript_p2_sweep : list string :=
  sweep 2 1 winning_pairs ++ ["Round 27"%string].

(** A tie in round 1, then a war round in which player 1 plays the
    face-down card first. *)
Definition transcript_war_face_down_first : list string :=
  ["Round 1"; "Player 1:"; "- Ace of Spades"; "Player 2:"; "- Ace of Hearts";
   "Commencing war..."; "Round 1, War 1"; "Player 1:";
   "- Two of Hearts (face down)"; "- Three of Hearts"]%string.

(** The same with the face-up card first. *)
Definition transcript_war_face_up_first : list string :=
  ["Round 1"; "Player 1:"; "- Ace of Spades"; "Player 2:"; "- Ace of Hearts";
   "Commencing war..."; "Round 1, War 1"; "Player 1:";
   "- Two of Hearts"; "- Three of Hearts (face down)"]%string.

(* ===================================================================== *)
(** ** Predicates on states                                               *)
(* ===================================================================== *)

(** Both per-player dictionaries of the tracker have exactly the keys 1
    and 2, in that order, as [CardConsistencyValidator.default] builds
    them. *)
Definition tracks_two_players (self : CardConsistencyValidator) : Prop :=
  ∃ d1 d2 n1 n2,
    _card_group_decks self = [(1, d1); (2, d2)]
    ∧ _actual_card_counts self = [(1, n1); (2, n2)].

(** All characters of a string are in a class. *)
Fixpoint all_chars (f : ascii → bool) (s : string) : bool :=
  match s with
  | EmptyString => true
  | String c s' => f c && all_chars f s'
  end.

(** A non-empty string without line feed that [rstrip] leaves as it is. *)
Definition tidy (s : string) : Prop :=
  contains_newline s = false ∧ rstrip s = s ∧ s ≠ EmptyString.

(** A character that is neither white space nor the line feed. *)
Definition is_plain (c : ascii) : bool :=
  negb (is_space c) && negb (Ascii.eqb c newline).

(** The tracker after a sequence of operations from the standard start (the
    standard start itself when the sequence does not succeed). *)
Definition tracker_after (ops : list TrackerOp) : CardConsistencyValidator :=
  default CardConsistencyValidator_default
          (run_ops CardConsistencyValidator_default ops).

(** The validator is configured as [WarOutputValidator.default] builds it:
    the default classifier, a comparer over players 1 and 2, and a tracker
    whose dictionaries have the keys 1 and 2. *)
Definition default_configuration (self : WarOutputValidator) : Prop :=
  _parser self = LineParser_default
  ∧ _player_ids (_card_comparer self) = [1; 2]
  ∧ tracks_two_players (_card_validator self).

(** The protocol state agrees with the derived game-end outcome: a winner
    or draw state is entered with the matching outcome, derived from the
    remaining counts at a round header (no draw left) or at a war-round
    header (two draws left); before that no outcome is set. *)
Definition outcome_matches_state (self : WarOutputValidator) : Prop :=
  match validator_state self with
  | WINNER_PLAYER_1 =>
      _game_end_state self = Some PLAYER_1_WIN
      ∧ (_get_players_left_after_n_draws self 0 = [1]
         ∨ _get_players_left_after_n_draws self 2 = [1])
  | WINNER_PLAYER_2 =>
      _game_end_state self = Some PLAYER_2_WIN
      ∧ (_get_players_left_after_n_draws self 0 = [2]
         ∨ _get_players_left_after_n_draws self 2 = [2])
  | DRAW => _game_end_state self = Some GAME_DRAW
  | NO_MORE_LINES => True
  | _ => _game_end_state self = None
  end.

(** The validator after a sequence of accepted lines from the fresh
    validator (the fresh validator itself when a line is not accepted). *)
Definition validator_after (lines : list string) : WarOutputValidator :=
  default WarOutputValidator_default
          (run_lines WarOutputValidator_default lines).

(** What no line changes: the classifier, the line number, the players of
    the comparer and the players of the tracker; and the protocol state is
    left to [update_state]. *)
Definition same_setup (self self1 : WarOutputValidator) : Prop :=
  _parser self1 = _parser self
  ∧ _parse_manager self1 = _parse_manager self
  ∧ _line_number self1 = _line_number self
  ∧ _player_ids (_card_comparer self1) = _player_ids (_card_comparer self)
  ∧ (tracks_two_players (_card_validator self) →
     tracks_two_players (_card_validator self1)).

(** Two literals differ at a position that both reach. *)
Fixpoint literals_differ (p q : string) : bool :=
  match p, q with
  | String a p', String b q' => negb (Ascii.eqb a b) || literals_differ p' q'
  | _, _ => false
  end.

(** What a record of the classifier must satisfy: round and war-round
    numbers are not negative, player numbers are among the valid ones, and
    the card count of a game-winner record is within the bounds. *)
Definition well_formed_record (self : LineParser) (l : Line) : Prop :=
  match l with
  | RoundLine round_number => 0 ≤ round_number
  | WarRoundLine round_number war_round_number =>
      0 ≤ round_number ∧ 0 ≤ war_round_number
  | PlayerLabelLine player_number
  | RoundWinnerLine player_number _ _ =>
      player_number ∈ _valid_player_numbers self
  | GameWinnerLine winner card_count =>
      winner ∈ _valid_player_numbers self ∧ 0 ≤ card_count ≤ _max_cards self
  | _ => True
  end.

(** The record a protocol state is named after: the line the state
    expects. *)
Definition expected_line (state : ParseState) (l : Line) : bool :=
  match state, l with
  | REGULAR_ROUND, RoundLine _
  | ROUND_WINNER, RoundWinnerLine _ _ _
  | COMMENCING_WAR, CommencingWarLine
  | WAR_ROUND, WarRoundLine _ _
  | CONTINUING_WAR, ContinuingWarLine
  | DRAW, DrawLine => true
  | REGULAR_PLAYER_1_LABEL, PlayerLabelLine p
  | WAR_PLAYER_1_LABEL, PlayerLabelLine p => bool_decide (p = 1)
  | REGULAR_PLAYER_2_LABEL, PlayerLabelLine p
  | WAR_PLAYER_2_LABEL, PlayerLabelLine p => bool_decide (p = 2)
  | REGULAR_PLAYER_1_CARD, FaceUpCardLine _ _
  | REGULAR_PLAYER_2_CARD, FaceUpCardLine _ _
  | WAR_PLAYER_1_CARD_UP, FaceUpCardLine _ _
  | WAR_PLAYER_2_CARD_UP, FaceUpCardLine _ _ => true
  | WAR_PLAYER_1_CARD_DOWN, FaceDownCardLine _ _
  | WAR_PLAYER_2_CARD_DOWN, FaceDownCardLine _ _ => true
  | WINNER_PLAYER_1, GameWinnerLine winner _ => bool_decide (winner = 1)
  | WINNER_PLAYER_2, GameWinnerLine winner _ => bool_decide (winner = 2)
  | _, _ => false
  end.

(** The states of the closing phase: a winner, the draw, and the end. *)
Definition is_closing_state (state : ParseState) : bool :=
  match state with
  | WINNER_PLAYER_1 | WINNER_PLAYER_2 | DRAW | NO_MORE_LINES => true
  | _ => false
  end.

(** All cards of a deck. *)
Definition deck_cards (deck : CardGroupDeck) : gset Card := ⋃ deck.

(** No card is in two groups of the deck. *)
Fixpoint groups_disjoint (deck : CardGroupDeck) : Prop :=
  match deck with
  | [] => True
  | group :: rest => group ## deck_cards rest ∧ groups_disjoint rest
  end.

(** The tracker keeps the cards apart: the owner map is empty, no deck
    holds a card twice, and no deck holds a card that is in play. *)
Definition cards_kept_apart (self : CardConsistencyValidator) : Prop :=
  _owner self = ∅
  ∧ Forall (fun '(_, deck) =>
              groups_disjoint deck ∧ deck_cards deck ## _cards_in_play self)
           (_card_group_decks self).

(** [card in some group of the deck]. *)
Definition in_some_group (card : Card) (deck : CardGroupDeck) : bool :=
  existsb (fun group => bool_decide (card ∈ group)) deck.

(** [GameWinnerLine() | DrawLine()]. *)
Definition is_game_done_line (l : Line) : bool :=
  match l with
  | GameWinnerLine _ _ | DrawLine => true
  | _ => false
  end.

Definition is_RoundWinnerLine (l : Line) : bool :=
  match l with
  | RoundWinnerLine _ _ _ => true
  | _ => false
  end.

(** A result with its line number moved by [d]. *)
Definition shift_line_number (d : Z) (res : ValidationResult) : ValidationResult :=
  mkValidationResult (res_line_number res + d) (res_state res) (res_error res).

(* ===================================================================== *)
(** ** tests/test_line_parser.py: the expectations of the test suite      *)
(* ===================================================================== *)

(** The [test_cases] lists of the test functions, each input with the
    record [parse_line] is asserted to return for it ([None] in a list
    stands for the malformed record of the input). *)
Definition test_line_parser_cases : list (string * Line) :=
  [(* test_round_line *)
   ("Round 1", RoundLine 1);
   ("Round 9", RoundLine 9);
   ("Round 10", RoundLine 10);
   ("Round 99", RoundLine 99);
   ("Round 100", RoundLine 100);
   ("Round 100000", RoundLine 100000);
   ("Round #1", MalformedLine "Round #1");
   ("round 1", MalformedLine "round 1");
   ("Round 1:", MalformedLine "Round 1:");
   (* test_player_label_line *)
   ("Player 1:", PlayerLabelLine 1);
   ("Player 2:", PlayerLabelLine 2);
   ("Player 3:", MalformedLine "Player 3:");
   ("Player 1", MalformedLine "Player 1");
   ("Player #1", MalformedLine "Player #1");
   ("Player #1:", MalformedLine "Player #1:");
   ("player 1:", MalformedLine "player 1:");
   (* test_face_up_card_line *)
   ("- Ace of Clubs", FaceUpCardLine ACE CLUBS);
   ("- Two of Diamonds", FaceUpCardLine TWO DIAMONDS);
   ("- Three of Hearts", FaceUpCardLine THREE HEARTS);
   ("- Four of Spades", FaceUpCardLine FOUR SPADES);
   ("- Five of Spades", FaceUpCardLine FIVE SPADES);
   ("- Six of Spades", FaceUpCardLine SIX SPADES);
   ("- Seven of Spades", FaceUpCardLine SEVEN SPADES);
   ("- Eight of Spades", FaceUpCardLine EIGHT SPADES);
   ("- Nine of Spades", FaceUpCardLine NINE SPADES);
   ("- Ten of Spades", FaceUpCardLine TEN SPADES);
   ("- Jack of Spades", FaceUpCardLine JACK SPADES);
   ("- Queen of Spades", FaceUpCardLine QUEEN SPADES);
   ("- King of Spades", FaceUpCardLine KING SPADES);
   ("King of Spades", MalformedLine "King of Spades");
   ("- king of clubs", MalformedLine "- king of clubs");
   ("- King Clubs", MalformedLine "- King Clubs");
   ("- 8 of Clubs", MalformedLine "- 8 of Clubs");
   ("- Ace of Heart", MalformedLine "- Ace of Heart");
   ("- Ace of Diamond", MalformedLine "- Ace of Diamond");
   ("- Ace of Spade", MalformedLine "- Ace of Spade");
   ("- Ace of Club", MalformedLine "- Ace of Club");
   (* test_face_down_card_line *)
   ("- Ace of Clubs (face down)", FaceDownCardLine ACE CLUBS);
   ("- Two of Diamonds (face down)", FaceDownCardLine TWO DIAMONDS);
   ("- Three of Hearts (face down)", FaceDownCardLine THREE HEARTS);
   ("- Four of Spades (face down)", FaceDownCardLine FOUR SPADES);
   ("- Five of Spades (face down)", FaceDownCardLine FIVE SPADES);
   ("- Six of Spades (face down)", FaceDownCardLine SIX SPADES);
   ("- Seven of Spades (face down)", FaceDownCardLine SEVEN SPADES);
   ("- Eight of Spades (face down)", FaceDownCardLine EIGHT SPADES);
   ("- Nine of Spades (face down)", FaceDownCardLine NINE SPADES);
   ("- Ten of Spades (face down)", FaceDownCardLine TEN SPADES);
   ("- Jack of Spades (face down)", FaceDownCardLine JACK SPADES);
   ("- Queen of Spades (face down)", FaceDownCardLine QUEEN SPADES);
   ("- King of Spades (face down)", FaceDownCardLine KING SPADES);
   ("King of Spades (face down)", MalformedLine "King of Spades (face down)");
   ("- king of clubs (face down)", MalformedLine "- king of clubs (face down)");
   ("- King Clubs (face down)", MalformedLine "- King Clubs (face down)");
   ("- 8 of Clubs (face down)", MalformedLine "- 8 of Clubs (face down)");
   ("- Ace of Heart (face down)", MalformedLine "- Ace of Heart (face down)");
   ("- Ace of Diamond (face down)", MalformedLine "- Ace of Diamond (face down)");
   ("- Ace of Spade (face down)", MalformedLine "- Ace of Spade (face down)");
   ("- Ace of Club (face down)", MalformedLine "- Ace of Club (face down)");
   (* test_round_winner_line *)
   ("Round winner: Player 1 (Ace of Clubs)", RoundWinnerLine 1 ACE CLUBS);
   ("Round winner: Player 1 (Two of Diamonds)", RoundWinnerLine 1 TWO DIAMONDS);
   ("Round winner: Player 1 (Three of Hearts)", RoundWinnerLine 1 THREE HEARTS);
   ("Round winner: Player 1 (Four of Spades)", RoundWinnerLine 1 FOUR SPADES);
   ("Round winner: Player 1 (Five of Spades)", RoundWinnerLine 1 FIVE SPADES);
   ("Round winner: Player 1 (Six of Spades)", RoundWinnerLine 1 SIX SPADES);
   ("Round winner: Player 1 (Seven of Spades)", RoundWinnerLine 1 SEVEN SPADES);
   ("Round winner: Player 1 (Eight of Spades)", RoundWinnerLine 1 EIGHT SPADES);
   ("Round winner: Player 1 (Nine of Spades)", RoundWinnerLine 1 NINE SPADES);
   ("Round winner: Player 1 (Ten of Spades)", RoundWinnerLine 1 TEN SPADES);
   ("Round winner: Player 1 (Jack of Spades)", RoundWinnerLine 1 JACK SPADES);
   ("Round winner: Player 1 (Queen of Spades)", RoundWinnerLine 1 QUEEN SPADES);
   ("Round winner: Player 1 (King of Spades)", RoundWinnerLine 1 KING SPADES);
   ("Round winner: Player 1", MalformedLine "Round winner: Player 1");
   ("round winner: player 1", MalformedLine "round winner: player 1");
   ("round winner: player 1 (Ace of Clubs)", MalformedLine "round winner: player 1 (Ace of Clubs)");
   (* test_commencing_war_line *)
   ("Commencing war...", CommencingWarLine);
   ("commencing war...", MalformedLine "commencing war...");
   ("Commencing war", MalformedLine "Commencing war");
   (* test_war_round_line *)
   ("Round 1, War 1", WarRoundLine 1 1);
   ("Round 1, War 9", WarRoundLine 1 9);
   ("Round 1, War 10", WarRoundLine 1 10);
   ("Round 2, War 99", WarRoundLine 2 99);
   ("Round 10, War 100", WarRoundLine 10 100);
   ("Round 100000, War 200000", WarRoundLine 100000 200000);
   ("Round 1, War 300000", WarRoundLine 1 300000);
   ("Round #1, War #1", MalformedLine "Round #1, War #1");
   ("round 1, war 1", MalformedLine "round 1, war 1");
   ("Round 1, War 1:", MalformedLine "Round 1, War 1:");
   ("Round 1 War 1", MalformedLine "Round 1 War 1");
   (* test_continuing_war_line *)
   ("Continuing war...", ContinuingWarLine);
   ("continuing war...", MalformedLine "continuing war...");
   ("Continuing war", MalformedLine "Continuing war");
   (* test_game_winner *)
   ("Player 1 wins with 0 cards in their deck", GameWinnerLine 1 0);
   ("Player 1 wins with 1 cards in their deck", GameWinnerLine 1 1);
   ("Player 1 wins with 2 cards in their deck", GameWinnerLine 1 2);
   ("Player 1 wins with 10 cards in their deck", GameWinnerLine 1 10);
   ("Player 1 wins with 52 cards in their deck", GameWinnerLine 1 52);
   ("Player 2 wins with 0 cards in their deck", GameWinnerLine 2 0);
   ("Player 2 wins with 1 cards in their deck", GameWinnerLine 2 1);
   ("Player 2 wins with 2 cards in their deck", GameWinnerLine 2 2);
   ("Player 2 wins with 10 cards in their deck", GameWinnerLine 2 10);
   ("Player 2 wins with 52 cards in their deck", GameWinnerLine 2 52);
   ("player 1 wins with 52 cards in their deck", MalformedLine "player 1 wins with 52 cards in their deck");
   ("player 2 wins with 52 cards in their deck", MalformedLine "player 2 wins with 52 cards in their deck");
   ("Player 3 wins with 52 cards in their deck", MalformedLine "Player 3 wins with 52 cards in their deck");
   (* test_draw_line *)
   ("The game ended in a draw", DrawLine);
   ("the game ended in a draw", MalformedLine "the game ended in a draw");
   ("The game ended in a draw...", MalformedLine "The game ended in a draw...");
   ("The game ended with a draw", MalformedLine "The game ended with a draw");
   (* test_empty_line *)
   ("", EmptyLine);
   (" ", EmptyLine);
   ("          ", EmptyLine)]%string.

(* ===================================================================== *)
(** ** ui.py: the lines of the page                                       *)
(* ===================================================================== *)

(** [input_elem.value.split('\n')] in [HtmlView.handle_click]: the pieces
    of the text between its line feeds, empty pieces included. *)
Fixpoint split_newline (value : string) : list string :=
  match value with
  | EmptyString => [EmptyString]
  | String c rest =>
      if Ascii.eqb c newline then EmptyString :: split_newline rest
      else
        match split_newline rest with
        | [] => [String c EmptyString]
        | piece :: pieces => String c piece :: pieces
        end
  end.

(** [WarOutputValidator.parse_line] and [WarOutputValidator.parse_lines],
    which [HtmlView.handle_click] calls on those pieces. *)
Definition WarOutputValidator_parse_line (self : WarOutputValidator)
    (line : string) : Line :=
  parse_line (_parser self) line.

Definition parse_lines (self : WarOutputValidator) (lines : list string)
    : list Line :=
  List.map (WarOutputValidator_parse_line self) lines.

(* ===================================================================== *)
(** * Theorems                                                            *)
(* ===================================================================== *)

(* --------------------------------------------------------------------- *)
(** ** The protocol machine                                               *)
(* --------------------------------------------------------------------- *)

(** An empty line record never moves the machine. *)
Lemma next_state_empty state war_state game_end_state :
  next_state state EmptyLine war_state game_end_state = Some state.
Proof. reflexivity. Qed.

(** No transition leaves [NO_MORE_LINES] on a record that is not empty. *)
Lemma next_state_no_more_lines line war_state game_end_state :
  is_EmptyLine line = false →
  next_state NO_MORE_LINES line war_state game_end_state = None.
Proof.
  intros Hne. unfold next_state. rewrite Hne.
  destruct game_end_state as [g|]; reflexivity.
Qed.

(** The only record accepted while a war face-up card is awaited. *)
Lemma next_state_war_card_up_inv state line war_state game_end_state next :
  state = WAR_PLAYER_1_CARD_UP ∨ state = WAR_PLAYER_2_CARD_UP →
  is_EmptyLine line = false →
  next_state state line war_state game_end_state = Some next →
  (∃ r s, line = FaceUpCardLine r s)
  ∧ war_state = WAR_ONGOING ∧ game_end_state = None
  ∧ next = match state with
           | WAR_PLAYER_1_CARD_UP => WAR_PLAYER_1_CARD_DOWN
           | _ => WAR_PLAYER_2_CARD_DOWN
           end.
Proof.
  intros [-> | ->] Hne H; unfold next_state in H; rewrite Hne in H;
    destruct game_end_state as [g|]; destruct line; simpl in H;
    try discriminate; destruct war_state; simpl in H;
    try discriminate; injection H as <-; eauto 10.
Qed.

(** The only record accepted while a war face-down card is awaited. *)
Lemma next_state_war_card_down_inv state line war_state game_end_state next :
  state = WAR_PLAYER_1_CARD_DOWN ∨ state = WAR_PLAYER_2_CARD_DOWN →
  is_EmptyLine line = false →
  next_state state line war_state game_end_state = Some next →
  (∃ r s, line = FaceDownCardLine r s) ∧ game_end_state = None.
Proof.
  intros [-> | ->] Hne H; unfold next_state in H; rewrite Hne in H;
    destruct game_end_state as [g|]; destruct line; simpl in H;
    try discriminate; eauto.
Qed.

(** The label of the right player is the only record accepted at a war
    label state. *)
Lemma next_state_war_label_inv state p war_state game_end_state next :
  (state = WAR_PLAYER_1_LABEL ∧ p = 1) ∨ (state = WAR_PLAYER_2_LABEL ∧ p = 2) →
  next_state state (PlayerLabelLine p) war_state game_end_state = Some next →
  next = match state with
         | WAR_PLAYER_1_LABEL => WAR_PLAYER_1_CARD_UP
         | _ => WAR_PLAYER_2_CARD_UP
         end.
Proof.
  intros [[-> ->] | [-> ->]] H; unfold next_state in H; simpl in H;
    destruct game_end_state as [g|]; simpl in H; try discriminate;
    destruct war_state; simpl in H; try discriminate;
    injection H as <-; reflexivity.
Qed.

(** C3, as stated, fails: after the war label of player 1 a face-down card
    line followed by a face-up card line is rejected, by the machine alone
    and in a full transcript (the face-down line is line 9). *)
Lemma war_face_down_first_rejected :
  run_machine (mkParseStateMachine WAR_PLAYER_1_LABEL)
    [(PlayerLabelLine 1, WAR_ONGOING, None);
     (FaceDownCardLine TWO HEARTS, WAR_ONGOING, None);
     (FaceUpCardLine THREE HEARTS, WAR_ONGOING, None)] = None
  ∧ validate transcript_war_face_down_first
    = Ret (mkValidationResult 9 WAR_PLAYER_1_CARD_UP
             (Some (ErrUnexpectedLine (FaceDownCardLine TWO HEARTS)
                      WAR_PLAYER_1_CARD_UP WAR_ONGOING None [(1, 24); (2, 25)])))
  ∧ run_machine (mkParseStateMachine WAR_PLAYER_1_LABEL)
      [(PlayerLabelLine 1, WAR_ONGOING, None);
       (FaceUpCardLine TWO HEARTS, WAR_ONGOING, None);
       (FaceDownCardLine THREE HEARTS, WAR_ONGOING, None)]
    = Some (mkParseStateMachine WAR_PLAYER_2_LABEL).
Proof. repeat split; vm_compute; reflexivity. Qed.

(** C3, amended: in the war sub-pipeline each player's label is followed by
    that player's face-up card line and then by the face-down card line.
    Whatever war state and game-end outcome accompany the records, two
    non-empty records accepted after the label are a face-up card and then
    a face-down card; and that order is accepted during an ongoing war. *)
Theorem war_cards_face_up_then_face_down
    (state : ParseState) (p : Z) (l1 l2 : Line)
    (w0 w1 w2 : WarState) (g0 g1 g2 : option GameEndState)
    (final : ParseStateMachine) :
  (state = WAR_PLAYER_1_LABEL ∧ p = 1) ∨ (state = WAR_PLAYER_2_LABEL ∧ p = 2) →
  is_EmptyLine l1 = false →
  is_EmptyLine l2 = false →
  run_machine (mkParseStateMachine state)
    [(PlayerLabelLine p, w0, g0); (l1, w1, g1); (l2, w2, g2)] = Some final →
  (∃ r s, l1 = FaceUpCardLine r s) ∧ (∃ r s, l2 = FaceDownCardLine r s)
  ∧ ∀ r1 s1 r2 s2,
      run_machine (mkParseStateMachine state)
        [(PlayerLabelLine p, WAR_ONGOING, None);
         (FaceUpCardLine r1 s1, WAR_ONGOING, None);
         (FaceDownCardLine r2 s2, WAR_ONGOING, None)]
      = Some (mkParseStateMachine
                (match state with
                 | WAR_PLAYER_1_LABEL => WAR_PLAYER_2_LABEL
                 | _ => CONTINUING_WAR
                 end)).
Proof.
  intros Hst Hne1 Hne2 Hrun.
  assert (Hlast : ∀ r1 s1 r2 s2,
      run_machine (mkParseStateMachine state)
        [(PlayerLabelLine p, WAR_ONGOING, None);
         (FaceUpCardLine r1 s1, WAR_ONGOING, None);
         (FaceDownCardLine r2 s2, WAR_ONGOING, None)]
      = Some (mkParseStateMachine
                (match state with
                 | WAR_PLAYER_1_LABEL => WAR_PLAYER_2_LABEL
                 | _ => CONTINUING_WAR
                 end))).
  { destruct Hst as [[-> ->] | [-> ->]]; reflexivity. }
  cbn [run_machine] in Hrun. unfold update_state in Hrun. cbn [_state] in Hrun.
  destruct (next_state state (PlayerLabelLine p) w0 g0) as [n0|] eqn:E0;
    [|discriminate].
  apply (next_state_war_label_inv _ _ _ _ _ Hst) in E0.
  cbn [_state] in Hrun.
  destruct (next_state n0 l1 w1 g1) as [n1|] eqn:E1; [|discriminate].
  assert (Hup : n0 = WAR_PLAYER_1_CARD_UP ∨ n0 = WAR_PLAYER_2_CARD_UP).
  { destruct Hst as [[-> _] | [-> _]]; subst n0; auto. }
  destruct (next_state_war_card_up_inv _ _ _ _ _ Hup Hne1 E1)
    as (Hl1 & _ & _ & Hn1).
  cbn [_state] in Hrun.
  destruct (next_state n1 l2 w2 g2) as [n2|] eqn:E2; [|discriminate].
  assert (Hdown : n1 = WAR_PLAYER_1_CARD_DOWN ∨ n1 = WAR_PLAYER_2_CARD_DOWN).
  { destruct Hup as [-> | ->]; subst n1; auto. }
  destruct (next_state_war_card_down_inv _ _ _ _ _ Hdown Hne2 E2) as [Hl2 _].
  auto.
Qed.

(** The theorem at player 1's war label. *)
Lemma war_cards_face_up_then_face_down_witness :
  (∃ r s, FaceUpCardLine TWO HEARTS = FaceUpCardLine r s)
  ∧ (∃ r s, FaceDownCardLine THREE HEARTS = FaceDownCardLine r s)
  ∧ ∀ r1 s1 r2 s2,
      run_machine (mkParseStateMachine WAR_PLAYER_1_LABEL)
        [(PlayerLabelLine 1, WAR_ONGOING, None);
         (FaceUpCardLine r1 s1, WAR_ONGOING, None);
         (FaceDownCardLine r2 s2, WAR_ONGOING, None)]
      = Some (mkParseStateMachine WAR_PLAYER_2_LABEL).
Proof.
  apply (war_cards_face_up_then_face_down WAR_PLAYER_1_LABEL 1
           (FaceUpCardLine TWO HEARTS) (FaceDownCardLine THREE HEARTS)
           WAR_ONGOING WAR_ONGOING WAR_ONGOING None None None
           (mkParseStateMachine WAR_PLAYER_2_LABEL)).
  - left; split; reflexivity.
  - reflexivity.
  - reflexivity.
  - reflexivity.
Defined.

(* --------------------------------------------------------------------- *)
(** ** The trick comparer                                                 *)
(* --------------------------------------------------------------------- *)

(** The rank order is the enumeration order of [Rank], Ace lowest and King
    highest. *)
Lemma rank_index_enumeration :
  List.map rank_index all_ranks = [0; 1; 2; 3; 4; 5; 6; 7; 8; 9; 10; 11; 12].
Proof. reflexivity. Qed.

Lemma rank_index_inj r1 r2 : rank_index r1 = rank_index r2 → r1 = r2.
Proof. destruct r1, r2; simpl; intros H; try reflexivity; discriminate. Qed.

(** The winners of the two-player comparer, case by case. *)
Lemma determine_winners_two_cards played c1 c2 :
  played !! 1 = Some c1 →
  played !! 2 = Some c2 →
  determine_winners (mkCardComparer [1; 2] played)
  = inr (if rank_index (rank c2) >? rank_index (rank c1) then [2]
         else if rank_index (rank c2) >=? rank_index (rank c1) then [1; 2]
         else [1]).
Proof.
  intros H1 H2. unfold determine_winners. cbn [_played_cards _player_ids].
  cbn [determine_winners_loop]. rewrite H1, H2. cbn [determine_winners_loop].
  destruct (Z.gtb_spec (rank_index (rank c2)) (rank_index (rank c1)));
    destruct (Z.geb_spec (rank_index (rank c2)) (rank_index (rank c1)));
    (reflexivity || lia).
Qed.

(** A comparer over players 1 and 2 that does not fail names player 1,
    player 2 or both. *)
Lemma determine_winners_two_players_result self result :
  _player_ids self = [1; 2] →
  determine_winners self = inr result →
  result = [1] ∨ result = [2] ∨ result = [1; 2].
Proof.
  destruct self as [ids played]. cbn [_player_ids]. intros -> H.
  destruct (played !! 1) as [c1|] eqn:E1.
  - destruct (played !! 2) as [c2|] eqn:E2.
    + rewrite (determine_winners_two_cards _ _ _ E1 E2) in H.
      injection H as <-. repeat case_match; auto.
    + unfold determine_winners in H. cbn in H. rewrite E1 in H. cbn in H.
      rewrite E2 in H. discriminate.
  - unfold determine_winners in H. cbn in H. rewrite E1 in H. discriminate.
Qed.

(** C8: the two-player comparer fails exactly when player 1 or player 2 has
    no face-up card recorded; otherwise its result holds exactly the players
    whose face-up card has the maximal rank in the order Ace < Two < ... <
    King, whatever the suits: one player when the ranks differ, both when
    they are equal. *)
Theorem determine_winners_two_player_comparer (played : gmap PlayerId Card) :
  match played !! 1, played !! 2 with
  | Some c1, Some c2 =>
      ∃ winners,
        determine_winners (mkCardComparer [1; 2] played) = inr winners
        ∧ (∀ p, p ∈ winners ↔
                ∃ c, (p = 1 ∨ p = 2) ∧ played !! p = Some c
                     ∧ rank_index (rank c1) ≤ rank_index (rank c)
                     ∧ rank_index (rank c2) ≤ rank_index (rank c))
        ∧ (rank_index (rank c2) < rank_index (rank c1) → winners = [1])
        ∧ (rank_index (rank c1) < rank_index (rank c2) → winners = [2])
        ∧ (rank c1 = rank c2 → winners = [1; 2])
  | _, _ =>
      ∃ p, (p = 1 ∨ p = 2) ∧ played !! p = None
           ∧ determine_winners (mkCardComparer [1; 2] played)
             = inl (ErrNoFaceUpCard p)
  end.
Proof.
  destruct (played !! 1) as [c1|] eqn:E1.
  - destruct (played !! 2) as [c2|] eqn:E2.
    + eexists. split; [apply (determine_winners_two_cards _ _ _ E1 E2)|].
      destruct (Z.gtb_spec (rank_index (rank c2)) (rank_index (rank c1))) as [Hgt|Hle].
      * repeat split; try (intros; lia).
        -- intros Hp. apply list_elem_of_singleton in Hp as ->.
           exists c2. repeat split; auto; lia.
        -- intros (c & [-> | ->] & Hc & Ha & Hb).
           ++ rewrite E1 in Hc. injection Hc as <-. lia.
           ++ apply list_elem_of_singleton. reflexivity.
        -- intros Heq. rewrite Heq in Hgt. lia.
      * destruct (Z.geb_spec (rank_index (rank c2)) (rank_index (rank c1))) as [Hge|Hlt].
        -- assert (Heq : rank_index (rank c1) = rank_index (rank c2)) by lia.
           repeat split; try (intros; lia); try reflexivity.
           ++ intros Hp.
              assert (Hp' : p = 1 ∨ p = 2).
              { apply elem_of_cons in Hp as [-> | Hp]; [auto|].
                apply list_elem_of_singleton in Hp as ->. auto. }
              destruct Hp' as [-> | ->]; [exists c1 | exists c2];
                repeat split; auto; lia.
           ++ intros (c & [-> | ->] & _); [left | right; left].
        -- repeat split; try (intros; lia).
           ++ intros Hp. apply list_elem_of_singleton in Hp as ->.
              exists c1. repeat split; auto; lia.
           ++ intros (c & [-> | ->] & Hc & Ha & Hb).
              ** apply list_elem_of_singleton. reflexivity.
              ** rewrite E2 in Hc. injection Hc as <-. lia.
           ++ intros Heq. rewrite Heq in Hlt. lia.
    + exists 2. split; [auto|]. split; [exact E2|].
      unfold determine_winners. cbn. rewrite E1. cbn. rewrite E2. reflexivity.
  - exists 1. split; [auto|]. split; [exact E1|].
    unfold determine_winners. cbn. rewrite E1. reflexivity.
Qed.

(** The comparer on a strict winner and on a tie. *)
Example determine_winners_examples :
  determine_winners
    (mkCardComparer [1; 2]
       (<[1 := mkCard ACE SPADES]> (<[2 := mkCard KING CLUBS]> ∅))) = inr [2]
  ∧ determine_winners
      (mkCardComparer [1; 2]
         (<[1 := mkCard TEN SPADES]> (<[2 := mkCard TEN CLUBS]> ∅))) = inr [1; 2]
  ∧ determine_winners
      (mkCardComparer [1; 2] (<[1 := mkCard TEN SPADES]> ∅))
    = inl (ErrNoFaceUpCard 2).
Proof. repeat split; vm_compute; reflexivity. Qed.

(* --------------------------------------------------------------------- *)
(** ** The deck tracker                                                   *)
(* --------------------------------------------------------------------- *)

Lemma sum_counts_set k v v' (d : pdict Z) :
  pdict_get k d = Some v →
  sum_counts (pdict_set k v' d) = sum_counts d - v + v'.
Proof.
  induction d as [|[k0 v0] d IH]; simpl; [discriminate|].
  destruct (decide (k0 = k)) as [->|Hne]; simpl.
  - intros H. injection H as ->. lia.
  - intros H. rewrite (IH H). lia.
Qed.

Lemma pdict_item_Ret {V} k (d : pdict V) v :
  (pdict_item k d = Ret v) ↔ (pdict_get k d = Some v).
Proof.
  unfold pdict_item. destruct (pdict_get k d); split; intros H;
    try discriminate; congruence.
Qed.

(** What a successful [card_played_by] did. *)
Lemma card_played_by_success self card player_id self' :
  card_played_by self card player_id = Ret (None, self') →
  (card ∉ _cards_in_play self)
  ∧ (∃ deck, pdict_get player_id (_card_group_decks self) = Some deck
             ∧ can_draw card deck = true)
  ∧ ∃ count,
      pdict_get player_id (_actual_card_counts self) = Some count
      ∧ self' = {| _owner := delete card (_owner self);
                   _cards_in_play := {[card]} ∪ _cards_in_play self;
                   _card_group_decks :=
                     List.map (fun '(p, deck) => (p, remove_if_present card deck))
                              (_card_group_decks self);
                   _actual_card_counts :=
                     pdict_set player_id (count - 1) (_actual_card_counts self) |}.
Proof.
  unfold card_played_by, _validate_played_card_rules, _ensure_card_in_deck,
    _ensure_card_not_in_play, pdict_item.
  destruct (_ensure_card_not_duplicated self card player_id); [discriminate|].
  destruct (pdict_get player_id (_card_group_decks self)) as [deck|];
    [|discriminate].
  cbn. destruct (can_draw card deck) eqn:Hdraw; [|discriminate].
  cbn. case_bool_decide as Hin; [discriminate|]. cbn.
  destruct (pdict_get player_id (_actual_card_counts self)) as [count|];
    [|discriminate].
  cbn. intros H. injection H as <-. split; [exact Hin|]. split; eauto.
Qed.

(** A card in play cannot be played: the call returns an error or raises,
    and for a tracked player it returns an error and leaves the tracker as
    it was. *)
Lemma card_played_by_in_play self card player_id :
  card ∈ _cards_in_play self →
  (∀ self', card_played_by self card player_id ≠ Ret (None, self'))
  ∧ (is_Some (pdict_get player_id (_card_group_decks self)) →
     ∃ err, card_played_by self card player_id = Ret (Some err, self)).
Proof.
  intros Hin. split.
  - intros self' H. apply card_played_by_success in H as [Hnin _]. auto.
  - intros [deck Hdeck].
    unfold card_played_by, _validate_played_card_rules, _ensure_card_in_deck,
      _ensure_card_not_in_play, pdict_item.
    destruct (_ensure_card_not_duplicated self card player_id); [cbn; eauto|].
    rewrite Hdeck. cbn. rewrite bool_decide_eq_true_2 by exact Hin.
    destruct (can_draw card deck); cbn; eauto.
Qed.

(** The check of [cards_in_play_taken_by] on the cards in play never
    fails: every card it visits is in play. *)
Lemma validate_cards_added_rules_in_play self player_id :
  _validate_cards_added_rules self (_cards_in_play self) player_id = None.
Proof.
  unfold _validate_cards_added_rules.
  assert (H : Forall (fun c => c ∈ _cards_in_play self)
                     (elements (_cards_in_play self))).
  { apply Forall_forall. intros c Hc. apply elem_of_elements. exact Hc. }
  induction H as [|c l Hc _ IH]; [reflexivity|].
  cbn. unfold _ensure_card_in_play at 1.
  rewrite (bool_decide_eq_true_2 _ Hc), andb_false_r. exact IH.
Qed.

(** [cards_in_play_taken_by] never returns an error, in any tracker. *)
Lemma cards_in_play_taken_by_no_error self player_id err self' :
  cards_in_play_taken_by self player_id ≠ Ret (Some err, self').
Proof.
  unfold cards_in_play_taken_by, _cards_added_to_deck_bottom.
  rewrite validate_cards_added_rules_in_play.
  destruct (pdict_item player_id (_card_group_decks self)); cbn; [|discriminate].
  destruct (pdict_item player_id (_actual_card_counts self)); cbn; discriminate.
Qed.

(** What [cards_in_play_taken_by] does for a player both dictionaries
    know. *)
Lemma cards_in_play_taken_by_tracked self player_id deck count :
  pdict_get player_id (_card_group_decks self) = Some deck →
  pdict_get player_id (_actual_card_counts self) = Some count →
  cards_in_play_taken_by self player_id
  = Ret (None,
         {| _owner := _owner self;
            _cards_in_play := ∅;
            _card_group_decks :=
              pdict_set player_id (deck ++ [_cards_in_play self])
                        (_card_group_decks self);
            _actual_card_counts :=
              pdict_set player_id (count + Z.of_nat (size (_cards_in_play self)))
                        (_actual_card_counts self) |}).
Proof.
  intros Hd Hc.
  unfold cards_in_play_taken_by, _cards_added_to_deck_bottom, pdict_item.
  rewrite validate_cards_added_rules_in_play, Hd. cbn. rewrite Hc. reflexivity.
Qed.

Lemma default_tracks_two_players :
  tracks_two_players CardConsistencyValidator_default.
Proof. do 4 eexists. split; reflexivity. Qed.

Lemma tracks_two_players_get self player_id :
  tracks_two_players self →
  player_id = 1 ∨ player_id = 2 →
  is_Some (pdict_get player_id (_card_group_decks self))
  ∧ is_Some (pdict_get player_id (_actual_card_counts self)).
Proof.
  intros (d1 & d2 & n1 & n2 & -> & ->) [-> | ->]; cbn; eauto.
Qed.

Lemma pdict_set_two {V} player_id (v v1 v2 : V) :
  player_id = 1 ∨ player_id = 2 →
  ∃ w1 w2, pdict_set player_id v [(1, v1); (2, v2)] = [(1, w1); (2, w2)].
Proof. intros [-> | ->]; cbn; eauto. Qed.

Lemma pdict_get_two {V} player_id (v v1 v2 : V) :
  pdict_get player_id [(1, v1); (2, v2)] = Some v →
  player_id = 1 ∨ player_id = 2.
Proof.
  cbn. destruct (decide (1 = player_id)); [auto|].
  destruct (decide (2 = player_id)); [auto|discriminate].
Qed.

(** A successful operation keeps the two dictionaries on players 1 and 2,
    and is an operation of player 1 or 2. *)
Lemma apply_op_tracks_two_players self op self' :
  tracks_two_players self →
  apply_op self op = Some self' →
  tracks_two_players self'.
Proof.
  intros Ht Hop. destruct op as [card p | p]; cbn in Hop.
  - destruct (card_played_by self card p) as [[[e|] s]|] eqn:E; try discriminate.
    injection Hop as ->.
    apply card_played_by_success in E as (_ & _ & count & Hc & ->).
    destruct Ht as (d1 & d2 & n1 & n2 & Hd & Hn). rewrite Hn in Hc.
    apply pdict_get_two in Hc.
    destruct (pdict_set_two p (count - 1) n1 n2 Hc) as (w1 & w2 & Hw).
    exists (remove_if_present card d1), (remove_if_present card d2), w1, w2.
    cbn. rewrite Hd, Hn. split; [reflexivity | exact Hw].
  - destruct (cards_in_play_taken_by self p) as [[[e|] s]|] eqn:E; try discriminate.
    injection Hop as ->.
    destruct Ht as (d1 & d2 & n1 & n2 & Hd & Hn).
    unfold cards_in_play_taken_by, _cards_added_to_deck_bottom, pdict_item in E.
    rewrite validate_cards_added_rules_in_play in E.
    destruct (pdict_get p (_card_group_decks self)) as [deck|] eqn:Ed;
      [|discriminate].
    cbn in E.
    destruct (pdict_get p (_actual_card_counts self)) as [count|] eqn:Ec;
      [|discriminate].
    cbn in E. injection E as <-. cbn.
    rewrite Hd in Ed. apply pdict_get_two in Ed.
    destruct (pdict_set_two p (deck ++ [_cards_in_play self]) d1 d2 Ed)
      as (w1 & w2 & Hw1).
    destruct (pdict_set_two p (count + Z.of_nat (size (_cards_in_play self)))
                n1 n2 Ed) as (w3 & w4 & Hw2).
    exists w1, w2, w3, w4. rewrite Hd, Hn. unfold add_set_to_bottom. auto.
Qed.

Lemma run_ops_tracks_two_players ops self self' :
  tracks_two_players self →
  run_ops self ops = Some self' →
  tracks_two_players self'.
Proof.
  revert self. induction ops as [|op ops IH]; intros self Ht H; cbn in H.
  - injection H as <-. exact Ht.
  - destruct (apply_op self op) as [s|] eqn:E; [|discriminate].
    eapply IH; [|exact H]. eapply apply_op_tracks_two_players; eauto.
Qed.

(** [d[k] = v] and [d.get]: the assigned key reads the new value, every
    other key reads what it read before. *)
Lemma pdict_get_set {V} (k : PlayerId) (v : V) (d : pdict V) :
  pdict_get k (pdict_set k v d) = Some v.
Proof.
  induction d as [|[k' v'] d IH]; cbn [pdict_set pdict_get].
  - destruct (decide (k = k)); [reflexivity|congruence].
  - destruct (decide (k' = k)) as [->|Hne]; cbn [pdict_get].
    + destruct (decide (k = k)); [reflexivity|congruence].
    + destruct (decide (k' = k)); [congruence|exact IH].
Qed.

Lemma pdict_get_set_other {V} (k other : PlayerId) (v : V) (d : pdict V) :
  other ≠ k →
  pdict_get other (pdict_set k v d) = pdict_get other d.
Proof.
  intros Hne. induction d as [|[k' v'] d IH]; cbn [pdict_set pdict_get].
  - destruct (decide (k = other)); [congruence|reflexivity].
  - destruct (decide (k' = k)) as [->|Hk]; cbn [pdict_get].
    + destruct (decide (k = other)); [congruence|reflexivity].
    + destruct (decide (k' = other)); [reflexivity|exact IH].
Qed.

(** C4: in every tracker reached from the standard start through
    successful operations, [cards_in_play_taken_by] returns no error for any
    player id; for player 1 or 2 it returns normally, and in the tracker
    after the call that player's deck is the deck before with the cards in
    play as one new last group, that player's remaining count is the count
    before plus the number of cards in play, the set of cards in play is
    empty, and the deck and the count of the other player, like the owner
    map, are as before. *)
Theorem cards_in_play_taken_by_reachable
    (ops : list TrackerOp) (self : CardConsistencyValidator)
    (player_id : PlayerId) :
  run_ops CardConsistencyValidator_default ops = Some self →
  (∀ any_id err self',
     cards_in_play_taken_by self any_id ≠ Ret (Some err, self'))
  ∧ (player_id = 1 ∨ player_id = 2 →
     ∃ deck count self',
       pdict_get player_id (_card_group_decks self) = Some deck
       ∧ pdict_get player_id (_actual_card_counts self) = Some count
       ∧ cards_in_play_taken_by self player_id = Ret (None, self')
       ∧ pdict_get player_id (_card_group_decks self')
         = Some (deck ++ [_cards_in_play self])
       ∧ pdict_get player_id (get_player_cards_left self')
         = Some (count + Z.of_nat (size (_cards_in_play self)))
       ∧ _cards_in_play self' = ∅
       ∧ _owner self' = _owner self
       ∧ ∀ other,
           other ≠ player_id →
           pdict_get other (_card_group_decks self')
           = pdict_get other (_card_group_decks self)
           ∧ pdict_get other (get_player_cards_left self')
             = pdict_get other (get_player_cards_left self)).
Proof.
  intros Hrun. split.
  - intros any_id err self'. apply cards_in_play_taken_by_no_error.
  - intros Hp.
    pose proof (run_ops_tracks_two_players _ _ _ default_tracks_two_players Hrun)
      as Ht.
    destruct (tracks_two_players_get self player_id Ht Hp)
      as [[deck Hd] [count Hc]].
    eexists deck, count, _. split; [exact Hd|]. split; [exact Hc|].
    split; [exact (cards_in_play_taken_by_tracked _ _ _ _ Hd Hc)|].
    unfold get_player_cards_left.
    cbn [_card_group_decks _actual_card_counts _cards_in_play _owner].
    split; [apply pdict_get_set|]. split; [apply pdict_get_set|].
    split; [reflexivity|]. split; [reflexivity|].
    intros other Hne. split; apply pdict_get_set_other, Hne.
Qed.

(** A run that succeeds ends in [tracker_after]. *)
Lemma run_ops_tracker_after ops :
  bool_decide (is_Some (run_ops CardConsistencyValidator_default ops)) = true →
  run_ops CardConsistencyValidator_default ops = Some (tracker_after ops).
Proof.
  intros H. apply bool_decide_eq_true in H as [self H].
  unfold tracker_after. rewrite H. reflexivity.
Qed.

(** The theorem after one card played by each player, for player 2. *)
Lemma cards_in_play_taken_by_reachable_witness :
  let self :=
    tracker_after [PlayCard (mkCard ACE SPADES) 1; PlayCard (mkCard KING SPADES) 2] in
  (∀ any_id err self',
     cards_in_play_taken_by self any_id ≠ Ret (Some err, self'))
  ∧ (2 = 1 ∨ 2 = 2 →
     ∃ deck count self',
       pdict_get 2 (_card_group_decks self) = Some deck
       ∧ pdict_get 2 (_actual_card_counts self) = Some count
       ∧ cards_in_play_taken_by self 2 = Ret (None, self')
       ∧ pdict_get 2 (_card_group_decks self')
         = Some (deck ++ [_cards_in_play self])
       ∧ pdict_get 2 (get_player_cards_left self')
         = Some (count + Z.of_nat (size (_cards_in_play self)))
       ∧ _cards_in_play self' = ∅
       ∧ _owner self' = _owner self
       ∧ ∀ other,
           other ≠ 2 →
           pdict_get other (_card_group_decks self')
           = pdict_get other (_card_group_decks self)
           ∧ pdict_get other (get_player_cards_left self')
             = pdict_get other (get_player_cards_left self)).
Proof.
  apply (cards_in_play_taken_by_reachable
           [PlayCard (mkCard ACE SPADES) 1; PlayCard (mkCard KING SPADES) 2]).
  apply run_ops_tracker_after. vm_compute. reflexivity.
Defined.

(** The same collection computed: player 2 then has 27 cards left, player 1
    has 25, no card is in play, and the deck of player 2 has a second group,
    made of the two cards played. *)
Example cards_in_play_taken_by_example :
  let self :=
    tracker_after [PlayCard (mkCard ACE SPADES) 1; PlayCard (mkCard KING SPADES) 2;
                   CollectTrick 2] in
  get_player_cards_left self = [(1, 25); (2, 27)]
  ∧ size (_cards_in_play self) = 0%nat
  ∧ List.map (λ '(p, deck), (p, List.map size deck)) (_card_group_decks self)
    = [(1, [50%nat]); (2, [50%nat; 2%nat])]
  ∧ (∀ deck,
       pdict_get 2 (_card_group_decks self) = Some deck →
       ∃ group, last deck = Some group
                ∧ mkCard ACE SPADES ∈ group ∧ mkCard KING SPADES ∈ group).
Proof.
  intros self. split; [vm_compute; reflexivity|].
  split; [vm_compute; reflexivity|]. split; [vm_compute; reflexivity|].
  intros deck Hd.
  assert (Hgroup : bool_decide
            (match pdict_get 2 (_card_group_decks self) with
             | Some deck =>
                 match last deck with
                 | Some group =>
                     mkCard ACE SPADES ∈ group ∧ mkCard KING SPADES ∈ group
                 | None => False
                 end
             | None => False
             end) = true) by (vm_compute; reflexivity).
  apply bool_decide_eq_true in Hgroup. rewrite Hd in Hgroup.
  destruct (last deck) as [group|]; [eauto|contradiction].
Qed.

(** One successful operation keeps the total of the counts and the cards in
    play. *)
Lemma apply_op_total self op self' :
  apply_op self op = Some self' →
  sum_counts (get_player_cards_left self') + Z.of_nat (size (_cards_in_play self'))
  = sum_counts (get_player_cards_left self) + Z.of_nat (size (_cards_in_play self)).
Proof.
  intros Hop. destruct op as [card p | p]; cbn in Hop.
  - destruct (card_played_by self card p) as [[[e|] s]|] eqn:E; try discriminate.
    injection Hop as ->.
    apply card_played_by_success in E as (Hnin & _ & count & Hc & ->).
    unfold get_player_cards_left. cbn.
    rewrite (sum_counts_set _ _ _ _ Hc).
    rewrite size_union by set_solver. rewrite size_singleton. lia.
  - destruct (cards_in_play_taken_by self p) as [[[e|] s]|] eqn:E; try discriminate.
    injection Hop as ->.
    unfold cards_in_play_taken_by, _cards_added_to_deck_bottom, pdict_item in E.
    rewrite validate_cards_added_rules_in_play in E.
    destruct (pdict_get p (_card_group_decks self)) as [deck|]; [|discriminate].
    cbn in E.
    destruct (pdict_get p (_actual_card_counts self)) as [count|] eqn:Ec;
      [|discriminate].
    cbn in E. injection E as <-. unfold get_player_cards_left. cbn.
    rewrite (sum_counts_set _ _ _ _ Ec). rewrite size_empty. lia.
Qed.

(** C5: in every tracker reached from the standard start through
    successful [card_played_by] and [cards_in_play_taken_by] calls, the
    remaining counts of the players and the number of cards in play add up
    to 52. *)
Theorem deck_total_invariant
    (ops : list TrackerOp) (self : CardConsistencyValidator) :
  run_ops CardConsistencyValidator_default ops = Some self →
  sum_counts (get_player_cards_left self) + Z.of_nat (size (_cards_in_play self))
  = 52.
Proof.
  assert (Hgen : ∀ ops s0 s1, run_ops s0 ops = Some s1 →
    sum_counts (get_player_cards_left s1) + Z.of_nat (size (_cards_in_play s1))
    = sum_counts (get_player_cards_left s0) + Z.of_nat (size (_cards_in_play s0))).
  { clear. induction ops as [|op ops' IH]; intros s0 s1 H; cbn in H.
    - injection H as <-. reflexivity.
    - destruct (apply_op s0 op) as [s|] eqn:E; [|discriminate].
      rewrite (IH _ _ H). apply apply_op_total with op. exact E. }
  intros Hrun. rewrite (Hgen _ _ _ Hrun). reflexivity.
Qed.

(** The invariant after two plays, a collection and another play. *)
Lemma deck_total_invariant_witness :
  let self :=
    tracker_after [PlayCard (mkCard ACE SPADES) 1; PlayCard (mkCard KING SPADES) 2;
                   CollectTrick 2; PlayCard (mkCard TWO HEARTS) 1] in
  sum_counts (get_player_cards_left self) + Z.of_nat (size (_cards_in_play self))
  = 52.
Proof.
  apply (deck_total_invariant
           [PlayCard (mkCard ACE SPADES) 1; PlayCard (mkCard KING SPADES) 2;
            CollectTrick 2; PlayCard (mkCard TWO HEARTS) 1]).
  apply run_ops_tracker_after. vm_compute. reflexivity.
Defined.

(** Plays only add to the cards in play. *)
Lemma run_plays_cards_in_play ops self self' card :
  forallb is_PlayCard ops = true →
  run_ops self ops = Some self' →
  card ∈ _cards_in_play self →
  card ∈ _cards_in_play self'.
Proof.
  revert self. induction ops as [|op ops IH]; intros self Hall Hrun Hin;
    cbn in Hrun.
  - injection Hrun as <-. exact Hin.
  - cbn in Hall. apply andb_prop in Hall as [Hop Hall].
    destruct (apply_op self op) as [s|] eqn:E; [|discriminate].
    apply (IH s Hall Hrun).
    destruct op as [c p | p]; [|discriminate]. cbn in E.
    destruct (card_played_by self c p) as [[[e|] s']|] eqn:E'; try discriminate.
    injection E as ->.
    apply card_played_by_success in E' as (_ & _ & count & _ & ->).
    cbn. set_solver.
Qed.

Lemma run_ops_app ops1 ops2 self self' :
  run_ops self (ops1 ++ ops2) = Some self' →
  ∃ mid, run_ops self ops1 = Some mid ∧ run_ops mid ops2 = Some self'.
Proof.
  revert self. induction ops1 as [|op ops1 IH]; intros self H; cbn in H.
  - eauto.
  - cbn. destruct (apply_op self op) as [s|]; [|discriminate]. apply IH, H.
Qed.

(** C6: in every run from the standard start, once [card_played_by] has
    succeeded for a card and only plays (no collection) have followed, a
    further [card_played_by] of that card does not succeed for any player
    id; for player 1 or 2 it returns an error and leaves the tracker as it
    was. *)
Theorem no_replay_without_collection
    (before between : list TrackerOp) (card : Card) (p q : PlayerId)
    (s2 : CardConsistencyValidator) :
  forallb is_PlayCard between = true →
  run_ops CardConsistencyValidator_default
          (before ++ PlayCard card p :: between) = Some s2 →
  apply_op s2 (PlayCard card q) = None
  ∧ (q = 1 ∨ q = 2 → ∃ err, card_played_by s2 card q = Ret (Some err, s2)).
Proof.
  intros Hall Hrun.
  assert (Ht : tracks_two_players s2).
  { eapply run_ops_tracks_two_players; [|exact Hrun].
    exact default_tracks_two_players. }
  apply run_ops_app in Hrun as (s0 & _ & Hrun).
  cbn [run_ops] in Hrun.
  destruct (apply_op s0 (PlayCard card p)) as [s1|] eqn:Hplay; [|discriminate].
  assert (Hin1 : card ∈ _cards_in_play s1).
  { cbn in Hplay.
    destruct (card_played_by s0 card p) as [[[e|] s]|] eqn:E; try discriminate.
    injection Hplay as ->.
    apply card_played_by_success in E as (_ & _ & count & _ & ->).
    cbn. set_solver. }
  pose proof (run_plays_cards_in_play _ _ _ _ Hall Hrun Hin1) as Hin2.
  destruct (card_played_by_in_play s2 card q Hin2) as [Hno Herr].
  split.
  - cbn. destruct (card_played_by s2 card q) as [[[e|] s]|] eqn:E;
      try reflexivity.
    exfalso. apply (Hno s). reflexivity.
  - intros Hq. apply Herr. apply (tracks_two_players_get s2 q Ht Hq).
Qed.

(** The theorem on the forged-card scenario: player 1 plays the Ace of
    Spades, player 2 plays another card, then player 2 plays the Ace of
    Spades. *)
Lemma no_replay_without_collection_witness :
  let s2 :=
    tracker_after [PlayCard (mkCard ACE SPADES) 1; PlayCard (mkCard KING SPADES) 2] in
  apply_op s2 (PlayCard (mkCard ACE SPADES) 2) = None
  ∧ (2 = 1 ∨ 2 = 2 →
     ∃ err, card_played_by s2 (mkCard ACE SPADES) 2 = Ret (Some err, s2)).
Proof.
  apply (no_replay_without_collection [] [PlayCard (mkCard KING SPADES) 2]
           (mkCard ACE SPADES) 1 2).
  - reflexivity.
  - apply (run_ops_tracker_after
             [PlayCard (mkCard ACE SPADES) 1; PlayCard (mkCard KING SPADES) 2]).
    vm_compute. reflexivity.
Defined.

(* --------------------------------------------------------------------- *)
(** ** The line classifier                                                *)
(* --------------------------------------------------------------------- *)

Section Scanning.

Local Open Scope string_scope.

Lemma append_cons c a b : String c a ++ b = String c (a ++ b).
Proof. reflexivity. Qed.

Lemma append_nil b : "" ++ b = b.
Proof. reflexivity. Qed.

Lemma strip_prefix_Some p s r : strip_prefix p s = Some r → s = p ++ r.
Proof.
  revert s. induction p as [|a p IH]; intros s H; cbn in H.
  - injection H as ->. reflexivity.
  - destruct s as [|b s]; [discriminate|].
    destruct (Ascii.eqb_spec a b) as [->|]; [|discriminate].
    rewrite append_cons. f_equal. apply IH. exact H.
Qed.

Lemma strip_prefix_app p q s :
  strip_prefix (p ++ q) s = strip_prefix p s ≫= strip_prefix q.
Proof.
  revert s. induction p as [|a p IH]; intros s.
  - rewrite append_nil. reflexivity.
  - rewrite append_cons. cbn. destruct s as [|b s]; [reflexivity|].
    destruct (Ascii.eqb a b); [apply IH | reflexivity].
Qed.

Lemma span_spec f s :
  s = (span f s).1 ++ (span f s).2 ∧ all_chars f (span f s).1 = true.
Proof.
  induction s as [|c s [IH1 IH2]]; cbn; [auto|].
  destruct (f c) eqn:Hc; cbn; [|auto].
  rewrite Hc, IH2, append_cons. split; [f_equal; exact IH1 | reflexivity].
Qed.

Lemma many1_Some f s a r :
  many1 f s = Some (a, r) → s = a ++ r ∧ a ≠ "" ∧ all_chars f a = true.
Proof.
  unfold many1. destruct (span_spec f s) as [H1 H2].
  destruct (span f s) as [a' r']. cbn in H1, H2.
  destruct a' as [|c a']; [discriminate|].
  intros H. injection H as <- <-. auto.
Qed.

(** A repetition fails on a string that starts outside the class. *)
Lemma many1_first_outside f c s : f c = false → many1 f (String c s) = None.
Proof. intros H. unfold many1. cbn. rewrite H. reflexivity. Qed.

Lemma at_end_true r : at_end r = true → r = "" ∨ r = String newline "".
Proof.
  destruct r as [|c [|c' r']]; unfold at_end; intros H;
    [auto | apply Ascii.eqb_eq in H; subst; auto | discriminate].
Qed.

Lemma contains_newline_app a b :
  contains_newline (a ++ b) = contains_newline a || contains_newline b.
Proof.
  induction a as [|c a IH]; [reflexivity|].
  rewrite append_cons.
  change (contains_newline (String c (a ++ b)))
    with (Ascii.eqb c newline || contains_newline (a ++ b)).
  change (contains_newline (String c a))
    with (Ascii.eqb c newline || contains_newline a).
  rewrite IH, orb_assoc. reflexivity.
Qed.

Lemma all_chars_weaken (f g : ascii → bool) s :
  (∀ c, f c = true → g c = true) → all_chars f s = true → all_chars g s = true.
Proof.
  intros Hfg. induction s as [|c s IH]; cbn; [reflexivity|].
  intros H. apply andb_prop in H as [Hc Hs].
  rewrite (Hfg c Hc), (IH Hs). reflexivity.
Qed.

(** Digits and letters are plain characters. *)
Lemma is_digit_plain c : is_digit c = true → is_plain c = true.
Proof.
  destruct c as [[] [] [] [] [] [] [] []]; vm_compute; intros H;
    first [reflexivity | discriminate].
Qed.

Lemma is_alpha_plain c : is_alpha c = true → is_plain c = true.
Proof.
  destruct c as [[] [] [] [] [] [] [] []]; vm_compute; intros H;
    first [reflexivity | discriminate].
Qed.

Lemma is_plain_spec c :
  is_plain c = true → is_space c = false ∧ Ascii.eqb c newline = false.
Proof.
  unfold is_plain. intros H. apply andb_prop in H as [H1 H2].
  split; apply negb_true_iff; assumption.
Qed.

Lemma rstrip_app_tidy a r : rstrip r = r → r ≠ "" → rstrip (a ++ r) = a ++ r.
Proof.
  intros Hr Hne. induction a as [|c a IH]; [exact Hr|].
  rewrite append_cons. cbn. rewrite IH.
  destruct (a ++ r) eqn:E; [|reflexivity].
  destruct a; [rewrite append_nil in E; congruence | discriminate].
Qed.

Lemma rstrip_plain a : all_chars is_plain a = true → rstrip a = a.
Proof.
  induction a as [|c a IH]; cbn; [reflexivity|].
  intros H. apply andb_prop in H as [Hc Ha]. rewrite (IH Ha).
  destruct a; [|reflexivity].
  apply is_plain_spec in Hc as [-> _]. reflexivity.
Qed.

Lemma contains_newline_plain a :
  all_chars is_plain a = true → contains_newline a = false.
Proof.
  induction a as [|c a IH]; [reflexivity|].
  change (all_chars is_plain (String c a))
    with (is_plain c && all_chars is_plain a).
  change (contains_newline (String c a))
    with (Ascii.eqb c newline || contains_newline a).
  intros H. apply andb_prop in H as [Hc Ha].
  apply is_plain_spec in Hc as [_ ->]. exact (IH Ha).
Qed.

(** A non-empty run of plain characters is tidy. *)
Lemma tidy_plain a : a ≠ "" → all_chars is_plain a = true → tidy a.
Proof.
  intros Hne Ha. split; [|split]; auto using contains_newline_plain, rstrip_plain.
Qed.

(** Text without line feed in front of a tidy string gives a tidy string. *)
Lemma tidy_app a r : contains_newline a = false → tidy r → tidy (a ++ r).
Proof.
  intros Ha (Hn & Hr & Hne). split; [|split].
  - rewrite contains_newline_app, Ha, Hn. reflexivity.
  - apply rstrip_app_tidy; assumption.
  - destruct a; [exact Hne | discriminate].
Qed.

Lemma tidy_app_plain a r :
  all_chars is_plain a = true → tidy r → tidy (a ++ r).
Proof. intros Ha. apply tidy_app. apply contains_newline_plain. exact Ha. Qed.

End Scanning.

Section Exclusive.

Local Open Scope string_scope.

Lemma strip_prefix_cons a p c s :
  strip_prefix (String a p) (String c s)
  = if Ascii.eqb a c then strip_prefix p s else None.
Proof. reflexivity. Qed.

(** Two literals that differ at a position both reach cannot both start
    the same string. *)
Lemma literals_clash p q s r1 r2 :
  literals_differ p q = true →
  strip_prefix p s = Some r1 →
  strip_prefix q s = Some r2 → False.
Proof.
  revert q s. induction p as [|a p IH]; intros q s Hd H1 H2;
    [discriminate|].
  destruct q as [|b q]; [discriminate|].
  destruct s as [|c s]; [discriminate|].
  rewrite strip_prefix_cons in H1, H2.
  destruct (Ascii.eqb_spec a c) as [->|]; [|discriminate].
  destruct (Ascii.eqb_spec b c) as [->|]; [|discriminate].
  cbn [literals_differ] in Hd. rewrite Ascii.eqb_refl in Hd. cbn in Hd.
  eapply IH; eauto.
Qed.

(** A literal that starts outside a class cannot follow where a repetition
    of the class succeeds. *)
Lemma many1_vs_literal f a p s x r :
  f a = false →
  many1 f s = Some x →
  strip_prefix (String a p) s = Some r → False.
Proof.
  intros Hf Hm Hp. destruct s as [|c s]; [discriminate|].
  rewrite strip_prefix_cons in Hp.
  destruct (Ascii.eqb_spec a c) as [<-|]; [|discriminate].
  rewrite many1_first_outside in Hm by exact Hf. discriminate.
Qed.

End Exclusive.

(** Splits a successful pattern match into the successes of its scans. *)
Ltac unbind H :=
  repeat first
    [ let x := fresh "x" in
      let E := fresh "E" in
      apply bind_Some in H as (x & E & H)
    | match type of H with
      | (let '(_, _) := ?x in _) = _ => destruct x as [? ?]
      | (if at_end ?r then _ else _) = _ =>
          let E := fresh "End" in
          destruct (at_end r) eqn:E; [apply at_end_true in E | discriminate H]
      end; cbv beta match in H ].

(** Turns the fact that a rule matches structurally into the successes of
    the scans of its pattern. *)
Ltac open_match H :=
  cbn [structurally_matches] in H;
  first
    [ apply bool_decide_eq_true in H as [? H];
      unfold _round_line_pattern, _player_label_line_pattern,
        _face_up_card_line_pattern, _face_down_card_line_pattern,
        _round_winner_pattern, _war_round_line_pattern,
        _game_winner_line_pattern in H;
      unbind H
    | unfold _commencing_war_pattern, _continuing_war_pattern,
        _draw_line_pattern, literal_pattern in H;
      match type of H with
      | match strip_prefix ?p ?s with _ => _ end = true =>
          let E := fresh "E" in
          destruct (strip_prefix p s) eqn:E;
          [apply at_end_true in H | discriminate H]
      end ].

Section Exclusive2.

Local Open Scope string_scope.

Lemma round_winner_prefix s r :
  strip_prefix "Round winner: Player " s = Some r →
  ∃ r0, strip_prefix "Round " s = Some r0
        ∧ strip_prefix "winner: Player " r0 = Some r.
Proof.
  change "Round winner: Player " with ("Round " ++ "winner: Player ").
  rewrite strip_prefix_app. intros H. apply bind_Some in H. exact H.
Qed.

End Exclusive2.

(** Closes a goal in which two scans of the same string disagree. *)
Ltac clash :=
  repeat match goal with
         | H : strip_prefix "Round winner: Player " _ = Some _ |- _ =>
             apply round_winner_prefix in H as (? & ? & ?)
         end;
  repeat match goal with
         | H : _ = EmptyString ∨ _ = String newline EmptyString |- _ =>
             destruct H as [-> | ->]
         end;
  simplify_eq;
  first
    [ done
    | match goal with
      | H : strip_prefix _ EmptyString = Some _ |- _ => discriminate H
      | H : strip_prefix _ (String newline EmptyString) = Some _ |- _ =>
          vm_compute in H; discriminate H
      end
    | match goal with
      | H1 : strip_prefix ?p ?s = Some _,
        H2 : strip_prefix ?q ?s = Some _ |- _ =>
          eapply (literals_clash p q); [|exact H1|exact H2]; reflexivity
      end
    | match goal with
      | H1 : many1 ?f ?s = Some _,
        H2 : strip_prefix (String ?a _) ?s = Some _ |- _ =>
          eapply many1_vs_literal; [|exact H1|exact H2]; reflexivity
      end ].

(** The patterns are mutually exclusive: a string matches at most one. *)
Lemma patterns_exclusive r r' s :
  structurally_matches r s = true →
  structurally_matches r' s = true →
  r = r'.
Proof.
  intros H1 H2.
  destruct r, r'; try reflexivity; exfalso;
    open_match H1; open_match H2; clash.
Qed.

Section Refinement.

Local Open Scope string_scope.

Lemma others_do_not_match r r' s :
  structurally_matches r s = true → r' ≠ r →
  structurally_matches r' s = false.
Proof.
  intros Hm Hne. destruct (structurally_matches r' s) eqn:E; [|reflexivity].
  exfalso. apply Hne. eapply patterns_exclusive; eauto.
Qed.

Lemma pattern_None {A} (o : option A) :
  bool_decide (is_Some o) = false → o = None.
Proof. intros H. apply bool_decide_eq_false in H. apply eq_None_not_Some, H. Qed.

(** A rule whose pattern does not match does not succeed. *)
Lemma rule_result_no_match self r s :
  structurally_matches r s = false → rule_result self r s = None.
Proof.
  destruct r; cbn [structurally_matches rule_result]; intros H;
    try (apply pattern_None in H); rewrite H; reflexivity.
Qed.

Lemma first_success_None self rules s :
  (∀ r, r ∈ rules → rule_result self r s = None) →
  first_success self rules s = None.
Proof.
  induction rules as [|r rules IH]; intros H; cbn [first_success]; [reflexivity|].
  rewrite (H r) by left. apply IH. intros r' Hr'. apply H. right. exact Hr'.
Qed.

(** When a rule matches structurally, trying any list of rules that holds
    it gives the result of that rule. *)
Lemma first_success_of_match self rules r s :
  structurally_matches r s = true → r ∈ rules →
  first_success self rules s = rule_result self r s.
Proof.
  intros Hm. induction rules as [|r0 rules IH]; intros Hin.
  - inversion Hin.
  - cbn [first_success]. destruct (decide (r0 = r)) as [->|Hne].
    + destruct (rule_result self r s) eqn:E; [reflexivity|].
      apply first_success_None. intros r' _.
      destruct (decide (r' = r)) as [->|Hne']; [exact E|].
      apply rule_result_no_match. eapply others_do_not_match; eauto.
    + rewrite (rule_result_no_match self r0 s)
        by (eapply others_do_not_match; eauto).
      apply IH. apply elem_of_cons in Hin as [->|Hin]; [congruence|exact Hin].
Qed.

(** When a rule matches structurally, the rules tried after it all fail. *)
Lemma first_success_rules_after self r s :
  structurally_matches r s = true →
  first_success self (rules_after r) s = None.
Proof.
  intros Hm. apply first_success_None. intros r' Hin.
  apply rule_result_no_match. eapply others_do_not_match; [exact Hm|].
  intros ->. revert Hin. clear. destruct r; vm_compute; intros Hin;
    repeat (apply elem_of_cons in Hin as [Hin|Hin]; [discriminate Hin|]);
    inversion Hin.
Qed.

Lemma all_rules r : r ∈ rules_in_priority_order.
Proof.
  unfold rules_in_priority_order.
  destruct r; repeat (first [left | right]).
Qed.

End Refinement.

(** The facts that the patterns of the rules other than the matching one
    fail. *)
Ltac other_rule_fails Hm r' :=
  let N := fresh "N" in
  first
    [ assert (N := others_do_not_match _ r' _ Hm ltac:(discriminate));
      cbn [structurally_matches] in N;
      try apply pattern_None in N
    | idtac ].

Section Refinement2.

Local Open Scope string_scope.

(** The [if]/[elif] chain gives the result of the rule whose pattern
    matches. *)
Lemma parse_line_chain_of_match self r s :
  structurally_matches r s = true →
  parse_line_chain self s = rule_result self r s.
Proof.
  intros Hm. unfold parse_line_chain.
  destruct r;
    other_rule_fails Hm RuleRound; other_rule_fails Hm RulePlayerLabel;
    other_rule_fails Hm RuleFaceUpCard; other_rule_fails Hm RuleFaceDownCard;
    other_rule_fails Hm RuleRoundWinner; other_rule_fails Hm RuleCommencingWar;
    other_rule_fails Hm RuleWarRound; other_rule_fails Hm RuleContinuingWar;
    other_rule_fails Hm RuleGameWinner; other_rule_fails Hm RuleDraw;
    cbn [structurally_matches rule_result] in *;
    try (apply bool_decide_eq_true in Hm as [m Hm]);
    repeat match goal with
           | N : _ = None |- _ => rewrite N; clear N
           | N : _ = false |- _ => rewrite N; clear N
           end;
    rewrite Hm; unfold mbind, option_bind; cbv beta iota;
    try reflexivity;
    repeat match goal with
           | m : (_ * _)%type |- _ => destruct m
           end;
    repeat case_match; simplify_eq; reflexivity.
Qed.

(** When no pattern matches, control leaves the chain without a result. *)
Lemma parse_line_chain_no_match self s :
  (∀ r, structurally_matches r s = false) →
  parse_line_chain self s = None.
Proof.
  intros H. unfold parse_line_chain.
  pose proof (H RuleRound) as N1. pose proof (H RulePlayerLabel) as N2.
  pose proof (H RuleFaceUpCard) as N3. pose proof (H RuleFaceDownCard) as N4.
  pose proof (H RuleRoundWinner) as N5. pose proof (H RuleCommencingWar) as N6.
  pose proof (H RuleWarRound) as N7. pose proof (H RuleContinuingWar) as N8.
  pose proof (H RuleGameWinner) as N9. pose proof (H RuleDraw) as N10.
  cbn [structurally_matches] in *.
  apply pattern_None in N1, N2, N3, N4, N5, N7, N9.
  rewrite N1, N2, N3, N4, N5, N6, N7, N8, N9, N10. reflexivity.
Qed.

Lemma match_or_not s :
  (∃ r, structurally_matches r s = true) ∨ (∀ r, structurally_matches r s = false).
Proof.
  destruct (structurally_matches RuleRound s) eqn:E1; [eauto|].
  destruct (structurally_matches RulePlayerLabel s) eqn:E2; [eauto|].
  destruct (structurally_matches RuleFaceUpCard s) eqn:E3; [eauto|].
  destruct (structurally_matches RuleFaceDownCard s) eqn:E4; [eauto|].
  destruct (structurally_matches RuleRoundWinner s) eqn:E5; [eauto|].
  destruct (structurally_matches RuleCommencingWar s) eqn:E6; [eauto|].
  destruct (structurally_matches RuleWarRound s) eqn:E7; [eauto|].
  destruct (structurally_matches RuleContinuingWar s) eqn:E8; [eauto|].
  destruct (structurally_matches RuleGameWinner s) eqn:E9; [eauto|].
  destruct (structurally_matches RuleDraw s) eqn:E10; [eauto|].
  right. intros []; assumption.
Qed.

(** The [if]/[elif] chain of the source and the rule-by-rule fall-through
    of the specification give the same result on every string. *)
Lemma parse_line_chain_first_success self s :
  parse_line_chain self s = first_success self rules_in_priority_order s.
Proof.
  destruct (match_or_not s) as [[r Hr] | Hnone].
  - rewrite (parse_line_chain_of_match self r s Hr).
    symmetry. apply first_success_of_match; [exact Hr | apply all_rules].
  - rewrite (parse_line_chain_no_match self s Hnone).
    symmetry. apply first_success_None. intros r _.
    apply rule_result_no_match, Hnone.
Qed.

(** The classifier of the source is the fall-through classifier: on every
    input, with the trimmed text in the malformed record of a line without
    line feed. *)
Lemma parse_line_classify_fallthrough self line :
  parse_line self line = classify_fallthrough self line.
Proof.
  unfold parse_line, classify_fallthrough.
  rewrite parse_line_chain_first_success. reflexivity.
Qed.

End Refinement2.

Section Shape.

Local Open Scope string_scope.

Lemma append_empty a : a ++ "" = a.
Proof.
  induction a as [|c a IH]; [reflexivity|]. rewrite append_cons, IH. reflexivity.
Qed.

End Shape.

(** Rewrites the scans of a successful match into the text they consumed. *)
Ltac consumed :=
  repeat match goal with
         | H : strip_prefix _ _ = Some _ |- _ =>
             apply strip_prefix_Some in H; subst
         | H : many1 is_digit _ = Some _ |- _ =>
             apply many1_Some in H as (-> & ? & H);
             apply (all_chars_weaken _ _ _ is_digit_plain) in H
         | H : many1 is_alpha _ = Some _ |- _ =>
             apply many1_Some in H as (-> & ? & H);
             apply (all_chars_weaken _ _ _ is_alpha_plain) in H
         end.

(** Shows a concatenation of literals and runs of plain characters tidy. *)
Ltac tidy_text :=
  repeat first
    [ rewrite append_empty
    | apply tidy_plain; [assumption | assumption]
    | apply tidy_app_plain; [assumption|]
    | apply tidy_app; [reflexivity|]
    | (split; [|split]; [reflexivity | reflexivity | discriminate]) ].

Section Shape2.

Local Open Scope string_scope.

Lemma contains_newline_suffix a b :
  contains_newline (a ++ b) = false → contains_newline b = false.
Proof.
  rewrite contains_newline_app. intros H.
  apply orb_false_elim in H as [_ H]. exact H.
Qed.

(** A string without line feed that matches a pattern has no surrounding
    white space and is not empty. *)
Lemma structurally_matches_tidy r s :
  structurally_matches r s = true →
  contains_newline s = false →
  tidy s ∧ lstrip s = s.
Proof.
  intros Hm Hnl.
  destruct r; open_match Hm; consumed;
    repeat match goal with
           | H : _ = EmptyString ∨ _ = String newline EmptyString |- _ =>
               destruct H as [-> | ->]
           end;
    try (exfalso;
         repeat match type of Hnl with
                | contains_newline (String.append _ _) = false =>
                    apply contains_newline_suffix in Hnl
                end;
         vm_compute in Hnl; discriminate Hnl);
    (split; [tidy_text | reflexivity]).
Qed.

End Shape2.

Section Classifier.

Local Open Scope string_scope.

(** Trimming brings in no line feed. *)
Lemma contains_newline_lstrip s :
  contains_newline s = false → contains_newline (lstrip s) = false.
Proof.
  induction s as [|c s IH]; [reflexivity|].
  cbn [lstrip]. destruct (is_space c); [|auto].
  cbn [contains_newline]. intros H. apply orb_false_elim in H as [_ H]. auto.
Qed.

Lemma contains_newline_rstrip s :
  contains_newline s = false → contains_newline (rstrip s) = false.
Proof.
  induction s as [|c s IH]; [reflexivity|].
  cbn [contains_newline]. intros H. apply orb_false_elim in H as [Hc Hs].
  cbn [rstrip]. specialize (IH Hs).
  destruct (rstrip s) as [|c' r].
  - destruct (is_space c); [reflexivity|]. cbn [contains_newline].
    rewrite Hc. reflexivity.
  - change (contains_newline (String c (String c' r)))
      with (Ascii.eqb c newline || contains_newline (String c' r)).
    rewrite Hc, IH. reflexivity.
Qed.

Lemma contains_newline_strip s :
  contains_newline s = false → contains_newline (strip s) = false.
Proof.
  intros H. unfold strip. apply contains_newline_rstrip, contains_newline_lstrip, H.
Qed.

(** C7, amended: the classifier trims the line before it matches.  When
    the line holds no line feed, its trimmed text matches the pattern of a
    rule and the captured fields fail the secondary validation of that
    rule, [parse_line] returns what trying the rules after it in priority
    order on the trimmed text gives; no later rule succeeds, the patterns
    being mutually exclusive, so the result is the malformed record, and it
    carries the trimmed text: the original text only when the line has no
    surrounding white space. *)
Theorem parse_line_fall_through (self : LineParser) (r : Rule) (line : string) :
  contains_newline line = false →
  structurally_matches r (strip line) = true →
  rule_result self r (strip line) = None →
  parse_line self line
  = default (MalformedLine (strip line))
      (first_success self (rules_after r) (strip line))
  ∧ first_success self (rules_after r) (strip line) = None
  ∧ parse_line self line = MalformedLine (strip line)
  ∧ (parse_line self line = MalformedLine line ↔ strip line = line).
Proof.
  intros Hnl Hm Hfail.
  pose proof (first_success_rules_after self r (strip line) Hm) as Hnone.
  assert (Hparse : parse_line self line = MalformedLine (strip line)).
  { unfold parse_line. rewrite Hnl.
    destruct (structurally_matches_tidy r (strip line) Hm
                (contains_newline_strip line Hnl)) as [(_ & _ & Hne) _].
    destruct (String.eqb_spec (strip line) "") as [E|_]; [congruence|].
    rewrite (parse_line_chain_of_match self r (strip line) Hm), Hfail.
    reflexivity. }
  split; [rewrite Hparse, Hnone; reflexivity|].
  split; [exact Hnone|]. split; [exact Hparse|].
  rewrite Hparse. split; [intros H; simplify_eq; assumption | intros ->; reflexivity].
Qed.

(** The theorem on a player label with a player number out of range,
    between white space. *)
Lemma parse_line_fall_through_witness :
  parse_line LineParser_default "  Player 3: "
  = default (MalformedLine (strip "  Player 3: "))
      (first_success LineParser_default (rules_after RulePlayerLabel)
         (strip "  Player 3: "))
  ∧ first_success LineParser_default (rules_after RulePlayerLabel)
      (strip "  Player 3: ") = None
  ∧ parse_line LineParser_default "  Player 3: "
    = MalformedLine (strip "  Player 3: ")
  ∧ (parse_line LineParser_default "  Player 3: "
     = MalformedLine "  Player 3: "
     ↔ strip "  Player 3: " = "  Player 3: ").
Proof.
  apply (parse_line_fall_through LineParser_default RulePlayerLabel
           "  Player 3: ").
  - reflexivity.
  - reflexivity.
  - reflexivity.
Defined.

(** C7, as stated, fails on a line with surrounding white space: the
    trimmed text of ["  Player 3: "] matches the pattern of the player
    label, the player number 3 fails the secondary validation, and the
    malformed record carries the trimmed text, not the original text. *)
Lemma padded_line_malformed_text_is_trimmed :
  contains_newline "  Player 3: " = false
  ∧ strip "  Player 3: " = "Player 3:"
  ∧ structurally_matches RulePlayerLabel (strip "  Player 3: ") = true
  ∧ rule_result LineParser_default RulePlayerLabel (strip "  Player 3: ")
    = None
  ∧ parse_line LineParser_default "  Player 3: " = MalformedLine "Player 3:"
  ∧ parse_line LineParser_default "  Player 3: "
    ≠ MalformedLine "  Player 3: ".
Proof.
  repeat split; try (vm_compute; reflexivity).
  vm_compute. discriminate.
Qed.

(** Lines whose fields fail the secondary validation, and a line with
    surrounding white space, whose malformed record carries the trimmed
    text. *)
Example parse_line_malformed_examples :
  parse_line LineParser_default "- Ace of Club" = MalformedLine "- Ace of Club"
  ∧ parse_line LineParser_default "Round winner: Player 1 (Ace of Swords)"
    = MalformedLine "Round winner: Player 1 (Ace of Swords)"
  ∧ parse_line LineParser_default "Player 1 wins with 53 cards in their deck"
    = MalformedLine "Player 1 wins with 53 cards in their deck"
  ∧ parse_line LineParser_default "  Player 3: " = MalformedLine "Player 3:"
  ∧ structurally_matches RulePlayerLabel ("Player 3:" ++ String newline "")
    = true
  ∧ parse_line LineParser_default ("Player 3:" ++ String newline "")
    = MalformedLine ("Player 3:" ++ String newline "").
Proof. repeat split; vm_compute; reflexivity. Qed.

Lemma first_success_Some self rules s l :
  first_success self rules s = Some l →
  ∃ r, rule_result self r s = Some l.
Proof.
  induction rules as [|r rules IH]; cbn [first_success]; [discriminate|].
  destruct (rule_result self r s) as [l'|] eqn:E; [|exact IH].
  intros H. injection H as <-. eauto.
Qed.

(** Only the game-winner rule yields a game-winner record, and only with a
    valid player number and a card count within the bounds. *)
Lemma rule_result_game_winner self r s p n :
  rule_result self r s = Some (GameWinnerLine p n) →
  p ∈ _valid_player_numbers self ∧ (0 ≤ n ≤ _max_cards self)%Z.
Proof.
  destruct r; cbn [rule_result]; unfold mbind, option_bind; intros H;
    repeat case_match; simplify_eq.
  match goal with
  | H : andb _ _ = true |- _ => apply andb_prop in H as [Hp Hn]
  end.
  apply bool_decide_eq_true in Hp, Hn. auto.
Qed.

(** What the default classifier guarantees about a game-winner record. *)
Lemma parse_line_game_winner_range line p n :
  parse_line LineParser_default line = GameWinnerLine p n →
  (p = 1 ∨ p = 2) ∧ (0 ≤ n ≤ 52)%Z.
Proof.
  rewrite parse_line_classify_fallthrough. unfold classify_fallthrough.
  destruct (contains_newline line); [discriminate|].
  destruct (String.eqb (strip line) ""); [discriminate|].
  destruct (first_success LineParser_default rules_in_priority_order
              (strip line)) as [l|] eqn:E; [|discriminate].
  cbn [from_option id]. intros ->.
  apply first_success_Some in E as [r E].
  apply rule_result_game_winner in E as [H1 H2]. cbn in H1, H2.
  split; [|exact H2].
  apply elem_of_cons in H1 as [->|H1]; [auto|].
  apply list_elem_of_singleton in H1 as ->. auto.
Qed.

End Classifier.

(* --------------------------------------------------------------------- *)
(** ** The validator: one line                                            *)
(* --------------------------------------------------------------------- *)

(** Reduces field reads of explicitly built validators. *)
Ltac fields :=
  cbn [_parser _parse_manager _card_validator _card_comparer _round_number
       _line_number _war_round_number _war_state _game_end_state
       _encountered_game_done_line set_parse_manager set_card_validator
       set_card_comparer set_round_number set_line_number
       set_war_round_number set_war_state set_game_end_state
       set_encountered_game_done_line validator_state _state
       _player_ids _played_cards reset_played_cards
       mbind outcome_bind] in *.

(** [card_played_by] either succeeds as an operation of the tracker or
    returns one of its three errors and leaves the tracker as it was. *)
Lemma card_played_by_cases self card player_id e self' :
  card_played_by self card player_id = Ret (e, self') →
  (e = None ∧ apply_op self (PlayCard card player_id) = Some self')
  ∨ (∃ err, e = Some err ∧ self' = self ∧ is_game_did_not_end err = false).
Proof.
  intros H. destruct e as [err|].
  - right. exists err. revert H.
    unfold card_played_by, _validate_played_card_rules, _ensure_card_in_deck,
      _ensure_card_not_in_play, _ensure_card_not_duplicated, pdict_item.
    destruct (_owner self !! card) as [o|];
      [destruct (decide (o ≠ player_id)) as [Hne|Heq]|];
      cbn;
      try (intros H; injection H as <- <-; by auto);
      (destruct (pdict_get player_id (_card_group_decks self)) as [deck|];
       cbn; [|done]);
      (destruct (can_draw card deck); cbn;
       [|intros H; injection H as <- <-; by auto]);
      (case_bool_decide as Hin; cbn;
       [intros H; injection H as <- <-; by auto|]);
      destruct (pdict_get player_id (_actual_card_counts self)); cbn; done.
  - left. split; [reflexivity|]. cbn. rewrite H. reflexivity.
Qed.

(** For player 1 or 2 and a tracker on players 1 and 2, [card_played_by]
    returns. *)
Lemma card_played_by_total self card player_id :
  tracks_two_players self →
  player_id = 1 ∨ player_id = 2 →
  ∃ e self', card_played_by self card player_id = Ret (e, self').
Proof.
  intros Ht Hp.
  destruct (tracks_two_players_get self player_id Ht Hp)
    as [[deck Hd] [count Hc]].
  unfold card_played_by, _validate_played_card_rules, _ensure_card_in_deck,
    pdict_item.
  rewrite Hd, Hc.
  destruct (_ensure_card_not_duplicated self card player_id); cbn; [eauto|].
  destruct (or_check _ _); cbn; eauto.
Qed.

(** [cards_in_play_taken_by], when it returns, is a successful operation of
    the tracker. *)
Lemma cards_in_play_taken_by_cases self player_id e self' :
  cards_in_play_taken_by self player_id = Ret (e, self') →
  e = None ∧ apply_op self (CollectTrick player_id) = Some self'.
Proof.
  intros H. destruct e as [err|].
  - exfalso. exact (cards_in_play_taken_by_no_error _ _ _ _ H).
  - split; [reflexivity|]. cbn. rewrite H. reflexivity.
Qed.

(** The only error of the comparer's resolution is the missing face-up
    card. *)
Lemma determine_winners_error self err :
  determine_winners self = inl err → is_game_did_not_end err = false.
Proof.
  unfold determine_winners.
  generalize (@nil Z) as ret, (@None Card) as best.
  induction (_player_ids self) as [|p ids IH]; intros ret best; cbn;
    [discriminate|].
  destruct (_played_cards self !! p) as [c|].
  - destruct best; apply IH.
  - intros H. injection H as <-. reflexivity.
Qed.

Lemma same_setup_refl self : same_setup self self.
Proof. repeat split; auto. Qed.

Lemma update_war_state_after_play_set self face_up :
  ∃ w, update_war_state_after_play self face_up = set_war_state w self.
Proof.
  assert (Hid : self = set_war_state (_war_state self) self)
    by (destruct self; reflexivity).
  unfold update_war_state_after_play.
  repeat case_match; eauto.
Qed.

Lemma update_game_end_state_set self n :
  ∃ g, _update_game_end_state_after_n_draws self n = set_game_end_state g self.
Proof.
  assert (Hid : self = set_game_end_state (_game_end_state self) self)
    by (destruct self; reflexivity).
  unfold _update_game_end_state_after_n_draws.
  repeat case_match; eauto.
Qed.

(** The card-line case: what it leaves alone and the errors it returns. *)
Lemma validate_card_line_effects self rank suit face_up e self1 :
  validate_card_line self rank suit face_up = Ret (e, self1) →
  same_setup self self1
  ∧ (∀ err, e = Some err → is_game_did_not_end err = false)
  ∧ _game_end_state self1 = _game_end_state self.
Proof.
  unfold validate_card_line, same_setup.
  destruct (_get_player_to_play self) as [p|]; fields.
  2: { intros H. simplify_eq. repeat split; auto.
       intros err H. simplify_eq. reflexivity. }
  destruct self as [pa pm cv0 cc rn ln wrn ws ges enc]. fields.
  destruct (card_played_by cv0 (mkCard rank suit) p)
    as [[e0 cv]|] eqn:E; fields; [|done].
  apply card_played_by_cases in E.
  assert (Htr : tracks_two_players cv0 → tracks_two_players cv).
  { destruct E as [[_ Hop] | (err & _ & -> & _)]; [|auto].
    intros Ht. eapply apply_op_tracks_two_players; eauto. }
  destruct e0 as [err0|].
  { intros H. simplify_eq. fields.
    destruct E as [[? _] | (err & Herr & _ & Hk)]; [discriminate|].
    simplify_eq. repeat split; auto. intros err' H. simplify_eq. exact Hk. }
  destruct face_up.
  - unfold face_up_card_played_by. fields.
    destruct (_played_cards cc !! p) as [c|]; fields.
    + intros H. simplify_eq. fields. repeat split; auto.
      intros err' H. simplify_eq. reflexivity.
    + intros H. simplify_eq.
      match goal with
      | |- context [update_war_state_after_play ?v true] =>
          destruct (update_war_state_after_play_set v true) as [w ->]
      end.
      fields. repeat split; auto. discriminate.
  - intros H. simplify_eq.
    match goal with
    | |- context [update_war_state_after_play ?v false] =>
        destruct (update_war_state_after_play_set v false) as [w ->]
    end.
    fields. repeat split; auto. discriminate.
Qed.

(** The round-winner case. *)
Lemma validate_round_winner_line_effects self player_number rank suit e self1 :
  validate_round_winner_line self player_number rank suit = Ret (e, self1) →
  same_setup self self1
  ∧ (∀ err, e = Some err → is_game_did_not_end err = false)
  ∧ _game_end_state self1 = _game_end_state self.
Proof.
  unfold validate_round_winner_line, same_setup.
  destruct self as [pa pm cv0 cc rn ln wrn ws ges enc]. fields.
  destruct (determine_winners cc) as [err0|result] eqn:Edw.
  { intros H. simplify_eq. fields. repeat split; auto.
    intros err H. simplify_eq. eapply determine_winners_error; eauto. }
  destruct (1 <? length result)%nat.
  { intros H. simplify_eq. fields. repeat split; auto.
    intros err H. simplify_eq. reflexivity. }
  destruct result as [|winning_player rest]; [done|].
  destruct (decide (winning_player ≠ player_number)).
  { intros H. simplify_eq. fields. repeat split; auto.
    intros err H. simplify_eq. reflexivity. }
  destruct (decide (Some (mkCard rank suit)
                    ≠ get_current_face_up_card cc winning_player)).
  { intros H. simplify_eq. fields. repeat split; auto.
    intros err H. simplify_eq. reflexivity. }
  destruct (cards_in_play_taken_by cv0 player_number) as [[e0 cv]|] eqn:E;
    fields; [|done].
  apply cards_in_play_taken_by_cases in E as [-> Hop].
  intros H. simplify_eq. fields. repeat split; auto.
  - intros Ht. eapply apply_op_tracks_two_players; eauto.
  - discriminate.
Qed.

(** The two war-declaration cases. *)
Lemma validate_war_line_effects self commence e self1 :
  validate_war_line self commence = (e, self1) →
  same_setup self self1
  ∧ (∀ err, e = Some err → is_game_did_not_end err = false)
  ∧ _game_end_state self1 = _game_end_state self.
Proof.
  unfold validate_war_line, same_setup.
  destruct self as [pa pm cv0 cc rn ln wrn ws ges enc]. fields.
  destruct (determine_winners cc) as [err0|result] eqn:Edw.
  { intros H. simplify_eq. fields. repeat split; auto.
    intros err H. simplify_eq. eapply determine_winners_error; eauto. }
  destruct (length result =? 1)%nat.
  { intros H. simplify_eq. fields. repeat split; auto.
    intros err H. simplify_eq. reflexivity. }
  destruct commence; intros H; simplify_eq; fields; repeat split; auto;
    discriminate.
Qed.

(** The [match line:] statement: what it leaves alone, the errors it
    returns, and what it does to the derived outcome. *)
Lemma validate_line_match_effects self line e self1 :
  validate_line_match self line = Ret (e, self1) →
  same_setup self self1
  ∧ (∀ err, e = Some err → is_game_did_not_end err = false)
  ∧ (e = None →
     match line with
     | RoundLine _ => self1 = _update_game_end_state_after_n_draws self 0
     | WarRoundLine _ _ => self1 = _update_game_end_state_after_n_draws self 2
     | PlayerLabelLine _ | EmptyLine => self1 = self
     | _ => _game_end_state self1 = _game_end_state self
     end).
Proof.
  destruct line; cbn [validate_line_match].
  - destruct (decide (_round_number self ≠ round_number)); intros H;
      simplify_eq.
    + split; [apply same_setup_refl|]. split; [|discriminate].
      intros err H. simplify_eq. reflexivity.
    + destruct (update_game_end_state_set self 0) as [g Hg].
      split; [|split; [discriminate|reflexivity]].
      rewrite Hg. destruct self. repeat split; auto.
  - intros H. simplify_eq. split; [apply same_setup_refl|].
    split; [discriminate|reflexivity].
  - intros H. apply validate_card_line_effects in H as (H1 & H2 & H3). auto.
  - intros H. apply validate_card_line_effects in H as (H1 & H2 & H3). auto.
  - intros H. apply validate_round_winner_line_effects in H as (H1 & H2 & H3).
    auto.
  - intros H. simplify_eq.
    destruct (validate_war_line self true) as [e0 s0] eqn:E.
    apply validate_war_line_effects in E as (H1 & H2 & H3). simplify_eq. auto.
  - destruct (decide (_round_number self ≠ round_number)); [|
      destruct (decide (_war_round_number self ≠ war_round_number))];
      intros H; simplify_eq.
    + split; [apply same_setup_refl|]. split; [|discriminate].
      intros err H. simplify_eq. reflexivity.
    + split; [apply same_setup_refl|]. split; [|discriminate].
      intros err H. simplify_eq. reflexivity.
    + destruct (update_game_end_state_set self 2) as [g Hg].
      split; [|split; [discriminate|reflexivity]].
      rewrite Hg. destruct self. repeat split; auto.
  - intros H. simplify_eq.
    destruct (validate_war_line self false) as [e0 s0] eqn:E.
    apply validate_war_line_effects in E as (H1 & H2 & H3). simplify_eq. auto.
  - intros H. simplify_eq. split; [destruct self; repeat split; auto|].
    split; [discriminate|]. intros _. destruct self; reflexivity.
  - intros H. simplify_eq. split; [destruct self; repeat split; auto|].
    split; [discriminate|]. intros _. destruct self; reflexivity.
  - intros H. simplify_eq. split; [apply same_setup_refl|].
    split; [discriminate|reflexivity].
  - intros H. simplify_eq. split; [apply same_setup_refl|].
    split; [|discriminate]. intros err H. simplify_eq. reflexivity.
Qed.

Lemma get_player_to_play_range self p :
  _get_player_to_play self = Some p → p = 1 ∨ p = 2.
Proof.
  unfold _get_player_to_play. destruct (validator_state self); intros H;
    simplify_eq; auto.
Qed.

(** With the default configuration the [match line:] statement raises no
    exception. *)
Lemma validate_line_match_total self line :
  default_configuration self →
  ∃ e self1, validate_line_match self line = Ret (e, self1).
Proof.
  intros (Hp & Hids & Ht). destruct line; cbn [validate_line_match];
    try (repeat case_match; eauto; fail).
  - unfold validate_card_line.
    destruct (_get_player_to_play self) as [p|] eqn:Ep; [|eauto].
    apply get_player_to_play_range in Ep.
    destruct (card_played_by_total (_card_validator self) (mkCard r s) p Ht Ep)
      as (e & cv & ->).
    fields. repeat case_match; eauto.
  - unfold validate_card_line.
    destruct (_get_player_to_play self) as [p|] eqn:Ep; [|eauto].
    apply get_player_to_play_range in Ep.
    destruct (card_played_by_total (_card_validator self) (mkCard r s) p Ht Ep)
      as (e & cv & ->).
    fields. repeat case_match; eauto.
  - unfold validate_round_winner_line. fields.
    destruct (determine_winners (_card_comparer self)) as [err|result] eqn:E;
      [eauto|].
    destruct (1 <? length result)%nat; [eauto|].
    apply (determine_winners_two_players_result _ _ Hids) in E.
    assert (Hw : ∃ w rest, result = w :: rest ∧ (w = 1 ∨ w = 2)).
    { destruct E as [-> | [-> | ->]]; eauto. }
    destruct Hw as (w & rest & -> & Hw).
    destruct (decide (w ≠ player_number)) as [|Heq]; [eauto|].
    apply dec_stable in Heq. subst player_number.
    destruct (decide (Some (mkCard r s)
                      ≠ get_current_face_up_card (_card_comparer self) w));
      [eauto|].
    destruct (tracks_two_players_get _ w Ht Hw) as [[deck Hd] [count Hc]].
    rewrite (cards_in_play_taken_by_tracked _ _ _ _ Hd Hc). fields. eauto.
  - destruct (validate_war_line self true) as [e s1]. eauto.
  - destruct (validate_war_line self false) as [e s1]. eauto.
Qed.

(** What a step of the game-end table is. *)
Lemma next_state_game_end_inv state line g next :
  _next_state_game_end state line g = Some next →
  (((state = REGULAR_ROUND ∧ ∃ n, line = RoundLine n)
    ∨ (state = WAR_ROUND ∧ ∃ n m, line = WarRoundLine n m))
   ∧ next = match g with
            | PLAYER_1_WIN => WINNER_PLAYER_1
            | PLAYER_2_WIN => WINNER_PLAYER_2
            | GAME_DRAW => DRAW
            end)
  ∨ (next = NO_MORE_LINES
     ∧ ((state = WINNER_PLAYER_1 ∧ ∃ n, line = GameWinnerLine 1 n)
        ∨ (state = WINNER_PLAYER_2 ∧ ∃ n, line = GameWinnerLine 2 n)
        ∨ (state = DRAW ∧ line = DrawLine))).
Proof.
  destruct state, line; cbn; try discriminate; destruct g; cbn;
    try discriminate; try case_decide; intros Hn; simplify_eq;
    first [ left; split; [|reflexivity]; eauto 10
          | right; split; [reflexivity|]; eauto 10 ].
Qed.

(** The table of the ongoing game never enters a winner, draw or final
    state, and has no entry for a game-winner or draw record. *)
Lemma next_state_game_ongoing_inv state line war_state next :
  _next_state_game_ongoing state line war_state = Some next →
  next ≠ WINNER_PLAYER_1 ∧ next ≠ WINNER_PLAYER_2
  ∧ next ≠ DRAW ∧ next ≠ NO_MORE_LINES
  ∧ state ≠ WINNER_PLAYER_1 ∧ state ≠ WINNER_PLAYER_2
  ∧ state ≠ DRAW ∧ state ≠ NO_MORE_LINES
  ∧ (∀ p n, line ≠ GameWinnerLine p n) ∧ line ≠ DrawLine.
Proof.
  destruct state, line; cbn; try discriminate;
    destruct war_state; try discriminate;
    try case_decide; intros Hn; simplify_eq; repeat split; discriminate.
Qed.

(** One line: the result of [_validate_line] with the default
    configuration.  The call returns; it keeps the configuration and the
    line number; an error is none of the end-of-input kind and leaves the
    protocol state alone; and an accepted line is one whose record passed
    the [match line:] statement and moved the protocol machine. *)
Lemma validate_line_step self line_str :
  default_configuration self →
  ∃ e self',
    _validate_line self line_str = Ret (e, self')
    ∧ default_configuration self'
    ∧ _line_number self' = _line_number self
    ∧ (∀ err, e = Some err →
         is_game_did_not_end err = false
         ∧ validator_state self' = validator_state self)
    ∧ (e = None →
       ∃ self1,
         validate_line_match self (parse_line (_parser self) line_str)
         = Ret (None, self1)
         ∧ next_state (validator_state self)
             (parse_line (_parser self) line_str)
             (_war_state self1) (_game_end_state self1)
           = Some (validator_state self')
         ∧ self' = set_parse_manager
                     (mkParseStateMachine (validator_state self')) self1).
Proof.
  intros Hcfg. unfold _validate_line.
  destruct (validate_line_match_total self (parse_line (_parser self) line_str)
              Hcfg) as (e1 & self1 & Hm).
  rewrite Hm. fields.
  destruct (validate_line_match_effects _ _ _ _ Hm)
    as ((Hpa & Hpm & Hln & Hids & Htr) & Herr & _).
  assert (Hcfg1 : default_configuration self1).
  { destruct Hcfg as (H1 & H2 & H3). unfold default_configuration.
    rewrite Hpa, Hids. auto. }
  assert (Hst1 : validator_state self1 = validator_state self).
  { unfold validator_state. rewrite Hpm. reflexivity. }
  destruct e1 as [err1|].
  { exists (Some err1), self1.
    split; [reflexivity|]. split; [exact Hcfg1|]. split; [exact Hln|].
    split; [|discriminate]. intros err H. simplify_eq. auto. }
  unfold update_state. fold (validator_state self1). rewrite Hst1.
  destruct (next_state (validator_state self)
              (parse_line (_parser self) line_str) (_war_state self1)
              (_game_end_state self1)) as [next|] eqn:En.
  - exists None, (set_parse_manager (mkParseStateMachine next) self1).
    split; [reflexivity|].
    split; [destruct self1; exact Hcfg1|].
    split; [destruct self1; exact Hln|].
    split; [discriminate|].
    intros _. exists self1. split; [reflexivity|].
    split; [destruct self1; exact En | destruct self1; reflexivity].
  - eexists (Some _), (set_parse_manager (_parse_manager self1) self1).
    split; [reflexivity|].
    split; [destruct self1; exact Hcfg1|].
    split; [destruct self1; exact Hln|].
    split; [|discriminate].
    intros err H. simplify_eq. split; [reflexivity|].
    destruct self1; exact Hst1.
Qed.

(** The fresh validator has the default configuration and no outcome. *)
Lemma default_validator_configuration :
  default_configuration WarOutputValidator_default.
Proof.
  split; [reflexivity|]. split; [reflexivity|].
  exact default_tracks_two_players.
Qed.

Lemma default_validator_outcome :
  outcome_matches_state WarOutputValidator_default.
Proof. reflexivity. Qed.

(** Outcomes derived by [_update_game_end_state_after_n_draws]: no player
    left gives the draw, player 1 alone gives the win of player 1, and in
    every other case the outcome stays as it was. *)
Lemma update_game_end_state_cases self n :
  _game_end_state (_update_game_end_state_after_n_draws self n)
  = match _get_players_left_after_n_draws self n with
    | [] => Some GAME_DRAW
    | [p] => if decide (p = 1) then Some PLAYER_1_WIN else _game_end_state self
    | _ => _game_end_state self
    end.
Proof.
  unfold _update_game_end_state_after_n_draws.
  destruct (_get_players_left_after_n_draws self n) as [|p [|q rest]];
    [destruct self; reflexivity | | reflexivity].
  destruct (decide (p = 1)) as [->|]; [|reflexivity].
  destruct (decide (1 = 2)); [lia|]. destruct self; reflexivity.
Qed.

(** An outcome that appears where none was set was derived from the
    remaining counts. *)
Lemma update_game_end_state_derived self n g :
  _game_end_state self = None →
  _game_end_state (_update_game_end_state_after_n_draws self n) = Some g →
  _get_players_left_after_n_draws self n
  = match g with
    | PLAYER_1_WIN => [1]
    | PLAYER_2_WIN => [2]
    | GAME_DRAW => []
    end.
Proof.
  intros Hnone. rewrite update_game_end_state_cases, Hnone.
  destruct (_get_players_left_after_n_draws self n) as [|p [|q rest]];
    [| |discriminate].
  - intros H. simplify_eq. reflexivity.
  - destruct (decide (p = 1)) as [->|]; intros H; simplify_eq. reflexivity.
Qed.

Lemma update_game_end_state_players_left self n k :
  _get_players_left_after_n_draws (_update_game_end_state_after_n_draws self n) k
  = _get_players_left_after_n_draws self k.
Proof.
  destruct (update_game_end_state_set self n) as [g ->].
  destruct self; reflexivity.
Qed.

(** An accepted line keeps the protocol state and the derived outcome in
    agreement. *)
Lemma validate_line_outcome self line_str self' :
  default_configuration self →
  outcome_matches_state self →
  _validate_line self line_str = Ret (None, self') →
  outcome_matches_state self'.
Proof.
  intros Hcfg Hinv Hv.
  destruct (validate_line_step self line_str Hcfg)
    as (e & s' & Hv' & _ & _ & _ & Hok).
  rewrite Hv in Hv'. simplify_eq.
  destruct (Hok eq_refl) as (self1 & Hm & Hn & Hs').
  set (line := parse_line (_parser self) line_str) in *.
  destruct (validate_line_match_effects _ _ _ _ Hm) as (_ & _ & Hline).
  specialize (Hline eq_refl).
  assert (Hpl : ∀ k, _get_players_left_after_n_draws s' k
                     = _get_players_left_after_n_draws self1 k).
  { intros k. rewrite Hs'. destruct self1; reflexivity. }
  assert (Hges : _game_end_state s' = _game_end_state self1).
  { rewrite Hs' at 1. destruct self1; reflexivity. }
  unfold outcome_matches_state in *. rewrite Hges.
  rewrite (Hpl 0), (Hpl 2).
  unfold next_state in Hn.
  destruct (is_EmptyLine line) eqn:Hempty.
  { destruct line; try discriminate. subst self1. simplify_eq.
    rewrite <- Hn. exact Hinv. }
  destruct (_game_end_state self1) as [g|] eqn:Eg.
  - apply next_state_game_end_inv in Hn
      as [[Hhead ->] | [-> _]]; [|exact I].
    assert (Hd : ∃ k, (k = 0 ∨ k = 2)
                      ∧ self1 = _update_game_end_state_after_n_draws self k
                      ∧ _game_end_state self = None).
    { destruct Hhead as [[Hst [n Hl]] | [Hst (n & m & Hl)]];
        rewrite Hst in Hinv; rewrite Hl in Hline; eauto. }
    destruct Hd as (k & Hk & -> & Hnone).
    pose proof (update_game_end_state_derived self k g Hnone Eg) as Hder.
    rewrite ?update_game_end_state_players_left.
    destruct g; cbn; try reflexivity;
      (split; [reflexivity|]; destruct Hk as [-> | ->]; auto).
  - apply next_state_game_ongoing_inv in Hn as (N1 & N2 & N3 & N4 & _).
    destruct (validator_state s'); try reflexivity; congruence.
Qed.

(* --------------------------------------------------------------------- *)
(** ** The validator: all lines                                           *)
(* --------------------------------------------------------------------- *)

Lemma set_line_number_configuration n self :
  default_configuration self → default_configuration (set_line_number n self).
Proof. destruct self. exact (fun H => H). Qed.

Lemma set_line_number_outcome n self :
  outcome_matches_state self → outcome_matches_state (set_line_number n self).
Proof. destruct self. exact (fun H => H). Qed.

(** Accepted lines keep the configuration and the agreement of state and
    outcome, and advance the line number by one each. *)
Lemma run_lines_invariant lines self self' :
  default_configuration self →
  outcome_matches_state self →
  run_lines self lines = Some self' →
  default_configuration self'
  ∧ outcome_matches_state self'
  ∧ _line_number self' = _line_number self + Z.of_nat (length lines).
Proof.
  revert self. induction lines as [|line lines IH]; intros self Hcfg Hinv Hrun;
    cbn [run_lines] in Hrun.
  - simplify_eq. cbn [length]. split; [exact Hcfg|]. split; [exact Hinv|]. lia.
  - destruct (_validate_line self line) as [[[err|] s1]|] eqn:Hv;
      try discriminate.
    pose proof (validate_line_outcome _ _ _ Hcfg Hinv Hv) as Hinv1.
    destruct (validate_line_step self line Hcfg)
      as (e & s' & Hv' & Hcfg1 & Hln & _).
    rewrite Hv in Hv'. simplify_eq.
    destruct (IH _ (set_line_number_configuration _ _ Hcfg1)
                 (set_line_number_outcome _ _ Hinv1) Hrun)
      as (H1 & H2 & H3).
    split; [exact H1|]. split; [exact H2|]. rewrite H3. cbn [length].
    replace (_line_number (set_line_number (_line_number s' + 1) s'))
      with (_line_number s' + 1) by (destruct s'; reflexivity).
    lia.
Qed.

Lemma run_lines_app lines1 lines2 self self' :
  run_lines self (lines1 ++ lines2) = Some self' →
  ∃ mid, run_lines self lines1 = Some mid ∧ run_lines mid lines2 = Some self'.
Proof.
  revert self. induction lines1 as [|line lines1 IH]; intros self H.
  - eauto.
  - cbn [app run_lines] in *.
    destruct (_validate_line self line) as [[[err|] s1]|]; try discriminate.
    apply IH, H.
Qed.

(** After accepted lines [validate_lines] continues from the validator they
    lead to. *)
Lemma validate_lines_app lines1 lines2 self mid :
  run_lines self lines1 = Some mid →
  validate_lines self (lines1 ++ lines2) = validate_lines mid lines2.
Proof.
  revert self. induction lines1 as [|line lines1 IH]; intros self H;
    cbn [app run_lines validate_lines] in *.
  - simplify_eq. reflexivity.
  - destruct (_validate_line self line) as [[[err|] s1]|]; try discriminate.
    cbn [mbind outcome_bind]. apply IH, H.
Qed.

(** A run without error accepted every line. *)
Lemma validate_lines_accepted lines self res self' :
  validate_lines self lines = Ret (res, self') →
  res_error res = None →
  is_Some (run_lines self lines).
Proof.
  revert self. induction lines as [|line lines IH]; intros self H Hnone;
    cbn [run_lines validate_lines] in *.
  - eauto.
  - destruct (_validate_line self line) as [[[err|] s1]|];
      cbn [mbind outcome_bind] in H; try discriminate.
    + simplify_eq.
    + eapply IH; eauto.
Qed.

(** The result of [validate_lines] from any validator with the default
    configuration. *)
Lemma validate_lines_result lines self :
  default_configuration self →
  ∃ res self',
    validate_lines self lines = Ret (res, self')
    ∧ match res_error res with
      | None =>
          res_line_number res = _line_number self + Z.of_nat (length lines)
      | Some err =>
          if is_game_did_not_end err
          then res_line_number res
               = _line_number self + Z.of_nat (length lines)
          else ∃ before line after self_before self_after,
                 lines = before ++ line :: after
                 ∧ res_line_number res
                   = _line_number self + Z.of_nat (length before)
                 ∧ run_lines self before = Some self_before
                 ∧ _validate_line self_before line
                   = Ret (Some err, self_after)
      end.
Proof.
  revert self. induction lines as [|line lines IH]; intros self Hcfg;
    cbn [validate_lines].
  - destruct (_encountered_game_done_line self); cbn [negb];
      eexists _, _; (split; [reflexivity|]); cbn; lia.
  - destruct (validate_line_step self line Hcfg)
      as (e & s1 & Hv & Hcfg1 & Hln & Herr & _).
    rewrite Hv. cbn [mbind outcome_bind].
    destruct e as [err|].
    + eexists _, _. split; [reflexivity|]. cbn [res_error res_line_number].
      destruct (Herr err eq_refl) as [-> _].
      exists [], line, lines, self, s1. cbn [length app run_lines].
      split; [reflexivity|]. split; [lia|]. split; [reflexivity|exact Hv].
    + destruct (IH _ (set_line_number_configuration (_line_number s1 + 1) _ Hcfg1))
        as (res & self' & Hvl & Hres).
      exists res, self'. split; [exact Hvl|].
      replace (_line_number (set_line_number (_line_number s1 + 1) s1))
        with (_line_number self + 1) in Hres
        by (rewrite <- Hln; destruct s1; reflexivity).
      destruct (res_error res) as [err|].
      * destruct (is_game_did_not_end err).
        -- rewrite Hres. cbn [length]. lia.
        -- destruct Hres as (before & l & after & sb & sa & -> & Hn & Hr & Hf).
           exists (line :: before), l, after, sb, sa.
           cbn [length app run_lines]. rewrite Hv.
           split; [reflexivity|]. split; [rewrite Hn; lia|].
           split; [exact Hr|exact Hf].
      * rewrite Hres. cbn [length]. lia.
Qed.

(** C9: [validate_lines] on a fresh validator always returns a result.
    When the result carries no error, or the error that the game did not
    end, its line number is the number of input lines plus 1; any other
    error is the error of the first line that fails, and the line number is
    the 1-based index of that line. *)
Theorem validate_lines_line_number (lines : list string) :
  ∃ res self',
    validate_lines WarOutputValidator_default lines = Ret (res, self')
    ∧ match res_error res with
      | None => res_line_number res = Z.of_nat (length lines) + 1
      | Some err =>
          if is_game_did_not_end err
          then res_line_number res = Z.of_nat (length lines) + 1
          else ∃ before line after self_before self_after,
                 lines = before ++ line :: after
                 ∧ res_line_number res = Z.of_nat (length before) + 1
                 ∧ run_lines WarOutputValidator_default before
                   = Some self_before
                 ∧ _validate_line self_before line
                   = Ret (Some err, self_after)
      end.
Proof.
  destruct (validate_lines_result lines WarOutputValidator_default
              default_validator_configuration) as (res & self' & Hv & Hres).
  exists res, self'. split; [exact Hv|].
  change (_line_number WarOutputValidator_default) with 1 in Hres.
  destruct (res_error res) as [err|]; [|lia].
  destruct (is_game_did_not_end err); [lia|].
  destruct Hres as (before & l & after & sb & sa & H1 & H2 & H3 & H4).
  exists before, l, after, sb, sa.
  split; [exact H1|]. split; [lia|]. split; [exact H3|exact H4].
Qed.

(** The line numbers reported for an accepted game, a truncated game and a
    game with a forged card. *)
Example validate_line_number_examples :
  validate transcript_p1_sweep_wrong_count
  = Ret (mkValidationResult 159 NO_MORE_LINES None)
  ∧ validate ["Round 1"; "Player 1:"; "- Ace of Spades"]%string
    = Ret (mkValidationResult 4 REGULAR_PLAYER_2_LABEL
             (Some (ErrGameDidNotEnd REGULAR_PLAYER_2_LABEL NO_WAR None
                      [(1, 25); (2, 26)])))
  ∧ validate ["Round 1"; "Player 1:"; "- Ace of Spades"; "Player 2:";
              "- Ace of Spades"; "Round 2"]%string
    = Ret (mkValidationResult 5 REGULAR_PLAYER_2_CARD
             (Some (ErrNotInTopmostGroup (mkCard ACE SPADES) 2))).
Proof. repeat split; vm_compute; reflexivity. Qed.

(** A sequence of lines that is accepted leads to [validator_after]. *)
Lemma run_lines_validator_after lines :
  bool_decide (is_Some (run_lines WarOutputValidator_default lines)) = true →
  run_lines WarOutputValidator_default lines = Some (validator_after lines).
Proof.
  intros H. apply bool_decide_eq_true in H as [self H].
  unfold validator_after. rewrite H. reflexivity.
Qed.

(** C10: no transition leaves [NO_MORE_LINES] on a record that is not
    empty, whatever the war state and the game-end outcome; so once the
    accepted lines of a transcript have led the validator to
    [NO_MORE_LINES], a following line that is not blank fails, and the
    validation ends there with an error. *)
Theorem no_more_lines_is_final :
  (∀ line war_state game_end_state,
     is_EmptyLine line = false →
     next_state NO_MORE_LINES line war_state game_end_state = None)
  ∧ (∀ before line after self,
       run_lines WarOutputValidator_default before = Some self →
       validator_state self = NO_MORE_LINES →
       is_EmptyLine (parse_line LineParser_default line) = false →
       ∃ err,
         validate (before ++ line :: after)
         = Ret (mkValidationResult (Z.of_nat (length before) + 1)
                                   NO_MORE_LINES (Some err))).
Proof.
  split; [intros; apply next_state_no_more_lines; assumption|].
  intros before line after self Hrun Hstate Hne.
  destruct (run_lines_invariant _ _ _ default_validator_configuration
              default_validator_outcome Hrun) as (Hcfg & _ & Hln).
  change (_line_number WarOutputValidator_default) with 1 in Hln.
  unfold validate. rewrite (validate_lines_app _ (line :: after) _ _ Hrun).
  cbn [validate_lines].
  destruct (validate_line_step self line Hcfg)
    as (e & s1 & Hv & _ & Hln1 & Herr & Hok).
  rewrite Hv. cbn [mbind outcome_bind].
  destruct e as [err|].
  - destruct (Herr err eq_refl) as [_ Hst].
    exists err. cbn [mbind outcome_bind]. rewrite Hst, Hstate, Hln1, Hln.
    f_equal. f_equal. lia.
  - exfalso. destruct (Hok eq_refl) as (self1 & _ & Hn & _).
    destruct Hcfg as [Hp _]. rewrite Hp, Hstate in Hn.
    rewrite next_state_no_more_lines in Hn by exact Hne. discriminate.
Qed.

(** The theorem after the accepted game in which player 1 wins every
    round: a further round header fails at line 159. *)
Lemma no_more_lines_is_final_witness :
  next_state NO_MORE_LINES (RoundLine 28) NO_WAR (Some PLAYER_1_WIN) = None
  ∧ ∃ err,
      validate (transcript_p1_sweep_wrong_count ++ ["Round 28"%string])
      = Ret (mkValidationResult
               (Z.of_nat (length transcript_p1_sweep_wrong_count) + 1)
               NO_MORE_LINES (Some err)).
Proof.
  split.
  - apply (proj1 no_more_lines_is_final). reflexivity.
  - apply (proj2 no_more_lines_is_final transcript_p1_sweep_wrong_count
             "Round 28"%string []
             (validator_after transcript_p1_sweep_wrong_count)).
    + apply run_lines_validator_after. vm_compute. reflexivity.
    + vm_compute. reflexivity.
    + vm_compute. reflexivity.
Defined.

(** The card count of a game-winner line plays no part in its
    validation. *)
Lemma validate_line_game_winner_count self line line' p n n' :
  parse_line (_parser self) line = GameWinnerLine p n →
  parse_line (_parser self) line' = GameWinnerLine p n' →
  ∀ self1,
    _validate_line self line = Ret (None, self1) →
    _validate_line self line' = Ret (None, self1).
Proof.
  intros Hl Hl' self1. unfold _validate_line. rewrite Hl, Hl'.
  cbn [validate_line_match mbind outcome_bind].
  unfold update_state, next_state. cbn [is_EmptyLine]. fields.
  destruct self as [pa [st] cv cc rn ln wrn ws ges enc]. fields.
  destruct ges as [g|]; destruct st; cbn; try discriminate;
    try (destruct ws; cbn; discriminate);
    try (destruct ws; cbn; case_decide; discriminate);
    case_decide; intros Hv; try discriminate; exact Hv.
Qed.

(** A game-winner line is accepted only in the winner state of the player
    it names. *)
Lemma validate_line_game_winner_state self line p n self1 :
  parse_line (_parser self) line = GameWinnerLine p n →
  _validate_line self line = Ret (None, self1) →
  (p = 1 ∧ validator_state self = WINNER_PLAYER_1)
  ∨ (p = 2 ∧ validator_state self = WINNER_PLAYER_2).
Proof.
  intros Hl. unfold _validate_line. rewrite Hl.
  cbn [validate_line_match mbind outcome_bind].
  unfold update_state, next_state. cbn [is_EmptyLine]. fields.
  destruct self as [pa [st] cv cc rn ln wrn ws ges enc]. fields.
  destruct ges as [g|]; destruct st; cbn; try discriminate;
    try (destruct ws; cbn; discriminate);
    try (destruct ws; cbn; case_decide; discriminate);
    case_decide; intros Hv; try discriminate; auto.
Qed.

(** C2, as stated, fails: the transcript in which player 1 wins all 26
    rounds and is then declared winner with 7 cards is accepted, although
    player 1 holds 52 cards when the game ends. *)
Lemma wrong_card_count_accepted :
  validate transcript_p1_sweep_wrong_count
  = Ret (mkValidationResult 159 NO_MORE_LINES None)
  ∧ List.last transcript_p1_sweep_wrong_count ""%string
    = "Player 1 wins with 7 cards in their deck"%string
  ∧ parse_line LineParser_default "Player 1 wins with 7 cards in their deck"
    = GameWinnerLine 1 7
  ∧ get_player_cards_left
      (_card_validator (validator_after transcript_p1_sweep_wrong_count))
    = [(1, 52); (2, 0)].
Proof. repeat split; vm_compute; reflexivity. Qed.

(** C2, amended: a transcript is accepted only if its game-winner line
    names the derived winning player: the line is met in the winner state
    of that player, entered with the outcome derived from the remaining
    counts (that player alone has more cards than the draws ahead).  The
    declared card count lies in [0, 52], as the classifier requires, and is
    not compared with the remaining count: the same transcript with any
    other such count in that line has the same result. *)
Theorem game_winner_line_names_derived_winner
    (before after : list string) (line : string) (p n : Z)
    (res : ValidationResult) :
  parse_line LineParser_default line = GameWinnerLine p n →
  validate (before ++ line :: after) = Ret res →
  res_error res = None →
  (∃ self,
     run_lines WarOutputValidator_default before = Some self
     ∧ ((p = 1 ∧ _game_end_state self = Some PLAYER_1_WIN
         ∧ (_get_players_left_after_n_draws self 0 = [1]
            ∨ _get_players_left_after_n_draws self 2 = [1]))
        ∨ (p = 2 ∧ _game_end_state self = Some PLAYER_2_WIN
           ∧ (_get_players_left_after_n_draws self 0 = [2]
              ∨ _get_players_left_after_n_draws self 2 = [2]))))
  ∧ 0 ≤ n ≤ 52
  ∧ ∀ line' n',
      parse_line LineParser_default line' = GameWinnerLine p n' →
      validate (before ++ line' :: after) = Ret res.
Proof.
  intros Hl Hv Hnone. unfold validate in Hv.
  destruct (validate_lines WarOutputValidator_default (before ++ line :: after))
    as [[res0 final]|] eqn:Hvl; cbn [mbind outcome_bind] in Hv;
    [|discriminate].
  simplify_eq.
  destruct (validate_lines_accepted _ _ _ _ Hvl Hnone) as [final' Hrun].
  apply run_lines_app in Hrun as (self & Hbefore & Hrest).
  destruct (run_lines_invariant _ _ _ default_validator_configuration
              default_validator_outcome Hbefore) as (Hcfg & Hinv & _).
  assert (Hp : _parser self = LineParser_default) by apply Hcfg.
  cbn [run_lines] in Hrest.
  destruct (_validate_line self line) as [[[err|] s1]|] eqn:Hline;
    try discriminate.
  split; [|split].
  - exists self. split; [exact Hbefore|].
    rewrite <- Hp in Hl.
    destruct (validate_line_game_winner_state _ _ _ _ _ Hl Hline)
      as [[-> Hst] | [-> Hst]]; unfold outcome_matches_state in Hinv;
      rewrite Hst in Hinv; destruct Hinv as [Hg Hd]; auto.
  - apply (parse_line_game_winner_range _ _ _ Hl).
  - intros line' n' Hl'. unfold validate.
    rewrite (validate_lines_app _ (line' :: after) _ _ Hbefore).
    rewrite (validate_lines_app _ (line :: after) _ _ Hbefore) in Hvl.
    cbn [validate_lines] in *.
    rewrite <- Hp in Hl, Hl'.
    rewrite (validate_line_game_winner_count _ _ _ _ _ _ Hl Hl' _ Hline).
    rewrite Hline in Hvl. rewrite Hvl. reflexivity.
Qed.

(** The theorem on the accepted game of player 1 declared with 7 cards:
    the line names the derived winner, and declaring 52 cards instead gives
    the same result. *)
Lemma game_winner_line_names_derived_winner_witness :
  (∃ self,
     run_lines WarOutputValidator_default
       (sweep 1 1 winning_pairs ++ ["Round 27"%string]) = Some self
     ∧ ((1 = 1 ∧ _game_end_state self = Some PLAYER_1_WIN
         ∧ (_get_players_left_after_n_draws self 0 = [1]
            ∨ _get_players_left_after_n_draws self 2 = [1]))
        ∨ (1 = 2 ∧ _game_end_state self = Some PLAYER_2_WIN
           ∧ (_get_players_left_after_n_draws self 0 = [2]
              ∨ _get_players_left_after_n_draws self 2 = [2]))))
  ∧ 0 ≤ 7 ≤ 52
  ∧ ∀ line' n',
      parse_line LineParser_default line' = GameWinnerLine 1 n' →
      validate ((sweep 1 1 winning_pairs ++ ["Round 27"%string])
                ++ line' :: [])
      = Ret (mkValidationResult 159 NO_MORE_LINES None).
Proof.
  apply (game_winner_line_names_derived_winner
           (sweep 1 1 winning_pairs ++ ["Round 27"%string]) []
           "Player 1 wins with 7 cards in their deck"%string 1 7
           (mkValidationResult 159 NO_MORE_LINES None)).
  - vm_compute. reflexivity.
  - vm_compute. reflexivity.
  - reflexivity.
Defined.

(** Neither a draw nor a win of player 2 is ever derived for player 2
    alone: the outcome, when it changes, becomes the draw or the win of
    player 1. *)
Lemma update_game_end_state_never_player_2 self n :
  _game_end_state (_update_game_end_state_after_n_draws self n)
  = Some PLAYER_2_WIN →
  _game_end_state self = Some PLAYER_2_WIN.
Proof.
  rewrite update_game_end_state_cases.
  repeat case_match; intros Hg; try discriminate; exact Hg.
Qed.

(** C1 at the failing input: after the 26 rounds won by player 2, player 1
    has no card left and player 2 has 52; player 2 is the only player with
    cards left, yet the header of round 27 derives no outcome, the machine
    goes on to expect the label of player 1, and the line declaring
    player 2 the winner is rejected. *)
Theorem player_2_sole_survivor_not_derived :
  get_player_cards_left
    (_card_validator (validator_after (sweep 2 1 winning_pairs)))
  = [(1, 0); (2, 52)]
  ∧ _get_players_left_after_n_draws
      (validator_after (sweep 2 1 winning_pairs)) 0 = [2]
  ∧ _game_end_state
      (_update_game_end_state_after_n_draws
         (validator_after (sweep 2 1 winning_pairs)) 0) = None
  ∧ validator_state (validator_after transcript_p2_sweep)
    = REGULAR_PLAYER_1_LABEL
  ∧ validate (transcript_p2_sweep
              ++ ["Player 2 wins with 52 cards in their deck"%string])
    = Ret (mkValidationResult 158 REGULAR_PLAYER_1_LABEL
             (Some (ErrUnexpectedLine (GameWinnerLine 2 52)
                      REGULAR_PLAYER_1_LABEL NO_WAR None [(1, 0); (2, 52)]))).
Proof. repeat split; vm_compute; reflexivity. Qed.

(** The same game won by player 1 derives the win of player 1. *)
Example player_1_sole_survivor_derived :
  _get_players_left_after_n_draws
    (validator_after (sweep 1 1 winning_pairs)) 0 = [1]
  ∧ _game_end_state
      (_update_game_end_state_after_n_draws
         (validator_after (sweep 1 1 winning_pairs)) 0) = Some PLAYER_1_WIN.
Proof. repeat split; vm_compute; reflexivity. Qed.

(* ===================================================================== *)
(** * Further properties                                                  *)
(* ===================================================================== *)

(* --------------------------------------------------------------------- *)
(** ** Ranks, suits and cards                                             *)
(* --------------------------------------------------------------------- *)

(** [Rank.from_str] and [Suit.from_str] invert the member values: a string
    names a rank (or suit) exactly when it is the value of that member,
    letter for letter. *)
Theorem from_str_value :
  (∀ s r, Rank_from_str s = Some r ↔ s = Rank_value r)
  ∧ (∀ s x, Suit_from_str s = Some x ↔ s = Suit_value x).
Proof.
  split.
  - intros s r. split.
    + unfold Rank_from_str. intros H. apply List.find_some in H as [_ H].
      apply String.eqb_eq in H. congruence.
    + intros ->. destruct r; reflexivity.
  - intros s x. split.
    + unfold Suit_from_str. intros H. apply List.find_some in H as [_ H].
      apply String.eqb_eq in H. congruence.
    + intros ->. destruct x; reflexivity.
Qed.

(** [Card.standard_cards] lists each of the 52 cards exactly once. *)
Theorem standard_cards_complete :
  length standard_cards = 52%nat
  ∧ NoDup standard_cards
  ∧ ∀ c : Card, c ∈ standard_cards.
Proof.
  split; [reflexivity|]. split.
  - apply (bool_decide_unpack _). vm_compute. exact I.
  - intros [[] []]; apply (bool_decide_unpack _); vm_compute; exact I.
Qed.

(** The text of a card ([Card.__str__]) is read back by the classifier: a
    card line made from it is the face-up record of that card, with the
    face-down suffix the face-down record, and inside a round-winner line of
    player 1 or 2 the round-winner record. *)
Theorem card_text_round_trip (c : Card) :
  parse_line LineParser_default ("- " ++ card_text c)%string
  = FaceUpCardLine (rank c) (suit c)
  ∧ parse_line LineParser_default ("- " ++ card_text c ++ " (face down)")%string
    = FaceDownCardLine (rank c) (suit c)
  ∧ parse_line LineParser_default
      ("Round winner: Player 1 (" ++ card_text c ++ ")")%string
    = RoundWinnerLine 1 (rank c) (suit c)
  ∧ parse_line LineParser_default
      ("Round winner: Player 2 (" ++ card_text c ++ ")")%string
    = RoundWinnerLine 2 (rank c) (suit c).
Proof.
  destruct c as [[] []]; repeat split; vm_compute; reflexivity.
Qed.

(* --------------------------------------------------------------------- *)
(** ** The classifier: white space and the shape of records               *)
(* --------------------------------------------------------------------- *)

Section WhiteSpace.

Local Open Scope string_scope.

Lemma lstrip_empty_iff s : lstrip s = "" ↔ all_chars is_space s = true.
Proof.
  induction s as [|c s IH]; cbn; [tauto|].
  destruct (is_space c); cbn; [exact IH|]. split; discriminate.
Qed.

Lemma lstrip_head s c t : lstrip s = String c t → is_space c = false.
Proof.
  induction s as [|c' s IH]; cbn; [discriminate|].
  destruct (is_space c') eqn:E; [exact IH|]. intros H. simplify_eq. exact E.
Qed.

Lemma lstrip_space_prefix a s :
  all_chars is_space a = true → lstrip (a ++ s) = lstrip s.
Proof.
  induction a as [|c a IH]; [reflexivity|].
  rewrite append_cons. cbn. intros H. apply andb_prop in H as [-> Ha].
  exact (IH Ha).
Qed.

Lemma lstrip_app s b :
  lstrip (s ++ b)
  = if all_chars is_space s then lstrip b else lstrip s ++ b.
Proof.
  induction s as [|c s IH]; [reflexivity|].
  rewrite append_cons. cbn. destruct (is_space c); cbn; [exact IH|].
  rewrite append_cons. reflexivity.
Qed.

Lemma rstrip_cons c s :
  rstrip (String c s)
  = match rstrip s with
    | "" => if is_space c then "" else String c ""
    | String c' r => String c (String c' r)
    end.
Proof. reflexivity. Qed.

Lemma rstrip_space_empty b : all_chars is_space b = true → rstrip b = "".
Proof.
  induction b as [|c b IH]; [reflexivity|].
  cbn [all_chars]. intros H. apply andb_prop in H as [Hc Hb].
  rewrite rstrip_cons, (IH Hb), Hc. reflexivity.
Qed.

Lemma rstrip_space_suffix s b :
  all_chars is_space b = true → rstrip (s ++ b) = rstrip s.
Proof.
  intros Hb. induction s as [|c s IH].
  - rewrite append_nil. apply rstrip_space_empty, Hb.
  - rewrite append_cons, !rstrip_cons, IH. reflexivity.
Qed.

Lemma rstrip_head_kept c s : is_space c = false → rstrip (String c s) ≠ "".
Proof.
  intros Hc. rewrite rstrip_cons, Hc. destruct (rstrip s); discriminate.
Qed.

(** [strip] gives the empty string exactly on strings of white space. *)
Lemma strip_empty_iff s : strip s = "" ↔ all_chars is_space s = true.
Proof.
  unfold strip. rewrite <- lstrip_empty_iff. split.
  - destruct (lstrip s) as [|c t] eqn:E; [reflexivity|].
    intros H. exfalso. apply lstrip_head in E.
    exact (rstrip_head_kept c t E H).
  - intros ->. reflexivity.
Qed.

(** White space around a string does not change what [strip] gives. *)
Lemma strip_padding a s b :
  all_chars is_space a = true →
  all_chars is_space b = true →
  strip (a ++ s ++ b) = strip s.
Proof.
  intros Ha Hb. unfold strip.
  rewrite (lstrip_space_prefix a _ Ha), lstrip_app.
  destruct (all_chars is_space s) eqn:Hs.
  - apply lstrip_empty_iff in Hs. rewrite Hs.
    apply lstrip_empty_iff in Hb. rewrite Hb. reflexivity.
  - apply rstrip_space_suffix, Hb.
Qed.

(** No rule yields the empty or the malformed record. *)
Lemma rule_result_kind self r s l :
  rule_result self r s = Some l →
  l ≠ EmptyLine ∧ ∀ t, l ≠ MalformedLine t.
Proof.
  destruct r; cbn [rule_result]; unfold mbind, option_bind; intros H;
    repeat case_match; simplify_eq; split; try intros t; discriminate.
Qed.

(** The surrounding white space of a line is ignored: a line without line
    feed and the same line between runs of white space classify alike. *)
Theorem parse_line_padding (self : LineParser) (a s b : string) :
  all_chars is_space a = true →
  all_chars is_space b = true →
  contains_newline (a ++ s ++ b) = false →
  parse_line self (a ++ s ++ b) = parse_line self s.
Proof.
  intros Ha Hb Hnl. unfold parse_line. rewrite Hnl.
  rewrite !contains_newline_app in Hnl.
  apply orb_false_elim in Hnl as [_ Hnl].
  apply orb_false_elim in Hnl as [-> _].
  rewrite (strip_padding a s b Ha Hb). reflexivity.
Qed.

(** The theorem on a padded round header. *)
Lemma parse_line_padding_witness :
  parse_line LineParser_default ("  " ++ "Round 12" ++ " ")
  = parse_line LineParser_default "Round 12".
Proof.
  apply (parse_line_padding LineParser_default "  " "Round 12" " ");
    reflexivity.
Defined.

(** A line classifies as empty exactly when it has no line feed and is made
    of white space only (possibly of nothing). *)
Theorem parse_line_empty_iff (self : LineParser) (line : string) :
  parse_line self line = EmptyLine
  ↔ contains_newline line = false ∧ all_chars is_space line = true.
Proof.
  rewrite parse_line_classify_fallthrough. unfold classify_fallthrough.
  rewrite <- strip_empty_iff. split.
  - destruct (contains_newline line); [discriminate|].
    destruct (String.eqb_spec (strip line) "") as [E|_]; [auto|].
    destruct (first_success self rules_in_priority_order (strip line))
      as [l|] eqn:Hl; cbn [from_option id]; [|discriminate].
    intros ->. apply first_success_Some in Hl as [r Hr].
    apply rule_result_kind in Hr as [Hr _]. congruence.
  - intros [-> ->]. reflexivity.
Qed.

(** A malformed record carries the whole line when the line has a line
    feed, and the trimmed line otherwise. *)
Theorem parse_line_malformed_text (self : LineParser) (line t : string) :
  parse_line self line = MalformedLine t →
  t = if contains_newline line then line else strip line.
Proof.
  rewrite parse_line_classify_fallthrough. unfold classify_fallthrough.
  destruct (contains_newline line); [congruence|].
  destruct (String.eqb (strip line) ""); [discriminate|].
  destruct (first_success self rules_in_priority_order (strip line))
    as [l|] eqn:Hl; cbn [from_option id]; [|congruence].
  intros ->. apply first_success_Some in Hl as [r Hr].
  apply rule_result_kind in Hr as [_ Hr]. exfalso. exact (Hr t eq_refl).
Qed.

(** The theorem on a label with a player number out of range, between
    white space. *)
Lemma parse_line_malformed_text_witness :
  "Player 3:" = if contains_newline "  Player 3: " then "  Player 3: "
                else strip "  Player 3: ".
Proof.
  apply (parse_line_malformed_text LineParser_default "  Player 3: " "Player 3:").
  reflexivity.
Defined.

End WhiteSpace.

Lemma digit_value_range c : is_digit c = true → 0 ≤ digit_value c ≤ 9.
Proof.
  unfold is_digit, digit_value. intros H. apply andb_prop in H as [H1 H2].
  apply N.leb_le in H1. apply N.leb_le in H2. lia.
Qed.

Lemma decimal_value_nonneg s acc :
  all_chars is_digit s = true → 0 ≤ acc → 0 ≤ decimal_value acc s.
Proof.
  revert acc. induction s as [|c s IH]; intros acc H Hacc; cbn; [exact Hacc|].
  cbn in H. apply andb_prop in H as [Hc Hs].
  apply IH; [exact Hs|]. pose proof (digit_value_range c Hc). lia.
Qed.

Lemma int_of_digits_nonneg s n :
  all_chars is_digit s = true → int_of_digits s = Some n → 0 ≤ n.
Proof.
  unfold int_of_digits. intros Hs.
  destruct (String.length s <=? int_max_str_digits)%nat; intros Hn;
    simplify_eq.
  apply decimal_value_nonneg; [exact Hs | lia].
Qed.

(** The groups captured with [\d+] are made of digits. *)
Lemma many1_digits s a r :
  many1 is_digit s = Some (a, r) → all_chars is_digit a = true.
Proof. intros H. apply many1_Some in H as (_ & _ & H). exact H. Qed.

Lemma round_line_pattern_digits s m :
  _round_line_pattern s = Some m → all_chars is_digit m = true.
Proof.
  unfold _round_line_pattern. intros H. unbind H. simplify_eq.
  eauto using many1_digits.
Qed.

Lemma war_round_line_pattern_digits s m1 m2 :
  _war_round_line_pattern s = Some (m1, m2) →
  all_chars is_digit m1 = true ∧ all_chars is_digit m2 = true.
Proof.
  unfold _war_round_line_pattern. intros H. unbind H. simplify_eq.
  eauto using many1_digits.
Qed.

(** A record yielded by a rule is well formed. *)
Lemma rule_result_well_formed self r s l :
  rule_result self r s = Some l → well_formed_record self l.
Proof.
  destruct r; cbn [rule_result]; unfold mbind, option_bind; intros H;
    repeat case_match; simplify_eq; cbn [well_formed_record];
    repeat match goal with
           | H : andb _ _ = true |- _ => apply andb_prop in H as [? ?]
           | H : bool_decide _ = true |- _ => apply bool_decide_eq_true in H
           | H : _round_line_pattern _ = Some _ |- _ =>
               apply round_line_pattern_digits in H
           | H : _war_round_line_pattern _ = Some _ |- _ =>
               apply war_round_line_pattern_digits in H as [? ?]
           end;
    eauto using int_of_digits_nonneg.
Qed.

(** Every record the classifier returns is well formed: its numbers are not
    negative, its player numbers are valid ones, and a declared card count
    lies between 0 and the maximum. *)
Theorem parse_line_well_formed (self : LineParser) (line : string) :
  well_formed_record self (parse_line self line).
Proof.
  rewrite parse_line_classify_fallthrough. unfold classify_fallthrough.
  destruct (contains_newline line); [exact I|].
  destruct (String.eqb (strip line) ""); [exact I|].
  destruct (first_success self rules_in_priority_order (strip line))
    as [l|] eqn:Hl; cbn [from_option id]; [|exact I].
  apply first_success_Some in Hl as [r Hr].
  exact (rule_result_well_formed _ _ _ _ Hr).
Qed.

(* --------------------------------------------------------------------- *)
(** ** The protocol machine: what each state accepts                      *)
(* --------------------------------------------------------------------- *)

(** Every state accepts, besides empty records, only the record it is named
    after, with the player number of its name; [NO_MORE_LINES] accepts
    none. *)
Theorem next_state_expected_line
    (state : ParseState) (line : Line) (war_state : WarState)
    (game_end_state : option GameEndState) (next : ParseState) :
  next_state state line war_state game_end_state = Some next →
  line = EmptyLine ∨ expected_line state line = true.
Proof.
  unfold next_state. destruct (is_EmptyLine line) eqn:He.
  { destruct line; try discriminate. auto. }
  intros H. right. destruct game_end_state as [g|].
  - destruct state, line; cbn in H; try discriminate; try reflexivity;
      try (destruct g; discriminate);
      case_decide; try discriminate; subst; reflexivity.
  - destruct state, line; cbn in H; try discriminate; try reflexivity;
      try (destruct war_state; discriminate);
      destruct war_state; try discriminate;
      case_decide; try discriminate; subst; reflexivity.
Qed.

(** The theorem on the label of player 1 in a regular round. *)
Lemma next_state_expected_line_witness :
  PlayerLabelLine 1 = EmptyLine
  ∨ expected_line REGULAR_PLAYER_1_LABEL (PlayerLabelLine 1) = true.
Proof.
  apply (next_state_expected_line REGULAR_PLAYER_1_LABEL (PlayerLabelLine 1)
           NO_WAR None REGULAR_PLAYER_1_CARD).
  reflexivity.
Defined.

(** The two phases are separate.  On a record that is not empty, without a
    derived outcome the machine moves between the states of the round and
    war pipelines only; with a derived outcome it moves into the closing
    states only, whatever the war state. *)
Theorem next_state_phases
    (state : ParseState) (line : Line) (war_state : WarState)
    (game_end_state : option GameEndState) (next : ParseState) :
  is_EmptyLine line = false →
  next_state state line war_state game_end_state = Some next →
  match game_end_state with
  | None => is_closing_state state = false ∧ is_closing_state next = false
  | Some g =>
      is_closing_state next = true
      ∧ ∀ war_state',
          next_state state line war_state' (Some g) = Some next
  end.
Proof.
  intros He. unfold next_state. rewrite He.
  destruct game_end_state as [g|]; intros H.
  - split; [|auto].
    apply next_state_game_end_inv in H as [[_ ->] | [-> _]];
      [destruct g|]; reflexivity.
  - apply next_state_game_ongoing_inv in H
      as (N1 & N2 & N3 & N4 & S1 & S2 & S3 & S4 & _).
    split; [destruct state | destruct next]; try reflexivity; congruence.
Qed.

(** The theorem at a round header that ends the game with a draw. *)
Lemma next_state_phases_witness :
  is_closing_state DRAW = true
  ∧ ∀ war_state',
      next_state REGULAR_ROUND (RoundLine 27) war_state' (Some GAME_DRAW)
      = Some DRAW.
Proof.
  apply (next_state_phases REGULAR_ROUND (RoundLine 27) NO_WAR
           (Some GAME_DRAW) DRAW); reflexivity.
Defined.

(* --------------------------------------------------------------------- *)
(** ** The deck tracker: decks and cards in play                          *)
(* --------------------------------------------------------------------- *)

Lemma deck_cards_cons group rest :
  deck_cards (group :: rest) = group ∪ deck_cards rest.
Proof. reflexivity. Qed.

Lemma deck_cards_app deck group :
  deck_cards (deck ++ [group]) = deck_cards deck ∪ group.
Proof.
  unfold deck_cards. rewrite union_list_app_L. cbn. set_solver.
Qed.

Lemma groups_disjoint_app deck group :
  groups_disjoint deck → deck_cards deck ## group →
  groups_disjoint (deck ++ [group]).
Proof.
  induction deck as [|g deck IH]; cbn [app groups_disjoint].
  - intros _ _. split; [|exact I]. unfold deck_cards. cbn. set_solver.
  - intros [Hg Hd] Hdis. rewrite deck_cards_cons in Hdis.
    split; [rewrite deck_cards_app; set_solver|].
    apply IH; [exact Hd | set_solver].
Qed.

(** On a deck without repeated cards [remove_if_present] removes the card
    from the deck and keeps the groups apart. *)
Lemma remove_if_present_cards card deck :
  groups_disjoint deck →
  deck_cards (remove_if_present card deck) = deck_cards deck ∖ {[card]}
  ∧ groups_disjoint (remove_if_present card deck).
Proof.
  induction deck as [|g deck IH]; cbn [remove_if_present groups_disjoint].
  - intros _. split; [|exact I]. unfold deck_cards. cbn. set_solver.
  - intros [Hg Hd]. destruct (IH Hd) as [IH1 IH2].
    destruct (decide (card ∈ g)) as [Hin|Hin].
    + rewrite (bool_decide_eq_true_2 _ Hin).
      destruct (decide (g ∖ {[card]} = ∅)) as [Hempty|Hempty].
      * rewrite (bool_decide_eq_true_2 _ Hempty).
        split; [|exact Hd]. rewrite deck_cards_cons. set_solver.
      * rewrite (bool_decide_eq_false_2 _ Hempty).
        rewrite !deck_cards_cons. split; [set_solver|].
        cbn [groups_disjoint]. split; [set_solver | exact Hd].
    + rewrite (bool_decide_eq_false_2 _ Hin).
      rewrite !deck_cards_cons, IH1. split; [set_solver|].
      cbn [groups_disjoint]. split; [rewrite IH1; set_solver | exact IH2].
Qed.

Lemma can_draw_deck_cards card deck :
  can_draw card deck = true → card ∈ deck_cards deck.
Proof.
  destruct deck as [|g deck]; unfold can_draw; [discriminate|].
  intros H. apply bool_decide_eq_true in H. rewrite deck_cards_cons.
  set_solver.
Qed.

Lemma pdict_get_Forall {V} (P : PlayerId * V → Prop) k (d : pdict V) v :
  Forall P d → pdict_get k d = Some v → ∃ k', P (k', v).
Proof.
  induction 1 as [|[k0 v0] d HP _ IH]; cbn; [discriminate|].
  destruct (decide (k0 = k)); [|exact IH]. intros H. simplify_eq. eauto.
Qed.

Lemma pdict_set_Forall {V} (P : V → Prop) k v (d : pdict V) :
  Forall (fun '(_, x) => P x) d → P v →
  Forall (fun '(_, x) => P x) (pdict_set k v d).
Proof.
  induction 1 as [|[k0 v0] d HP Hd IH]; intros Hv; cbn.
  - repeat constructor. exact Hv.
  - destruct (decide (k0 = k)); constructor; auto.
Qed.

Lemma default_cards_kept_apart :
  cards_kept_apart CardConsistencyValidator_default.
Proof.
  split; [reflexivity|]. cbn.
  repeat constructor; unfold deck_cards; cbn; set_solver.
Qed.

(** A successful operation keeps the cards apart. *)
Lemma apply_op_cards_kept_apart self op self' :
  cards_kept_apart self →
  apply_op self op = Some self' →
  cards_kept_apart self'.
Proof.
  intros [Hown Hdecks] Hop. destruct op as [card p | p]; cbn in Hop.
  - destruct (card_played_by self card p) as [[[e|] s]|] eqn:E; try discriminate.
    simplify_eq.
    apply card_played_by_success in E as (Hnin & _ & count & _ & ->).
    split; cbn; [rewrite Hown; apply delete_empty|].
    apply Forall_map. eapply Forall_impl; [exact Hdecks|].
    intros [q deck] [Hd Hdis]. cbn.
    destruct (remove_if_present_cards card deck Hd) as [-> Hd'].
    split; [exact Hd' | set_solver].
  - destruct (cards_in_play_taken_by self p) as [[[e|] s]|] eqn:E; try discriminate.
    simplify_eq.
    unfold cards_in_play_taken_by, _cards_added_to_deck_bottom, pdict_item in E.
    rewrite validate_cards_added_rules_in_play in E.
    destruct (pdict_get p (_card_group_decks self)) as [deck|] eqn:Ed;
      [|discriminate].
    cbn in E.
    destruct (pdict_get p (_actual_card_counts self)) as [count|] eqn:Ec;
      [|discriminate].
    cbn in E. simplify_eq. split; [exact Hown|]. cbn.
    destruct (pdict_get_Forall _ _ _ _ Hdecks Ed) as [_ [Hd Hdis]].
    apply (pdict_set_Forall
             (fun deck => groups_disjoint deck ∧ deck_cards deck ## ∅)).
    + eapply Forall_impl; [exact Hdecks|].
      intros [q d] [H1 H2]. split; [exact H1 | set_solver].
    + unfold add_set_to_bottom. split; [|set_solver].
      apply groups_disjoint_app; assumption.
Qed.

Lemma run_ops_cards_kept_apart ops self self' :
  cards_kept_apart self →
  run_ops self ops = Some self' →
  cards_kept_apart self'.
Proof.
  revert self. induction ops as [|op ops IH]; intros self Hk H; cbn in H.
  - simplify_eq. exact Hk.
  - destruct (apply_op self op) as [s|] eqn:E; [|discriminate].
    eapply IH; [|exact H]. eapply apply_op_cards_kept_apart; eauto.
Qed.

(** What [cards_kept_apart] says of the decks one by one. *)
Lemma cards_kept_apart_decks (self : CardConsistencyValidator) :
  cards_kept_apart self →
  _owner self = ∅
  ∧ ∀ player_id deck,
      pdict_get player_id (_card_group_decks self) = Some deck →
      groups_disjoint deck
      ∧ ∀ card, card ∈ _cards_in_play self →
                (card ∉ deck_cards deck) ∧ can_draw card deck = false.
Proof.
  intros [Hown Hdecks].
  split; [exact Hown|]. intros p deck Hd.
  destruct (pdict_get_Forall _ _ _ _ Hdecks Hd) as [_ [Hg Hdis]].
  split; [exact Hg|]. intros card Hin.
  assert (Hnin : card ∉ deck_cards deck) by set_solver.
  split; [exact Hnin|].
  destruct (can_draw card deck) eqn:E; [|reflexivity].
  exfalso. apply Hnin, can_draw_deck_cards, E.
Qed.

(** In every tracker reached from the standard start through successful
    operations the owner map is empty, no deck holds a card twice, and a
    card in play is in no deck, so that no player can draw it. *)
Theorem reachable_cards_kept_apart
    (ops : list TrackerOp) (self : CardConsistencyValidator) :
  run_ops CardConsistencyValidator_default ops = Some self →
  _owner self = ∅
  ∧ ∀ player_id deck,
      pdict_get player_id (_card_group_decks self) = Some deck →
      groups_disjoint deck
      ∧ ∀ card, card ∈ _cards_in_play self →
                (card ∉ deck_cards deck) ∧ can_draw card deck = false.
Proof.
  intros Hrun. apply cards_kept_apart_decks.
  exact (run_ops_cards_kept_apart _ _ _ default_cards_kept_apart Hrun).
Qed.

(** The theorem after one card played by each player. *)
Lemma reachable_cards_kept_apart_witness :
  let self :=
    tracker_after [PlayCard (mkCard ACE SPADES) 1; PlayCard (mkCard KING SPADES) 2] in
  _owner self = ∅
  ∧ ∀ player_id deck,
      pdict_get player_id (_card_group_decks self) = Some deck →
      groups_disjoint deck
      ∧ ∀ card, card ∈ _cards_in_play self →
                (card ∉ deck_cards deck) ∧ can_draw card deck = false.
Proof.
  apply (reachable_cards_kept_apart
           [PlayCard (mkCard ACE SPADES) 1; PlayCard (mkCard KING SPADES) 2]).
  apply run_ops_tracker_after. vm_compute. reflexivity.
Defined.

(** In every tracker reached from the standard start, a play by player 1 or
    2 succeeds exactly when the card is in the first group of that player's
    deck; otherwise the call returns the error that the card is not in the
    topmost group and leaves the tracker as it was.  The errors about
    another owner and about a card already in play are never returned. *)
Theorem card_played_by_reachable
    (ops : list TrackerOp) (self : CardConsistencyValidator)
    (card : Card) (player_id : PlayerId) :
  run_ops CardConsistencyValidator_default ops = Some self →
  player_id = 1 ∨ player_id = 2 →
  ∃ deck,
    pdict_get player_id (_card_group_decks self) = Some deck
    ∧ if can_draw card deck
      then ∃ self', card_played_by self card player_id = Ret (None, self')
      else card_played_by self card player_id
           = Ret (Some (ErrNotInTopmostGroup card player_id), self).
Proof.
  intros Hrun Hp.
  destruct (cards_kept_apart_decks self
              (run_ops_cards_kept_apart _ _ _ default_cards_kept_apart Hrun))
    as [Hown Hplay].
  pose proof (run_ops_tracks_two_players _ _ _ default_tracks_two_players Hrun)
    as Ht.
  destruct (tracks_two_players_get self player_id Ht Hp)
    as [[deck Hd] [count Hc]].
  exists deck. split; [exact Hd|].
  unfold card_played_by, _validate_played_card_rules,
    _ensure_card_not_duplicated, _ensure_card_in_deck,
    _ensure_card_not_in_play, pdict_item.
  rewrite Hown, lookup_empty, Hd, Hc. cbn.
  destruct (can_draw card deck) eqn:Hdraw; cbn; [|reflexivity].
  case_bool_decide as Hin; cbn; [|eauto].
  exfalso. destruct (Hplay player_id deck Hd) as [_ Hcard].
  destruct (Hcard card Hin) as [_ Hno]. congruence.
Qed.

(** The theorem after one card played by each player, for a further card of
    player 2. *)
Lemma card_played_by_reachable_witness :
  let self :=
    tracker_after [PlayCard (mkCard ACE SPADES) 1; PlayCard (mkCard KING SPADES) 2] in
  ∃ deck,
    pdict_get 2 (_card_group_decks self) = Some deck
    ∧ if can_draw (mkCard TWO HEARTS) deck
      then ∃ self', card_played_by self (mkCard TWO HEARTS) 2 = Ret (None, self')
      else card_played_by self (mkCard TWO HEARTS) 2
           = Ret (Some (ErrNotInTopmostGroup (mkCard TWO HEARTS) 2), self).
Proof.
  apply (card_played_by_reachable
           [PlayCard (mkCard ACE SPADES) 1; PlayCard (mkCard KING SPADES) 2]).
  - apply run_ops_tracker_after. vm_compute. reflexivity.
  - right. reflexivity.
Defined.

Lemma CardGroupDeck_len_cons group rest :
  CardGroupDeck_len (group :: rest)
  = Z.of_nat (size group) + CardGroupDeck_len rest.
Proof. reflexivity. Qed.

(** The length of a deck ([__len__]) under its two updates:
    [remove_if_present] takes one card away when some group holds the card
    and none otherwise, and leaves no empty group behind where there was
    none; [add_set_to_bottom] adds the size of the new group. *)
Theorem CardGroupDeck_len_updates (card : Card) (cards : gset Card)
    (deck : CardGroupDeck) :
  CardGroupDeck_len (remove_if_present card deck)
  = CardGroupDeck_len deck - (if in_some_group card deck then 1 else 0)
  ∧ (Forall (fun group => group ≠ ∅) deck →
     Forall (fun group => group ≠ ∅) (remove_if_present card deck))
  ∧ CardGroupDeck_len (add_set_to_bottom cards deck)
    = CardGroupDeck_len deck + Z.of_nat (size cards).
Proof.
  split; [|split].
  - induction deck as [|g deck IH]; [reflexivity|].
    cbn [remove_if_present in_some_group existsb].
    destruct (decide (card ∈ g)) as [Hin|Hin].
    + rewrite (bool_decide_eq_true_2 _ Hin). cbn [orb].
      assert (Hsize : Z.of_nat (size g)
                      = Z.of_nat (size (g ∖ {[card]})) + 1).
      { assert (size g = size ({[card]} ∪ g ∖ {[card]})) as ->.
        { f_equal. apply set_eq. intros x.
          destruct (decide (x = card)); set_solver. }
        rewrite size_union by set_solver. rewrite size_singleton. lia. }
      destruct (decide (g ∖ {[card]} = ∅)) as [Hempty|Hempty].
      * rewrite (bool_decide_eq_true_2 _ Hempty).
        rewrite CardGroupDeck_len_cons, Hsize, Hempty, size_empty. lia.
      * rewrite (bool_decide_eq_false_2 _ Hempty).
        rewrite !CardGroupDeck_len_cons, Hsize. lia.
    + rewrite (bool_decide_eq_false_2 _ Hin). cbn [orb].
      rewrite !CardGroupDeck_len_cons, IH. unfold in_some_group. lia.
  - induction 1 as [|g deck Hg Hd IH]; cbn [remove_if_present];
      [constructor|].
    destruct (decide (card ∈ g)) as [Hin|Hin].
    + rewrite (bool_decide_eq_true_2 _ Hin).
      destruct (decide (g ∖ {[card]} = ∅)) as [Hempty|Hempty].
      * rewrite (bool_decide_eq_true_2 _ Hempty). exact Hd.
      * rewrite (bool_decide_eq_false_2 _ Hempty). constructor; assumption.
    + rewrite (bool_decide_eq_false_2 _ Hin). constructor; assumption.
  - unfold add_set_to_bottom. induction deck as [|g deck IH].
    + cbn. lia.
    + cbn [app]. rewrite !CardGroupDeck_len_cons, IH. lia.
Qed.

(* --------------------------------------------------------------------- *)
(** ** The trick comparer with any number of players                      *)
(* --------------------------------------------------------------------- *)

(** The loop of [determine_winners] from any point: the error names a
    player still to visit that has no card; otherwise every player still to
    visit has a card, the result is not empty when [ret] is not (or when the
    first card is still to come), and a winner is either in [ret] already
    or a visited player whose rank is not below the rank compared
    against. *)
Lemma determine_winners_loop_spec played ids ret best :
  match determine_winners_loop played ids ret best with
  | inl err =>
      ∃ p, err = ErrNoFaceUpCard p ∧ p ∈ ids ∧ played !! p = None
  | inr result =>
      (∀ p, p ∈ ids → is_Some (played !! p))
      ∧ (ret ≠ [] ∨ (best = None ∧ ids ≠ []) → result ≠ [])
      ∧ ∀ w, w ∈ result →
             w ∈ ret
             ∨ (w ∈ ids
                ∧ ∃ c b,
                    played !! w = Some c
                    ∧ from_option Some (head ids ≫= (played !!.)) best = Some b
                    ∧ rank_index (rank b) ≤ rank_index (rank c))
  end.
Proof.
  revert ret best. induction ids as [|p ids IH]; intros ret best;
    cbn [determine_winners_loop].
  - split; [intros p Hp; inversion Hp|].
    split; [intros [H | [_ H]]; [exact H | congruence]|]. auto.
  - destruct (played !! p) as [card|] eqn:Ep.
    2: { exists p. split; [reflexivity|]. split; [left | exact Ep]. }
    destruct best as [b|].
    + specialize (IH (if rank_index (rank card) >=? rank_index (rank b)
                      then (if rank_index (rank card) >? rank_index (rank b)
                            then [] else ret) ++ [p]
                      else if rank_index (rank card) >? rank_index (rank b)
                           then [] else ret) (Some b)).
      destruct (determine_winners_loop _ ids _ _) as [err|result].
      * destruct IH as (q & -> & Hq & Hnone). exists q.
        split; [reflexivity|]. split; [right; exact Hq | exact Hnone].
      * destruct IH as (Hall & Hne & Hw). split; [|split].
        -- intros q Hq. apply elem_of_cons in Hq as [-> | Hq]; eauto.
        -- intros [Hret | [? _]]; [|discriminate]. apply Hne. left.
           destruct (Z.geb_spec (rank_index (rank card)) (rank_index (rank b)));
             destruct (Z.gtb_spec (rank_index (rank card)) (rank_index (rank b)));
             try lia; try (intros Happ; apply app_eq_nil in Happ as [_ ?];
                           discriminate); exact Hret.
        -- intros w Hin. cbn [head mbind option_bind from_option] in *.
           destruct (Hw w Hin) as [Hr | (Hids & c & b0 & Hc & Hb & Hle)].
           ++ destruct (Z.geb_spec (rank_index (rank card))
                          (rank_index (rank b))) as [Hge|Hlt].
              ** apply elem_of_app in Hr as [Hr | Hr].
                 --- destruct (rank_index (rank card) >? rank_index (rank b));
                       [inversion Hr | auto].
                 --- apply list_elem_of_singleton in Hr as ->.
                     right. split; [left|]. exists card, b. auto with lia.
              ** destruct (rank_index (rank card) >? rank_index (rank b));
                   [inversion Hr | auto].
           ++ right. split; [right; exact Hids|]. simplify_eq. eauto.
    + specialize (IH (ret ++ [p]) (Some card)).
      destruct (determine_winners_loop _ ids _ _) as [err|result].
      * destruct IH as (q & -> & Hq & Hnone). exists q.
        split; [reflexivity|]. split; [right; exact Hq | exact Hnone].
      * destruct IH as (Hall & Hne & Hw). split; [|split].
        -- intros q Hq. apply elem_of_cons in Hq as [-> | Hq]; eauto.
        -- intros _. apply Hne. left. intros Happ.
           apply app_eq_nil in Happ as [_ ?]. discriminate.
        -- intros w Hin. cbn [head mbind option_bind from_option] in *.
           rewrite Ep. cbn [mbind option_bind from_option].
           destruct (Hw w Hin) as [Hr | (Hids & c & b0 & Hc & Hb & Hle)].
           ++ apply elem_of_app in Hr as [Hr | Hr]; [auto|].
              apply list_elem_of_singleton in Hr as ->.
              right. split; [left|]. exists card, card. auto with lia.
           ++ right. split; [right; exact Hids|]. simplify_eq. eauto.
Qed.

(** [determine_winners] for any list of players.  It fails exactly when a
    listed player has no face-up card, naming such a player.  Otherwise the
    result is not empty (for a list that is not), and every winner is a
    listed player whose card is of a rank not below that of the first
    listed player. *)
Theorem determine_winners_any_players (self : CardComparer) :
  match determine_winners self with
  | inl err =>
      ∃ p, err = ErrNoFaceUpCard p ∧ p ∈ _player_ids self
           ∧ _played_cards self !! p = None
  | inr result =>
      (∀ p, p ∈ _player_ids self → is_Some (_played_cards self !! p))
      ∧ (_player_ids self ≠ [] → result ≠ [])
      ∧ ∀ w, w ∈ result →
             w ∈ _player_ids self
             ∧ ∃ c first c0,
                 _played_cards self !! w = Some c
                 ∧ head (_player_ids self) = Some first
                 ∧ _played_cards self !! first = Some c0
                 ∧ rank_index (rank c0) ≤ rank_index (rank c)
  end.
Proof.
  unfold determine_winners.
  pose proof (determine_winners_loop_spec (_played_cards self)
                (_player_ids self) [] None) as H.
  destruct (determine_winners_loop _ _ _ _) as [err|result]; [exact H|].
  destruct H as (Hall & Hne & Hw). split; [exact Hall|]. split; [auto|].
  intros w Hin. destruct (Hw w Hin) as [Hr | (Hids & c & b & Hc & Hb & Hle)];
    [inversion Hr|].
  split; [exact Hids|]. cbn [from_option] in Hb.
  destruct (head (_player_ids self)) as [first|]; [|discriminate].
  cbn in Hb. exists c, first, b. auto.
Qed.

(* --------------------------------------------------------------------- *)
(** ** The validator: counters, flag and final state                      *)
(* --------------------------------------------------------------------- *)

(** The [match line:] statement sets the game-done flag on a game-winner or
    draw record only, and adds one to the round number on a round-winner
    record only. *)
Lemma validate_line_match_counters self line e self1 :
  validate_line_match self line = Ret (e, self1) →
  _encountered_game_done_line self1
  = (if is_game_done_line line then true
     else _encountered_game_done_line self)
  ∧ _round_number self1
    = _round_number self + (if is_RoundWinnerLine line then 1 else 0).
Proof.
  destruct (update_game_end_state_set self 0) as [g0 Hg0].
  destruct (update_game_end_state_set self 2) as [g2 Hg2].
  destruct line; cbn [validate_line_match is_game_done_line is_RoundWinnerLine];
    unfold validate_card_line, validate_round_winner_line, validate_war_line,
      face_up_card_played_by;
    rewrite ?Hg0, ?Hg2; clear Hg0 Hg2;
    destruct self as [pa pm cv0 cc rn ln wrn ws ges enc]; fields;
    intros H;
    repeat (match type of H with
            | (?m ≫= _) = _ => destruct m as [[? ?]|]
            | context [update_war_state_after_play ?v ?b] =>
                let w := fresh "w" in
                destruct (update_war_state_after_play_set v b) as [w ->]
            | context [match ?x with _ => _ end] => destruct x
            | context [if ?x then _ else _] => destruct x
            end; cbn [mbind outcome_bind] in H);
    fields; simplify_eq; fields;
    repeat match goal with
           | |- context [update_war_state_after_play ?v ?b] =>
               let w := fresh "w" in
               destruct (update_war_state_after_play_set v b) as [w ->]
           end;
    fields; split; first [reflexivity | lia].
Qed.

(** An accepted line keeps the game-done flag tied to the final state: the
    flag is raised by a game-winner or draw record only, and such a record
    is accepted only by a transition into [NO_MORE_LINES]. *)
Lemma validate_line_game_done self line_str self' :
  default_configuration self →
  (_encountered_game_done_line self = true →
   validator_state self = NO_MORE_LINES) →
  _validate_line self line_str = Ret (None, self') →
  (_encountered_game_done_line self' = true →
   validator_state self' = NO_MORE_LINES)
  ∧ _encountered_game_done_line self'
    = (if is_game_done_line (parse_line LineParser_default line_str)
       then true else _encountered_game_done_line self)
  ∧ (validator_state self = NO_MORE_LINES →
     parse_line LineParser_default line_str = EmptyLine
     ∧ validator_state self' = NO_MORE_LINES).
Proof.
  intros Hcfg Hinv Hv.
  destruct (validate_line_step self line_str Hcfg)
    as (e & s' & Hv' & _ & _ & _ & Hok).
  rewrite Hv in Hv'. simplify_eq.
  destruct (Hok eq_refl) as (self1 & Hm & Hn & Hs').
  destruct Hcfg as (Hp & _). rewrite Hp in *.
  set (line := parse_line LineParser_default line_str) in *.
  destruct (validate_line_match_counters _ _ _ _ Hm) as [Hflag _].
  assert (Hflag' : _encountered_game_done_line s'
                   = _encountered_game_done_line self1).
  { rewrite Hs' at 1. destruct self1; reflexivity. }
  rewrite Hflag'.
  assert (Hlast : validator_state self = NO_MORE_LINES →
                  line = EmptyLine ∧ validator_state s' = NO_MORE_LINES).
  { intros Hst. rewrite Hst in Hn.
    destruct (is_EmptyLine line) eqn:Hempty.
    - destruct line; try discriminate. cbn in Hn. simplify_eq. auto.
    - rewrite next_state_no_more_lines in Hn by exact Hempty. discriminate. }
  split; [|split; [exact Hflag | exact Hlast]].
  rewrite Hflag. destruct (is_game_done_line line) eqn:Hdone.
  - intros _. unfold next_state in Hn.
    assert (Hempty : is_EmptyLine line = false)
      by (destruct line; try discriminate; reflexivity).
    rewrite Hempty in Hn.
    destruct (_game_end_state self1) as [g|].
    + apply next_state_game_end_inv in Hn as [[Hhead _] | [Hnext _]];
        [|exact Hnext].
      destruct Hhead as [[_ [n Hl]] | [_ (n & m & Hl)]]; rewrite Hl in Hdone;
        discriminate.
    + apply next_state_game_ongoing_inv in Hn
        as (_ & _ & _ & _ & _ & _ & _ & _ & Hw & Hd).
      destruct line; try discriminate; [exfalso; eapply Hw; eauto | done].
  - intros Hf. apply Hlast, Hinv, Hf.
Qed.

(** Once the final state is reached, every further accepted line is
    blank. *)
Lemma run_lines_after_game_done lines self self' :
  default_configuration self →
  validator_state self = NO_MORE_LINES →
  run_lines self lines = Some self' →
  Forall (λ l, parse_line LineParser_default l = EmptyLine) lines
  ∧ validator_state self' = NO_MORE_LINES.
Proof.
  revert self. induction lines as [|line lines IH]; intros self Hcfg Hst Hrun;
    cbn [run_lines] in Hrun.
  - simplify_eq. auto.
  - destruct (_validate_line self line) as [[[err|] s1]|] eqn:Hv;
      try discriminate.
    destruct (validate_line_step self line Hcfg)
      as (e & s' & Hv' & Hcfg1 & _).
    rewrite Hv in Hv'. simplify_eq.
    destruct (validate_line_game_done _ _ _ Hcfg (λ _, Hst) Hv)
      as (_ & _ & Hlast).
    destruct (Hlast Hst) as [Hl Hst1].
    destruct (IH (set_line_number (_line_number s' + 1) s')) as [Hall Hend].
    + apply set_line_number_configuration, Hcfg1.
    + exact Hst1.
    + exact Hrun.
    + split; [constructor; assumption | exact Hend].
Qed.

(** Along accepted lines the game-done flag is raised only together with
    the final state, and only by a game-winner or draw line that blank
    lines alone follow. *)
Lemma run_lines_game_done lines self self' :
  default_configuration self →
  (_encountered_game_done_line self = true →
   validator_state self = NO_MORE_LINES) →
  run_lines self lines = Some self' →
  _encountered_game_done_line self' = true →
  validator_state self' = NO_MORE_LINES
  ∧ (_encountered_game_done_line self = true
     ∨ ∃ before line after,
         lines = before ++ line :: after
         ∧ is_game_done_line (parse_line LineParser_default line) = true
         ∧ Forall (λ l, parse_line LineParser_default l = EmptyLine) after).
Proof.
  revert self. induction lines as [|line lines IH];
    intros self Hcfg Hinv Hrun Hf; cbn [run_lines] in Hrun.
  - simplify_eq. auto.
  - destruct (_validate_line self line) as [[[err|] s1]|] eqn:Hv;
      try discriminate.
    destruct (validate_line_step self line Hcfg)
      as (e & s' & Hv' & Hcfg1 & _).
    rewrite Hv in Hv'. simplify_eq.
    destruct (validate_line_game_done _ _ _ Hcfg Hinv Hv)
      as (Hinv1 & Hflag & _).
    pose proof (set_line_number_configuration (_line_number s' + 1) _ Hcfg1)
      as Hcfg2.
    destruct (IH (set_line_number (_line_number s' + 1) s')) as [Hend Hwhere];
      [exact Hcfg2 | exact Hinv1 | exact Hrun | exact Hf |].
    split; [exact Hend|].
    destruct Hwhere as [Hset | (before & l & after & -> & Hl & Hall)].
    + destruct (is_game_done_line (parse_line LineParser_default line))
        eqn:Hdone.
      * right. exists [], line, lines. split; [reflexivity|].
        split; [exact Hdone|].
        eapply run_lines_after_game_done; [exact Hcfg2| |exact Hrun].
        apply Hinv1, Hset.
      * left. rewrite <- Hflag. exact Hset.
    + right. exists (line :: before), l, after. auto.
Qed.

(** [validate] accepts a transcript only if the protocol has reached its
    final state [NO_MORE_LINES]: the transcript holds a game-winner or draw
    line, and only blank lines follow it. *)
Theorem accepted_transcript_is_finished (lines : list string)
    (res : ValidationResult) :
  validate lines = Ret res →
  res_error res = None →
  res_state res = NO_MORE_LINES
  ∧ ∃ before line after,
      lines = before ++ line :: after
      ∧ is_game_done_line (parse_line LineParser_default line) = true
      ∧ Forall (λ l, parse_line LineParser_default l = EmptyLine) after.
Proof.
  intros Hv Hnone. unfold validate in Hv.
  destruct (validate_lines WarOutputValidator_default lines)
    as [[res0 final]|] eqn:Hvl; cbn [mbind outcome_bind] in Hv;
    [|discriminate].
  simplify_eq.
  destruct (validate_lines_accepted _ _ _ _ Hvl Hnone) as [self Hrun].
  rewrite <- (app_nil_r lines) in Hvl.
  rewrite (validate_lines_app _ [] _ _ Hrun) in Hvl.
  cbn [validate_lines] in Hvl.
  destruct (_encountered_game_done_line self) eqn:Hf; cbn [negb] in Hvl;
    simplify_eq; try discriminate.
  cbn [res_state].
  assert (Hstart : _encountered_game_done_line WarOutputValidator_default
                   = true →
                   validator_state WarOutputValidator_default = NO_MORE_LINES)
    by (intros Habs; discriminate Habs).
  destruct (run_lines_game_done _ _ _ default_validator_configuration
              Hstart Hrun Hf) as [Hend Hwhere].
  split; [exact Hend|]. destruct Hwhere as [Hset|Hex]; [discriminate|exact Hex].
Qed.

(** The theorem on the accepted game in which player 1 wins every round. *)
Lemma accepted_transcript_is_finished_witness :
  res_state (mkValidationResult 159 NO_MORE_LINES None) = NO_MORE_LINES
  ∧ ∃ before line after,
      transcript_p1_sweep_wrong_count = before ++ line :: after
      ∧ is_game_done_line (parse_line LineParser_default line) = true
      ∧ Forall (λ l, parse_line LineParser_default l = EmptyLine) after.
Proof.
  apply (accepted_transcript_is_finished transcript_p1_sweep_wrong_count).
  - vm_compute. reflexivity.
  - reflexivity.
Defined.

(** When a line of [lines] fails, the result does not depend on what
    follows [lines]; its line number is the 1-based index of the failing
    line, counted from the line number the validator started with, and its
    state is the protocol state the lines before the failing line led
    to. *)
Lemma validate_lines_failed lines self :
  default_configuration self →
  run_lines self lines = None →
  ∃ res self' k self_before,
    (∀ rest, validate_lines self (lines ++ rest) = Ret (res, self'))
    ∧ (k < length lines)%nat
    ∧ res_line_number res = _line_number self + Z.of_nat k
    ∧ run_lines self (take k lines) = Some self_before
    ∧ res_state res = validator_state self_before.
Proof.
  revert self. induction lines as [|line lines IH]; intros self Hcfg Hrun;
    cbn [run_lines] in Hrun; [discriminate|].
  destruct (validate_line_step self line Hcfg)
    as (e & s1 & Hv & Hcfg1 & Hln & Herr & _).
  rewrite Hv in Hrun. destruct e as [err|].
  - destruct (Herr err eq_refl) as [_ Hst].
    eexists _, _, 0%nat, self. split.
    + intros rest. cbn [app validate_lines]. rewrite Hv.
      cbn [mbind outcome_bind]. reflexivity.
    + cbn [res_line_number res_state length take run_lines].
      split; [lia|]. split; [lia|]. split; [reflexivity|exact Hst].
  - destruct (IH _ (set_line_number_configuration (_line_number s1 + 1) _ Hcfg1)
                Hrun) as (res & self' & k & sb & Hall & Hk & Hnum & Hsb & Hst).
    exists res, self', (S k), sb. split.
    + intros rest. cbn [app validate_lines]. rewrite Hv.
      cbn [mbind outcome_bind]. apply Hall.
    + cbn [length take run_lines]. rewrite Hv.
      split; [lia|]. split; [|split; [exact Hsb|exact Hst]].
      rewrite Hnum. fields. lia.
Qed.

(** Validation stops at the first line that fails.  When the reported line
    number points at one of the lines, lines appended to the transcript do
    not change the result, and the reported state is the protocol state
    that the lines before the reported one led to. *)
Theorem failed_validation_is_final (lines : list string)
    (res : ValidationResult) :
  validate lines = Ret res →
  res_line_number res ≤ Z.of_nat (length lines) →
  (∀ after, validate (lines ++ after) = Ret res)
  ∧ ∃ self_before,
      run_lines WarOutputValidator_default
        (take (Z.to_nat (res_line_number res - 1)) lines) = Some self_before
      ∧ res_state res = validator_state self_before.
Proof.
  unfold validate. intros Hv Hle.
  destruct (run_lines WarOutputValidator_default lines) as [mid|] eqn:Hrun.
  - exfalso.
    destruct (run_lines_invariant _ _ _ default_validator_configuration
                default_validator_outcome Hrun) as (_ & _ & Hln).
    change (_line_number WarOutputValidator_default) with 1 in Hln.
    rewrite <- (app_nil_r lines) in Hv.
    rewrite (validate_lines_app _ [] _ _ Hrun) in Hv.
    cbn [validate_lines] in Hv.
    destruct (negb (_encountered_game_done_line mid));
      cbn [mbind outcome_bind] in Hv; simplify_eq;
      cbn [res_line_number] in Hle; lia.
  - destruct (validate_lines_failed lines WarOutputValidator_default
                default_validator_configuration Hrun)
      as (res0 & final & k & sb & Hall & Hk & Hnum & Hsb & Hst).
    change (_line_number WarOutputValidator_default) with 1 in Hnum.
    pose proof (Hall []) as Hnil. rewrite app_nil_r in Hnil.
    rewrite Hnil in Hv. cbn [mbind outcome_bind] in Hv. simplify_eq.
    split.
    + intros after. rewrite Hall. reflexivity.
    + exists sb. split; [|exact Hst].
      replace (Z.to_nat (res_line_number res - 1)) with k by lia. exact Hsb.
Qed.

(** The theorem at a forged card in line 5 of a transcript of 6 lines. *)
Lemma failed_validation_is_final_witness :
  let lines :=
    ["Round 1"; "Player 1:"; "- Ace of Spades"; "Player 2:";
     "- Ace of Spades"; "Round 2"]%string in
  let res :=
    mkValidationResult 5 REGULAR_PLAYER_2_CARD
      (Some (ErrNotInTopmostGroup (mkCard ACE SPADES) 2)) in
  (∀ after, validate (lines ++ after) = Ret res)
  ∧ ∃ self_before,
      run_lines WarOutputValidator_default
        (take (Z.to_nat (res_line_number res - 1)) lines) = Some self_before
      ∧ res_state res = validator_state self_before.
Proof.
  intros lines res. apply (failed_validation_is_final lines res).
  - vm_compute. reflexivity.
  - vm_compute. discriminate.
Defined.

(* --------------------------------------------------------------------- *)
(** ** The validator: blank lines and line numbers                        *)
(* --------------------------------------------------------------------- *)

(** The [match line:] statement never reads the line number. *)
Lemma validate_line_match_line_number n self line :
  validate_line_match (set_line_number n self) line
  = '(e, s) ← validate_line_match self line; Ret (e, set_line_number n s).
Proof.
  destruct line; cbn [validate_line_match];
    unfold validate_card_line, validate_round_winner_line, validate_war_line,
      face_up_card_played_by, update_war_state_after_play,
      _update_game_end_state_after_n_draws, _get_players_left_after_n_draws;
    change (_get_player_to_play (set_line_number n self))
      with (_get_player_to_play self);
    fields;
    repeat first
      [ progress fields
      | reflexivity
      | match goal with
        | |- context [card_played_by ?a ?b ?c] =>
            destruct (card_played_by a b c) as [[[?|] ?]|]
        | |- context [cards_in_play_taken_by ?a ?b] =>
            destruct (cards_in_play_taken_by a b) as [[[?|] ?]|]
        end
      | case_match ].
Qed.

(** Nor does [_validate_line]: the line number is carried along. *)
Lemma validate_line_line_number n self line_str :
  _validate_line (set_line_number n self) line_str
  = '(e, s) ← _validate_line self line_str; Ret (e, set_line_number n s).
Proof.
  unfold _validate_line. fields. rewrite validate_line_match_line_number.
  destruct (validate_line_match self (parse_line (_parser self) line_str))
    as [[[err|] self1]|]; fields; try reflexivity.
  unfold update_state. fields.
  destruct (next_state (_state (_parse_manager self1))
              (parse_line (_parser self) line_str) (_war_state self1)
              (_game_end_state self1)); reflexivity.
Qed.

(** [_validate_line] leaves the line number to [validate_lines]. *)
Lemma validate_line_keeps_line_number self line_str e self' :
  _validate_line self line_str = Ret (e, self') →
  _line_number self' = _line_number self.
Proof.
  unfold _validate_line.
  destruct (validate_line_match self (parse_line (_parser self) line_str))
    as [[e1 self1]|] eqn:Hm; fields; [|discriminate].
  destruct (validate_line_match_effects _ _ _ _ Hm) as ((_ & _ & Hln & _) & _).
  destruct e1 as [err|]; [intros Hv; simplify_eq; exact Hln|].
  unfold update_state.
  destruct (next_state _ _ _ _); intros Hv; simplify_eq; exact Hln.
Qed.

(** A blank line is accepted in every state and changes nothing. *)
Lemma validate_line_blank self line_str :
  parse_line (_parser self) line_str = EmptyLine →
  _validate_line self line_str = Ret (None, self).
Proof.
  intros Hl. unfold _validate_line. rewrite Hl.
  cbn [validate_line_match mbind outcome_bind]. unfold update_state.
  rewrite next_state_empty. destruct self as [pa [st] cv cc rn ln wrn ws ges enc].
  reflexivity.
Qed.

(** Starting [validate_lines] with the line number moved by [d] moves the
    line number of the result by [d] and changes nothing else. *)
Lemma validate_lines_line_number_shift d lines self :
  validate_lines (set_line_number (_line_number self + d) self) lines
  = '(res, s) ← validate_lines self lines;
    Ret (shift_line_number d res, set_line_number (_line_number s + d) s).
Proof.
  revert self. induction lines as [|line lines IH]; intros self;
    cbn [validate_lines].
  - fields. destruct (_encountered_game_done_line self); reflexivity.
  - rewrite validate_line_line_number.
    destruct (_validate_line self line) as [[[err|] s1]|] eqn:Hv; fields;
      try reflexivity.
    + rewrite (validate_line_keeps_line_number _ _ _ _ Hv). reflexivity.
    + rewrite <- (IH (set_line_number (_line_number s1 + 1) s1)). fields.
      rewrite (validate_line_keeps_line_number _ _ _ _ Hv).
      replace (_line_number self + 1 + d) with (_line_number self + d + 1)
        by lia.
      reflexivity.
Qed.

(** The line number of a result is never before the line number the
    validator started with. *)
Lemma validate_lines_line_number_lower lines self res self' :
  default_configuration self →
  validate_lines self lines = Ret (res, self') →
  _line_number self ≤ res_line_number res.
Proof.
  intros Hcfg Hv.
  destruct (validate_lines_result lines self Hcfg) as (res0 & s0 & Hv0 & Hres).
  rewrite Hv in Hv0. simplify_eq.
  destruct (res_error res0) as [err|]; [|lia].
  destruct (is_game_did_not_end err); [lia|].
  destruct Hres as (before & l & after & sb & sa & _ & Hn & _). lia.
Qed.

(** Blank lines are ignored wherever they stand, and count as lines: a
    line that is empty or white space, put into a transcript at any
    position, leaves the error and the reported state as they were; the
    reported line number stays when it lies before the blank line and moves
    by one otherwise. *)
Theorem blank_line_is_ignored (before after : list string) (blank : string)
    (res : ValidationResult) :
  parse_line LineParser_default blank = EmptyLine →
  validate (before ++ after) = Ret res →
  validate (before ++ blank :: after)
  = Ret (if decide (res_line_number res ≤ Z.of_nat (length before))
         then res else shift_line_number 1 res).
Proof.
  intros Hblank. unfold validate.
  destruct (run_lines WarOutputValidator_default before) as [mid|] eqn:Hrun.
  - destruct (run_lines_invariant _ _ _ default_validator_configuration
                default_validator_outcome Hrun) as (Hcfg & _ & Hln).
    change (_line_number WarOutputValidator_default) with 1 in Hln.
    rewrite (validate_lines_app _ after _ _ Hrun).
    rewrite (validate_lines_app _ (blank :: after) _ _ Hrun).
    cbn [validate_lines].
    assert (Hp : _parser mid = LineParser_default) by apply Hcfg.
    rewrite validate_line_blank by (rewrite Hp; exact Hblank).
    cbn [mbind outcome_bind]. rewrite validate_lines_line_number_shift.
    destruct (validate_lines mid after) as [[res0 final]|] eqn:Hv;
      cbn [mbind outcome_bind]; [|discriminate].
    intros Hres. simplify_eq.
    pose proof (validate_lines_line_number_lower _ _ _ _ Hcfg Hv) as Hlow.
    destruct (decide (res_line_number res ≤ Z.of_nat (length before)));
      [lia|reflexivity].
  - destruct (validate_lines_failed before WarOutputValidator_default
                default_validator_configuration Hrun)
      as (res0 & final & k & sb & Hall & Hk & Hlt & _).
    change (_line_number WarOutputValidator_default) with 1 in Hlt.
    rewrite !Hall. cbn [mbind outcome_bind]. intros Hres. simplify_eq.
    destruct (decide (res_line_number res ≤ Z.of_nat (length before)));
      [reflexivity|lia].
Qed.

(** The theorem on a transcript that is cut short: a line of spaces put
    after its first line moves the reported line number from 4 to 5. *)
Lemma blank_line_is_ignored_witness :
  validate (["Round 1"%string]
            ++ "   "%string :: ["Player 1:"; "- Ace of Spades"]%string)
  = Ret (mkValidationResult 5 REGULAR_PLAYER_2_LABEL
           (Some (ErrGameDidNotEnd REGULAR_PLAYER_2_LABEL NO_WAR None
                    [(1, 25); (2, 26)]))).
Proof.
  apply (blank_line_is_ignored ["Round 1"%string]
           ["Player 1:"; "- Ace of Spades"]%string "   "%string
           (mkValidationResult 4 REGULAR_PLAYER_2_LABEL
              (Some (ErrGameDidNotEnd REGULAR_PLAYER_2_LABEL NO_WAR None
                       [(1, 25); (2, 26)])))).
  - vm_compute. reflexivity.
  - vm_compute. reflexivity.
Defined.

(* --------------------------------------------------------------------- *)
(** ** The validator: lines that resolve a trick                          *)
(* --------------------------------------------------------------------- *)

(** The round-winner case of the [match line:] statement, when it returns
    no error. *)
Lemma validate_line_match_round_winner (self self1 : WarOutputValidator)
    (player_number : Z) (r : Rank) (s : Suit) :
  _player_ids (_card_comparer self) = [1; 2] →
  validate_line_match self (RoundWinnerLine player_number r s)
  = Ret (None, self1) →
  ∃ c1 c2,
    _played_cards (_card_comparer self) !! 1 = Some c1
    ∧ _played_cards (_card_comparer self) !! 2 = Some c2
    ∧ ((player_number = 1
        ∧ rank_index (rank c2) < rank_index (rank c1) ∧ mkCard r s = c1)
       ∨ (player_number = 2
          ∧ rank_index (rank c1) < rank_index (rank c2) ∧ mkCard r s = c2))
    ∧ apply_op (_card_validator self) (CollectTrick player_number)
      = Some (_card_validator self1)
    ∧ _played_cards (_card_comparer self1) = ∅
    ∧ _war_state self1 = NO_WAR
    ∧ _round_number self1 = _round_number self + 1.
Proof.
  intros Hids. cbn [validate_line_match]. unfold validate_round_winner_line.
  destruct self as [pa pm cv0 [ids played] rn ln wrn ws ges enc]. fields.
  cbn [_player_ids _played_cards] in *. subst ids.
  destruct (played !! 1) as [c1|] eqn:E1;
    [destruct (played !! 2) as [c2|] eqn:E2|].
  - rewrite (determine_winners_two_cards _ _ _ E1 E2).
    unfold get_current_face_up_card. cbn [_played_cards].
    destruct (Z.gtb_spec (rank_index (rank c2)) (rank_index (rank c1)))
      as [Hgt|Hle];
      [|destruct (Z.geb_spec (rank_index (rank c2)) (rank_index (rank c1)))
          as [Hge|Hlt]];
      cbn [length Nat.ltb Nat.leb]; [| discriminate |].
    + destruct (decide (2 ≠ player_number)) as [|Heq]; [discriminate|].
      apply dec_stable in Heq. subst player_number. rewrite E2.
      destruct (decide (Some (mkCard r s) ≠ Some c2)) as [|Hc]; [discriminate|].
      apply dec_stable in Hc. simplify_eq.
      destruct (cards_in_play_taken_by cv0 2) as [[e0 cv]|] eqn:E; fields;
        [|discriminate].
      apply cards_in_play_taken_by_cases in E as [-> Hop].
      intros Hv. simplify_eq. fields. exists c1, (mkCard r s).
      split; [reflexivity|]. split; [reflexivity|].
      split; [right; split; [reflexivity|]; split; [lia|reflexivity]|].
      split; [exact Hop|]. auto.
    + destruct (decide (1 ≠ player_number)) as [|Heq]; [discriminate|].
      apply dec_stable in Heq. subst player_number. rewrite E1.
      destruct (decide (Some (mkCard r s) ≠ Some c1)) as [|Hc]; [discriminate|].
      apply dec_stable in Hc. simplify_eq.
      destruct (cards_in_play_taken_by cv0 1) as [[e0 cv]|] eqn:E; fields;
        [|discriminate].
      apply cards_in_play_taken_by_cases in E as [-> Hop].
      intros Hv. simplify_eq. fields. exists (mkCard r s), c2.
      split; [reflexivity|]. split; [reflexivity|].
      split; [left; split; [reflexivity|]; split; [lia|reflexivity]|].
      split; [exact Hop|]. auto.
  - unfold determine_winners. cbn [_played_cards _player_ids].
    cbn [determine_winners_loop]. rewrite E1. cbn [determine_winners_loop].
    rewrite E2. discriminate.
  - unfold determine_winners. cbn [_played_cards _player_ids].
    cbn [determine_winners_loop]. rewrite E1. discriminate.
Qed.

(** The war-declaration case of the [match line:] statement, when it
    returns no error. *)
Lemma validate_line_match_war (self self1 : WarOutputValidator)
    (commence : bool) :
  _player_ids (_card_comparer self) = [1; 2] →
  validate_line_match self
    (if commence then CommencingWarLine else ContinuingWarLine)
  = Ret (None, self1) →
  ∃ c1 c2,
    _played_cards (_card_comparer self) !! 1 = Some c1
    ∧ _played_cards (_card_comparer self) !! 2 = Some c2
    ∧ rank c1 = rank c2
    ∧ _war_round_number self1
      = (if commence then 1 else _war_round_number self + 1)
    ∧ _war_state self1 = WAR_ONGOING
    ∧ _played_cards (_card_comparer self1) = ∅
    ∧ _card_validator self1 = _card_validator self.
Proof.
  intros Hids Hv.
  assert (Hw : validate_war_line self commence = (None, self1))
    by (destruct commence; cbn [validate_line_match] in Hv; simplify_eq;
        assumption).
  clear Hv. revert Hw. unfold validate_war_line.
  destruct self as [pa pm cv0 [ids played] rn ln wrn ws ges enc]. fields.
  cbn [_player_ids _played_cards] in *. subst ids.
  destruct (played !! 1) as [c1|] eqn:E1;
    [destruct (played !! 2) as [c2|] eqn:E2|].
  - rewrite (determine_winners_two_cards _ _ _ E1 E2).
    destruct (Z.gtb_spec (rank_index (rank c2)) (rank_index (rank c1)))
      as [Hgt|Hle];
      [|destruct (Z.geb_spec (rank_index (rank c2)) (rank_index (rank c1)))
          as [Hge|Hlt]];
      cbn [length Nat.eqb]; [discriminate | | discriminate].
    intros Hv. exists c1, c2.
    split; [reflexivity|]. split; [reflexivity|].
    split; [apply rank_index_inj; lia|].
    destruct commence; simplify_eq; fields; auto.
  - unfold determine_winners. cbn [_played_cards _player_ids].
    cbn [determine_winners_loop]. rewrite E1. cbn [determine_winners_loop].
    rewrite E2. discriminate.
  - unfold determine_winners. cbn [_played_cards _player_ids].
    cbn [determine_winners_loop]. rewrite E1. discriminate.
Qed.

(** The last of a sequence of accepted lines: its record passed the
    [match line:] statement and moved the protocol machine. *)
Lemma run_lines_last before line self self' :
  run_lines WarOutputValidator_default before = Some self →
  run_lines WarOutputValidator_default (before ++ [line]) = Some self' →
  default_configuration self
  ∧ _validate_line self line
    = Ret (None, set_line_number (_line_number self) self')
  ∧ ∃ self1 next,
      validate_line_match self (parse_line LineParser_default line)
      = Ret (None, self1)
      ∧ next_state (validator_state self) (parse_line LineParser_default line)
          (_war_state self1) (_game_end_state self1) = Some next
      ∧ self' = set_line_number (_line_number self + 1)
                  (set_parse_manager (mkParseStateMachine next) self1).
Proof.
  intros Hbefore Hall.
  destruct (run_lines_invariant _ _ _ default_validator_configuration
              default_validator_outcome Hbefore) as (Hcfg & _ & _).
  split; [exact Hcfg|].
  apply run_lines_app in Hall as (mid & Hmid & Hlast).
  rewrite Hbefore in Hmid. simplify_eq. cbn [run_lines] in Hlast.
  destruct (validate_line_step mid line Hcfg)
    as (e & s' & Hv & _ & Hln & _ & Hok).
  rewrite Hv in Hlast. destruct e as [err|]; [discriminate|]. simplify_eq.
  destruct (Hok eq_refl) as (self1 & Hm & Hn & Hs').
  destruct Hcfg as (Hp & _). rewrite Hp in *.
  split.
  - rewrite Hv. f_equal. f_equal. rewrite <- Hln. destruct s'; reflexivity.
  - exists self1, (validator_state s'). split; [exact Hm|].
    split; [exact Hn|]. rewrite Hln. f_equal. exact Hs'.
Qed.

(** In an accepted sequence of lines, a round-winner line stands only
    where both players have a face-up card recorded, the named player's
    card has the strictly higher rank and is the card the line shows; the
    named player then collects the cards in play, the face-up cards are
    cleared, the war state is reset and the round number goes up by one. *)
Theorem round_winner_line_accepted (before : list string) (line : string)
    (self self' : WarOutputValidator) (player_number : Z) (r : Rank)
    (s : Suit) :
  run_lines WarOutputValidator_default before = Some self →
  run_lines WarOutputValidator_default (before ++ [line]) = Some self' →
  parse_line LineParser_default line = RoundWinnerLine player_number r s →
  ∃ c1 c2,
    _played_cards (_card_comparer self) !! 1 = Some c1
    ∧ _played_cards (_card_comparer self) !! 2 = Some c2
    ∧ ((player_number = 1
        ∧ rank_index (rank c2) < rank_index (rank c1) ∧ mkCard r s = c1)
       ∨ (player_number = 2
          ∧ rank_index (rank c1) < rank_index (rank c2) ∧ mkCard r s = c2))
    ∧ apply_op (_card_validator self) (CollectTrick player_number)
      = Some (_card_validator self')
    ∧ _played_cards (_card_comparer self') = ∅
    ∧ _war_state self' = NO_WAR
    ∧ _round_number self' = _round_number self + 1.
Proof.
  intros Hbefore Hall Hl.
  destruct (run_lines_last _ _ _ _ Hbefore Hall)
    as (Hcfg & _ & self1 & next & Hm & _ & ->).
  rewrite Hl in Hm. destruct Hcfg as (_ & Hids & _).
  exact (validate_line_match_round_winner _ _ _ _ _ Hids Hm).
Qed.

(** The theorem at the last line of round 1: player 1 shows the king,
    player 2 the ace, and the line gives the round to player 1. *)
Lemma round_winner_line_accepted_witness :
  let before :=
    ["Round 1"; "Player 1:"; "- King of Spades"; "Player 2:";
     "- Ace of Spades"]%string in
  let line := "Round winner: Player 1 (King of Spades)"%string in
  let self := validator_after before in
  let self' := validator_after (before ++ [line]) in
  ∃ c1 c2,
    _played_cards (_card_comparer self) !! 1 = Some c1
    ∧ _played_cards (_card_comparer self) !! 2 = Some c2
    ∧ ((1 = 1
        ∧ rank_index (rank c2) < rank_index (rank c1) ∧ mkCard KING SPADES = c1)
       ∨ (1 = 2
          ∧ rank_index (rank c1) < rank_index (rank c2)
          ∧ mkCard KING SPADES = c2))
    ∧ apply_op (_card_validator self) (CollectTrick 1)
      = Some (_card_validator self')
    ∧ _played_cards (_card_comparer self') = ∅
    ∧ _war_state self' = NO_WAR
    ∧ _round_number self' = _round_number self + 1.
Proof.
  intros before line self self'.
  apply (round_winner_line_accepted before line self self' 1 KING SPADES).
  - apply run_lines_validator_after. vm_compute. reflexivity.
  - apply run_lines_validator_after. vm_compute. reflexivity.
  - vm_compute. reflexivity.
Defined.

(** In an accepted sequence of lines, a war declaration ("Commencing
    war..." or "Continuing war...") stands only where both players have a
    face-up card recorded and the two cards have the same rank; the war
    round number is then set to 1 by the first and raised by one by the
    second, the war state becomes [WAR_ONGOING], the face-up cards are
    cleared and the cards in play stay in play. *)
Theorem war_line_accepted (before : list string) (line : string)
    (self self' : WarOutputValidator) (commence : bool) :
  run_lines WarOutputValidator_default before = Some self →
  run_lines WarOutputValidator_default (before ++ [line]) = Some self' →
  parse_line LineParser_default line
  = (if commence then CommencingWarLine else ContinuingWarLine) →
  ∃ c1 c2,
    _played_cards (_card_comparer self) !! 1 = Some c1
    ∧ _played_cards (_card_comparer self) !! 2 = Some c2
    ∧ rank c1 = rank c2
    ∧ _war_round_number self'
      = (if commence then 1 else _war_round_number self + 1)
    ∧ _war_state self' = WAR_ONGOING
    ∧ _played_cards (_card_comparer self') = ∅
    ∧ _card_validator self' = _card_validator self.
Proof.
  intros Hbefore Hall Hl.
  destruct (run_lines_last _ _ _ _ Hbefore Hall)
    as (Hcfg & _ & self1 & next & Hm & _ & ->).
  rewrite Hl in Hm. destruct Hcfg as (_ & Hids & _).
  exact (validate_line_match_war _ _ _ Hids Hm).
Qed.

(** The theorem after two aces in round 1. *)
Lemma war_line_accepted_witness :
  let before :=
    ["Round 1"; "Player 1:"; "- Ace of Spades"; "Player 2:";
     "- Ace of Hearts"]%string in
  let self := validator_after before in
  let self' := validator_after (before ++ ["Commencing war..."%string]) in
  ∃ c1 c2,
    _played_cards (_card_comparer self) !! 1 = Some c1
    ∧ _played_cards (_card_comparer self) !! 2 = Some c2
    ∧ rank c1 = rank c2
    ∧ _war_round_number self' = 1
    ∧ _war_state self' = WAR_ONGOING
    ∧ _played_cards (_card_comparer self') = ∅
    ∧ _card_validator self' = _card_validator self.
Proof.
  intros before self self'.
  apply (war_line_accepted before "Commencing war..."%string self self' true).
  - apply run_lines_validator_after. vm_compute. reflexivity.
  - apply run_lines_validator_after. vm_compute. reflexivity.
  - vm_compute. reflexivity.
Defined.

(* --------------------------------------------------------------------- *)
(** ** The validator: round numbers and the tracker                       *)
(* --------------------------------------------------------------------- *)

(** Accepted lines raise the round number once per round-winner line. *)
Lemma run_lines_round_number lines self self' :
  default_configuration self →
  run_lines self lines = Some self' →
  _round_number self'
  = _round_number self
    + Z.of_nat (length (List.filter
                          (λ l, is_RoundWinnerLine
                                  (parse_line LineParser_default l)) lines)).
Proof.
  revert self. induction lines as [|line lines IH]; intros self Hcfg Hrun;
    cbn [run_lines] in Hrun.
  - simplify_eq. cbn. lia.
  - destruct (validate_line_step self line Hcfg)
      as (e & s' & Hv & Hcfg1 & _ & _ & Hok).
    rewrite Hv in Hrun. destruct e as [err|]; [discriminate|].
    destruct (Hok eq_refl) as (self1 & Hm & _ & Hs').
    destruct (validate_line_match_counters _ _ _ _ Hm) as [_ Hrn].
    rewrite (IH _ (set_line_number_configuration _ _ Hcfg1) Hrun).
    destruct Hcfg as (Hp & _). rewrite Hp in Hrn.
    assert (Hrn' : _round_number (set_line_number (_line_number s' + 1) s')
                   = _round_number self1)
      by (rewrite Hs' at 2; reflexivity).
    rewrite Hrn', Hrn. cbn [List.filter].
    destruct (is_RoundWinnerLine (parse_line LineParser_default line));
      cbn [length]; lia.
Qed.

(** The number of an accepted round header, and the round number of an
    accepted war-round header, is one more than the number of round-winner
    lines before it. *)
Theorem round_header_counts_rounds (before : list string) (line : string)
    (self' : WarOutputValidator) (n : Z) :
  run_lines WarOutputValidator_default (before ++ [line]) = Some self' →
  parse_line LineParser_default line = RoundLine n
  ∨ (∃ m, parse_line LineParser_default line = WarRoundLine n m) →
  n = 1 + Z.of_nat (length (List.filter
                              (λ l, is_RoundWinnerLine
                                      (parse_line LineParser_default l))
                              before)).
Proof.
  intros Hall Hl.
  destruct (run_lines_app _ _ _ _ Hall) as (self & Hbefore & _).
  destruct (run_lines_last _ _ _ _ Hbefore Hall)
    as (Hcfg & _ & self1 & next & Hm & _ & _).
  pose proof (run_lines_round_number _ _ _ default_validator_configuration
                Hbefore) as Hrn.
  change (_round_number WarOutputValidator_default) with 1 in Hrn.
  rewrite <- Hrn.
  destruct Hl as [Hl | [m Hl]]; rewrite Hl in Hm; cbn [validate_line_match] in Hm.
  - destruct (decide (_round_number self ≠ n)) as [|Heq]; [discriminate|].
    apply dec_stable in Heq. congruence.
  - destruct (decide (_round_number self ≠ n)) as [|Heq]; [discriminate|].
    apply dec_stable in Heq. congruence.
Qed.

(** The theorem at the header of round 27 of the game in which player 1
    wins 26 rounds. *)
Lemma round_header_counts_rounds_witness :
  27 = 1 + Z.of_nat (length (List.filter
                               (λ l, is_RoundWinnerLine
                                       (parse_line LineParser_default l))
                               (sweep 1 1 winning_pairs))).
Proof.
  apply (round_header_counts_rounds (sweep 1 1 winning_pairs)
           "Round 27"%string
           (validator_after (sweep 1 1 winning_pairs ++ ["Round 27"%string]))).
  - apply run_lines_validator_after. vm_compute. reflexivity.
  - left. vm_compute. reflexivity.
Defined.

Lemma run_ops_total ops self self' :
  run_ops self ops = Some self' →
  sum_counts (get_player_cards_left self')
  + Z.of_nat (size (_cards_in_play self'))
  = sum_counts (get_player_cards_left self)
    + Z.of_nat (size (_cards_in_play self)).
Proof.
  revert self. induction ops as [|op ops IH]; intros self Hrun;
    cbn [run_ops] in Hrun.
  - simplify_eq. reflexivity.
  - destruct (apply_op self op) as [s|] eqn:E; [|discriminate].
    rewrite (IH _ Hrun). eapply apply_op_total, E.
Qed.

Lemma run_ops_snoc ops1 ops2 self mid self' :
  run_ops self ops1 = Some mid →
  run_ops mid ops2 = Some self' →
  run_ops self (ops1 ++ ops2) = Some self'.
Proof.
  revert self. induction ops1 as [|op ops1 IH]; intros self H1 H2;
    cbn [run_ops app] in *.
  - simplify_eq. exact H2.
  - destruct (apply_op self op) as [s|]; [|discriminate]. eauto.
Qed.

(** The [match line:] statement reaches the tracker only through
    [card_played_by] and [cards_in_play_taken_by], and keeps their result
    only when they succeed. *)
Lemma validate_line_match_tracker self line e self1 :
  validate_line_match self line = Ret (e, self1) →
  ∃ ops, run_ops (_card_validator self) ops = Some (_card_validator self1).
Proof.
  destruct (update_game_end_state_set self 0) as [g0 Hg0].
  destruct (update_game_end_state_set self 2) as [g2 Hg2].
  assert (Hsame : ∀ cv, cv = _card_validator self →
                        ∃ ops, run_ops (_card_validator self) ops = Some cv)
    by (intros cv ->; exists []; reflexivity).
  destruct line; cbn [validate_line_match];
    try (rewrite ?Hg0, ?Hg2; intros Hv; repeat case_decide; simplify_eq;
         apply Hsame; reflexivity).
  - unfold validate_card_line.
    destruct (_get_player_to_play self) as [p|];
      [|intros Hv; simplify_eq; eauto].
    destruct (card_played_by (_card_validator self) (mkCard r s) p)
      as [[e0 cv]|] eqn:E; fields; [|discriminate].
    apply card_played_by_cases in E.
    assert (Hcv : ∃ ops, run_ops (_card_validator self) ops = Some cv).
    { destruct E as [[_ Hop] | (err & _ & -> & _)]; [|eauto].
      exists [PlayCard (mkCard r s) p]. cbn [run_ops]. rewrite Hop.
      reflexivity. }
    unfold face_up_card_played_by. fields.
    destruct e0 as [err|]; [intros Hv; simplify_eq; exact Hcv|].
    destruct (_played_cards (_card_comparer self) !! p);
      intros Hv; simplify_eq; fields; try exact Hcv.
    match goal with
    | |- context [update_war_state_after_play ?v ?b] =>
        destruct (update_war_state_after_play_set v b) as [w ->]
    end.
    exact Hcv.
  - unfold validate_card_line.
    destruct (_get_player_to_play self) as [p|];
      [|intros Hv; simplify_eq; eauto].
    destruct (card_played_by (_card_validator self) (mkCard r s) p)
      as [[e0 cv]|] eqn:E; fields; [|discriminate].
    apply card_played_by_cases in E.
    assert (Hcv : ∃ ops, run_ops (_card_validator self) ops = Some cv).
    { destruct E as [[_ Hop] | (err & _ & -> & _)]; [|eauto].
      exists [PlayCard (mkCard r s) p]. cbn [run_ops]. rewrite Hop.
      reflexivity. }
    destruct e0 as [err|]; intros Hv; simplify_eq; [exact Hcv|].
    match goal with
    | |- context [update_war_state_after_play ?v ?b] =>
        destruct (update_war_state_after_play_set v b) as [w ->]
    end.
    exact Hcv.
  - unfold validate_round_winner_line. fields.
    repeat case_match; try (intros Hv; simplify_eq; eauto; fail).
    destruct (cards_in_play_taken_by (_card_validator self) player_number)
      as [[e0 cv]|] eqn:E; fields; [|discriminate].
    apply cards_in_play_taken_by_cases in E as [-> Hop].
    intros Hv. simplify_eq. fields.
    exists [CollectTrick player_number]. cbn [run_ops]. rewrite Hop.
    reflexivity.
  - unfold validate_war_line. intros Hv. apply Hsame.
    repeat case_match; simplify_eq; reflexivity.
  - unfold validate_war_line. intros Hv. apply Hsame.
    repeat case_match; simplify_eq; reflexivity.
Qed.

(** Accepted lines drive the tracker through successful operations only. *)
Lemma run_lines_tracker lines self self' :
  default_configuration self →
  run_lines self lines = Some self' →
  ∃ ops, run_ops (_card_validator self) ops = Some (_card_validator self').
Proof.
  revert self. induction lines as [|line lines IH]; intros self Hcfg Hrun;
    cbn [run_lines] in Hrun.
  - simplify_eq. exists []. reflexivity.
  - destruct (validate_line_step self line Hcfg)
      as (e & s' & Hv & Hcfg1 & _ & _ & Hok).
    rewrite Hv in Hrun. destruct e as [err|]; [discriminate|].
    destruct (Hok eq_refl) as (self1 & Hm & _ & Hs').
    destruct (validate_line_match_tracker _ _ _ _ Hm) as [ops1 Hops1].
    destruct (IH _ (set_line_number_configuration _ _ Hcfg1) Hrun)
      as [ops2 Hops2].
    exists (ops1 ++ ops2). eapply run_ops_snoc; [exact Hops1|].
    rewrite <- Hops2. rewrite Hs' at 2. reflexivity.
Qed.

(** Whatever lines are accepted, the tracker of the validator is one that
    successful [card_played_by] and [cards_in_play_taken_by] calls reach
    from the standard start; so the remaining counts of the players and the
    number of cards in play add up to 52 after every accepted line. *)
Theorem accepted_lines_keep_all_cards (lines : list string)
    (self : WarOutputValidator) :
  run_lines WarOutputValidator_default lines = Some self →
  (∃ ops, run_ops CardConsistencyValidator_default ops
          = Some (_card_validator self))
  ∧ sum_counts (get_player_cards_left (_card_validator self))
    + Z.of_nat (size (_cards_in_play (_card_validator self)))
    = 52.
Proof.
  intros Hrun.
  destruct (run_lines_tracker _ _ _ default_validator_configuration Hrun)
    as [ops Hops].
  change (_card_validator WarOutputValidator_default)
    with CardConsistencyValidator_default in Hops.
  split; [eauto|]. rewrite (run_ops_total _ _ _ Hops). reflexivity.
Qed.

(** The theorem after the first war declaration of a game. *)
Lemma accepted_lines_keep_all_cards_witness :
  let self :=
    validator_after ["Round 1"; "Player 1:"; "- Ace of Spades"; "Player 2:";
                     "- Ace of Hearts"; "Commencing war..."]%string in
  (∃ ops, run_ops CardConsistencyValidator_default ops
          = Some (_card_validator self))
  ∧ sum_counts (get_player_cards_left (_card_validator self))
    + Z.of_nat (size (_cards_in_play (_card_validator self)))
    = 52.
Proof.
  apply (accepted_lines_keep_all_cards
           ["Round 1"; "Player 1:"; "- Ace of Spades"; "Player 2:";
            "- Ace of Hearts"; "Commencing war..."]%string).
  apply run_lines_validator_after. vm_compute. reflexivity.
Defined.

(* --------------------------------------------------------------------- *)
(** ** The lines of the page and the test suite of the classifier         *)
(* --------------------------------------------------------------------- *)

Lemma split_newline_cons value :
  ∃ piece pieces, split_newline value = piece :: pieces.
Proof.
  destruct value as [|c rest]; cbn [split_newline]; [eauto|].
  destruct (Ascii.eqb c newline); [eauto|].
  destruct (split_newline rest); eauto.
Qed.

(** A line without line feed that classifies as malformed gives the
    trimmed line, which is not empty. *)
Lemma parse_line_malformed_trimmed self line t :
  contains_newline line = false →
  parse_line self line = MalformedLine t →
  t = strip line ∧ t ≠ EmptyString.
Proof.
  intros Hnl. rewrite parse_line_classify_fallthrough.
  unfold classify_fallthrough. rewrite Hnl.
  destruct (String.eqb_spec (strip line) EmptyString) as [|Hne];
    [discriminate|].
  destruct (first_success self rules_in_priority_order (strip line))
    as [l|] eqn:Hl; cbn [from_option id].
  - intros ->. apply first_success_Some in Hl as [r Hr].
    apply rule_result_kind in Hr as [_ Hr]. exfalso. exact (Hr t eq_refl).
  - intros Ht. simplify_eq. auto.
Qed.

(** The page splits its text at the line feeds ([HtmlView.handle_click]):
    joined by line feeds the lines give the text back, and no line holds a
    line feed.  So the line-feed case of the classifier is never taken for
    a line of the page: a record of [parse_lines] that is malformed carries
    its line trimmed, and that text is not empty. *)
Theorem page_lines_have_no_line_feed (self : WarOutputValidator)
    (value : string) :
  String.concat (String newline EmptyString) (split_newline value) = value
  ∧ Forall (λ line, contains_newline line = false) (split_newline value)
  ∧ Forall2 (λ line record,
               ∀ t, record = MalformedLine t →
                    t = strip line ∧ t ≠ EmptyString)
      (split_newline value) (parse_lines self (split_newline value)).
Proof.
  assert (Hjoin : String.concat (String newline EmptyString)
                    (split_newline value) = value).
  { induction value as [|c rest IH]; [reflexivity|].
    cbn [split_newline].
    destruct (split_newline_cons rest) as (piece & pieces & Hs).
    rewrite Hs in *.
    destruct (Ascii.eqb_spec c newline) as [->|_].
    - change (String.concat (String newline EmptyString)
                (EmptyString :: piece :: pieces))
        with (String newline
                (String.concat (String newline EmptyString) (piece :: pieces))).
      rewrite IH. reflexivity.
    - destruct pieces as [|piece' pieces].
      + cbn [String.concat] in *. rewrite IH. reflexivity.
      + change (String.concat (String newline EmptyString)
                  (String c piece :: piece' :: pieces))
          with (String c
                  (String.concat (String newline EmptyString)
                     (piece :: piece' :: pieces))).
        rewrite IH. reflexivity. }
  assert (Hfree : Forall (λ line, contains_newline line = false)
                    (split_newline value)).
  { clear Hjoin. induction value as [|c rest IH];
      [repeat constructor|].
    cbn [split_newline].
    destruct (split_newline_cons rest) as (piece & pieces & Hs).
    rewrite Hs in *. apply Forall_cons in IH as [Hp Hps].
    destruct (Ascii.eqb c newline) eqn:Hc.
    - repeat constructor; assumption.
    - constructor; [|exact Hps]. cbn [contains_newline]. rewrite Hc, Hp.
      reflexivity. }
  split; [exact Hjoin|]. split; [exact Hfree|].
  clear Hjoin. unfold parse_lines.
  induction Hfree as [|line lines Hline _ IH]; cbn [List.map];
    constructor; [|exact IH].
  intros t. apply parse_line_malformed_trimmed, Hline.
Qed.

(** The expectations of the repository's tests of the classifier hold:
    every input of [tests/test_line_parser.py] classifies as the test
    asserts. *)
Theorem test_line_parser_passes :
  Forall (λ case, parse_line LineParser_default case.1 = case.2)
    test_line_parser_cases.
Proof.
  unfold test_line_parser_cases.
  repeat (constructor; [vm_compute; reflexivity|]). constructor.
Qed.
